(** * Project Minerva: the feature-extraction / prediction / benchmark pipeline

    A shallow embedding of [src/inference.py], and of what [main] of
    [src/app.py] computes from its results, and proofs about them.

    Conventions of the embedding.
    - Python [int] is [Z]; Python [float] is [R] (exact real arithmetic, so a
      statement about a quotient is a statement about the exact quotient;
      Python's [int / int] is the correctly rounded quotient and therefore
      compares with [1.0] and [0.0] as the exact one does). Where a
      statement would rest on the last digit of a double it says that it is
      about exact quotients, or it is stated with a margin; the values of
      the histogram are also computed in doubles, with the primitive
      floats, to show what rounding does to their sum.
    - Python [str] is [string] restricted to ASCII; [str.lower] and
      [str.upper] act on the ASCII letters.
    - [os.path] is the POSIX flavour (separator [/]).
    - A raised exception is a value [Raise e] of the result type; effects on
      the file system, the clock and the list of calls made are threaded
      through an explicit state.
    - The imaging, audio and PDF libraries, the text decoder, the search path,
      the external tools, the copying of files, the making and removing of
      the temporary directory and the model artifacts are functions of an
      environment [world] about which nothing is assumed: a copy can fail
      half-way, the temporary directory can fail to be made or removed, the
      audio library can start processes of its own.
    - The file system is a map from path strings to files. No file has a
      NUL character in its name: for a path with one, the calls that take a
      path raise [ValueError]. Two different strings can name one file; a
      write is recorded under the string it is given, so what is stated
      about the files a write leaves alone is stated for the paths that
      are not names of the written file.
    - The temporary directory of a compression run is a name space of its
      own, and the external tools change nothing outside it.
    - The calls of the user-interface library in [src/app.py] render values
      and are left out. *)

From Stdlib Require Import ZArith NArith List Ascii String Reals Lra Lia.
From Stdlib.Strings Require Import Byte.
From Stdlib Require Floats.PrimFloat Numbers.Cyclic.Int63.Uint63.
From stdpp Require Import gmap strings list fin_maps.
From Equations Require Import Equations.

Local Open Scope string_scope.
Local Open Scope list_scope.

(* ===================================================================== *)
(** ** Python strings and [os.path] *)
(* ===================================================================== *)

Module PyStr.

Definition dot : ascii := "."%char.
Definition slash : ascii := "/"%char.

(** [s[:n]] and [s[n:]] for [0 <= n]. *)
Fixpoint take (n : nat) (s : string) : string :=
  match n, s with
  | S k, String c t => String c (take k t)
  | _, _ => EmptyString
  end.

Fixpoint drop (n : nat) (s : string) : string :=
  match n, s with
  | S k, String _ t => drop k t
  | _, _ => s
  end.

(** [s.rfind(c)]: the highest index of [c] in [s], or [-1]. *)
Fixpoint rfind_from (c : ascii) (s : string) (i : Z) (best : Z) : Z :=
  match s with
  | EmptyString => best
  | String d t => rfind_from c t (i + 1) (if Ascii.eqb d c then i else best)
  end.

Definition rfind (c : ascii) (s : string) : Z := rfind_from c s 0 (-1).

(** [s[i:i+1]], the empty string when [i] is out of range. *)
Definition slice1 (s : string) (i : Z) : string :=
  if (i <? 0)%Z then EmptyString else take 1 (drop (Z.to_nat i) s).

(** ASCII [str.lower] and [str.upper]. *)
Definition lower_ascii (c : ascii) : ascii :=
  let n := nat_of_ascii c in
  if (65 <=? n)%nat && (n <=? 90)%nat then ascii_of_nat (n + 32) else c.

Definition upper_ascii (c : ascii) : ascii :=
  let n := nat_of_ascii c in
  if (97 <=? n)%nat && (n <=? 122)%nat then ascii_of_nat (n - 32) else c.

Fixpoint map_str (f : ascii -> ascii) (s : string) : string :=
  match s with
  | EmptyString => EmptyString
  | String c t => String (f c) (map_str f t)
  end.

Definition lower : string -> string := map_str lower_ascii.
Definition upper : string -> string := map_str upper_ascii.

(** [s.strip(chars)]: drop the leading, then the trailing, characters that
    belong to [chars]. *)
Definition mem (c : ascii) (chars : list ascii) : bool :=
  existsb (Ascii.eqb c) chars.

Fixpoint lstrip (chars : list ascii) (s : string) : string :=
  match s with
  | EmptyString => EmptyString
  | String c t => if mem c chars then lstrip chars t else s
  end.

Fixpoint rstrip (chars : list ascii) (s : string) : string :=
  match s with
  | EmptyString => EmptyString
  | String c t =>
      match rstrip chars t with
      | EmptyString => if mem c chars then EmptyString else String c EmptyString
      | r => String c r
      end
  end.

Definition strip (chars : list ascii) (s : string) : string :=
  rstrip chars (lstrip chars s).

(** The characters [str.strip()] removes when it is given no argument. *)
Definition whitespace : list ascii :=
  map ascii_of_nat [9; 10; 11; 12; 13; 28; 29; 30; 31; 32]%nat.

(** [posixpath.splitext]: the extension starts at the last dot of the last
    path component, unless that component has only dots before it. *)
Fixpoint skip_leading_dots (p : string) (dotIndex filenameIndex : Z)
    (todo : nat) : string * string :=
  match todo with
  | O => (p, EmptyString)
  | S k =>
      if negb (String.eqb (slice1 p filenameIndex) ".")
      then (take (Z.to_nat dotIndex) p, drop (Z.to_nat dotIndex) p)
      else skip_leading_dots p dotIndex (filenameIndex + 1) k
  end.

Definition splitext (p : string) : string * string :=
  let sepIndex := rfind slash p in
  let dotIndex := rfind dot p in
  if (sepIndex <? dotIndex)%Z
  then skip_leading_dots p dotIndex (sepIndex + 1)
         (Z.to_nat (dotIndex - (sepIndex + 1)))
  else (p, EmptyString).

(** [posixpath.basename]: what follows the last separator. *)
Definition basename (p : string) : string :=
  drop (Z.to_nat (rfind slash p + 1)) p.

(** [posixpath.join(a, b)]. *)
Fixpoint endswith_slash (s : string) : bool :=
  match s with
  | EmptyString => false
  | String c EmptyString => Ascii.eqb c slash
  | String _ t => endswith_slash t
  end.

Definition join (a b : string) : string :=
  if String.eqb (slice1 b 0) "/" then b
  else if String.eqb a EmptyString || endswith_slash a then a +:+ b
  else a +:+ "/" +:+ b.

End PyStr.

(** [c in s] for a character. *)
Fixpoint has_char (c : ascii) (s : string) : bool :=
  match s with
  | EmptyString => false
  | String d t => Ascii.eqb d c || has_char c t
  end.

(* ===================================================================== *)
(** ** Files, the environment and the state *)
(* ===================================================================== *)

(** A file: its length, the byte at each offset below the length, and whether
    the process may open it for reading. *)
Record file := File {
  f_size : N;
  f_at : N -> byte;
  f_readable : bool
}.

(** The bytes at offsets [pos, pos + len). *)
Definition f_range (f : file) (pos len : N) : list byte :=
  map (fun i => f_at f (pos + N.of_nat i)%N) (seq 0 (N.to_nat len)).

Definition f_bytes (f : file) : list byte := f_range f 0 (f_size f).

(** [handle.read(k)] at offset [pos]: at most [k] bytes, fewer at the end. *)
Definition f_read (f : file) (pos k : N) : list byte :=
  f_range f pos (N.min k (f_size f - pos)).

Definition file_of_bytes (l : list byte) : file :=
  File (N.of_nat (length l)) (fun i => nth (N.to_nat i) l x00) true.

Definition byte_val (b : byte) : Z := Z.of_N (Byte.to_N b).

Inductive exn :=
| OSError
| ValueError (msg : string)
| KeyError (key : string)
| TypeError
| AttributeError
| ZeroDivisionError
| CalledProcessError (code : Z)
| TimeoutExpired.

Inductive result (A : Type) :=
| Ok (a : A)
| Raise (e : exn).
Arguments Ok {A} a.
Arguments Raise {A} e.

#[export] Instance result_ret : MRet result := fun A a => Ok a.
#[export] Instance result_bind : MBind result := fun A B k r =>
  match r with
  | Ok a => k a
  | Raise e => Raise e
  end.

(** The calls a run makes into the operating system and into the loaded
    models, in order; a call is recorded when it is made, also when it
    fails. *)
Inductive event :=
| EvStat (path : string)
| EvOpen (path : string)
| EvWhich (cmd : option string)
| EvMkdtemp
| EvRmtree (path : string)
| EvCopy (src dst : string)
| EvSpawn (cmd : list string)
| EvTransform
| EvPredict (model_name : string)
| EvInverseTransform.

(** How a child process ended. *)
Inductive proc_status :=
| Exited (code : Z)
| TimedOut
| SpawnFailed.

(** The artifacts held in [INFERENCE_CACHE]. *)
Inductive artifact :=
| Scaler (transform : list R -> list R)
| LabelEncoder (inverse_transform : Z -> result string)
| KerasModel (predict : list (list R) -> list R) (penultimate : list R -> list R)
| Classifier (predict_class : list R -> Z).

(** How [shutil.copyfile] ends: the destination holds the whole content;
    or it was opened, and so truncated, and the copy failed half-way,
    leaving [partial]; or it could not be opened and is as it was. *)
Inductive copy_outcome :=
| Copied
| Truncated (partial : file)
| Refused.

(** Everything outside the program that it only reads or calls. *)
Record world := World {
  w_clock : nat -> R;
  PYDUB_AVAILABLE : bool;
  PYMUPDF_AVAILABLE : bool;
  (** [Image.open]: width, height and number of bands, when the bytes parse. *)
  w_image : file -> option (Z * Z * Z);
  (** [AudioSegment.from_wav]: length in ms, frame rate, channels, sample width. *)
  w_wav : file -> option (Z * Z * Z * Z);
  (** The command lines of the child processes [AudioSegment.from_wav]
      starts (its converter and prober) when its own reader does not accept
      the data. *)
  w_wav_spawns : file -> list (list string);
  (** [fitz.open]: page count. *)
  w_pdf : file -> option Z;
  (** Decoding as UTF-8 with [errors="ignore"] and splitting into lines. *)
  w_readlines : file -> list string;
  (** [shutil.which]. *)
  w_which : string -> option string;
  (** The name of the fresh temporary directory. *)
  w_tempdir : string;
  (** Whether [tempfile.TemporaryDirectory()] finds a usable directory, and
      whether the directory can be removed when the [with] block is left;
      both may depend on the calls made so far. *)
  w_mkdtemp_ok : list event -> bool;
  w_cleanup_ok : list event -> bool;
  (** An external tool run on a command line inside the temporary directory:
      how it ended and what the directory holds afterwards. *)
  w_exec : list string -> gmap string file -> proc_status * gmap string file;
  (** [shutil.copyfile] of a content to a destination path. *)
  w_copy : string -> file -> copy_outcome;
  (** Whether two different path strings name the same file ([./a] and
      [a], an absolute and a relative path, links). *)
  w_same_file : string -> string -> bool;
  INFERENCE_CACHE : gmap string artifact
}.

Record state := State {
  st_fs : gmap string file;
  st_trace : list event;
  st_ticks : nat
}.

(** Computations: from a state to a result, or a raised exception, and the
    state left behind. *)
Definition M (A : Type) : Type := state -> result A * state.

#[export] Instance M_ret : MRet M := fun A a st => (Ok a, st).
#[export] Instance M_bind : MBind M := fun A B k m st =>
  match m st with
  | (Ok a, st') => k a st'
  | (Raise e, st') => (Raise e, st')
  end.

Definition raise {A} (e : exn) : M A := fun st => (Raise e, st).

Definition lift {A} (r : result A) : M A := fun st => (r, st).

(** [try: body / except Exception: handler]. *)
Definition try_except {A} (body handler : M A) : M A := fun st =>
  match body st with
  | (Ok a, st') => (Ok a, st')
  | (Raise _, st') => handler st'
  end.

(** The state after one more system call, and after one more clock reading. *)
Definition st_emit (e : event) (st : state) : state :=
  State (st_fs st) (st_trace st ++ [e]) (st_ticks st).

Definition st_tick (st : state) : state :=
  State (st_fs st) (st_trace st) (S (st_ticks st)).

(** The state once the clock has been read and the size of the file at [p]
    looked up: where [get_prediction] validates its input and where
    [run_single_compression] tests for an empty file. *)
Definition st_sized (p : string) (st : state) : state :=
  st_emit (EvStat p) (st_tick st).

Definition emit (e : event) : M unit := fun st => (Ok tt, st_emit e st).

Definition emit_all (es : list event) : M unit :=
  foldr (fun e m => emit e;; m) (mret tt) es.

Definition st_emit_all (es : list event) (st : state) : state :=
  State (st_fs st) (st_trace st ++ es) (st_ticks st).

Definition get_fs : M (gmap string file) := fun st => (Ok (st_fs st), st).

(** The calls made so far. *)
Definition get_trace : M (list event) := fun st => (Ok (st_trace st), st).

(** What a call that takes a path raises when the path names no file: a
    path with a NUL character is refused before the operating system is
    asked. *)
Definition no_such_file (path : string) : exn :=
  if has_char "000"%char path then ValueError "embedded null byte"
  else OSError.

Definition st_put (path : string) (f : file) (st : state) : state :=
  State (<[path := f]> (st_fs st)) (st_trace st) (st_ticks st).

Definition put_file (path : string) (f : file) : M unit := fun st =>
  (Ok tt, st_put path f st).

(* ===================================================================== *)
(** ** Python built-ins used by the program *)
(* ===================================================================== *)

(** [range(n)]. *)
Definition range (n : Z) : list Z := seqZ 0 n.

(** [a / b] on integers: true division. *)
Definition truediv (a b : Z) : result R :=
  if (b =? 0)%Z then Raise ZeroDivisionError else Ok (IZR a / IZR b)%R.

(** [math.log2]. *)
Definition log2 (x : R) : result R :=
  if Rlt_dec 0 x then Ok (ln x / ln 2)%R
  else Raise (ValueError "math domain error").

(** [sum(generator)]: the terms are evaluated and added from the left. *)
Fixpoint py_sum (terms : list (result R)) (acc : R) : result R :=
  match terms with
  | [] => Ok acc
  | t :: rest => v ← t; py_sum rest (acc + v)%R
  end.

(** [{i: f(i) for i in keys}]. *)
Fixpoint dict_comp {V} (f : Z -> result V) (keys : list Z) (acc : gmap Z V)
    : result (gmap Z V) :=
  match keys with
  | [] => Ok acc
  | i :: rest => v ← f i; dict_comp f rest (<[i := v]> acc)
  end.

(** [d.get(k, 0)]. *)
Definition dict_get {V} (d : gmap Z V) (k : Z) (dflt : V) : V :=
  default dflt (d !! k).

(** [Counter.update(chunk)]: one more occurrence of each byte of the chunk. *)
Definition counter_update (counts : gmap Z Z) (chunk : list byte) : gmap Z Z :=
  foldl (fun m b => <[byte_val b := (dict_get m (byte_val b) 0 + 1)%Z]> m)
        counts chunk.

(** [counts.values()]. The order of a Python dict is that of insertion; the
    only use made of the values is their sum. *)
Definition counter_values (counts : gmap Z Z) : list Z :=
  map snd (map_to_list counts).

Definition CHUNK : N := 1024 * 1024.

(** A value together with the proof that it is the value of [x]. *)
Definition inspect {A : Type} (x : A) : {y : A | x = y} := exist _ x eq_refl.

(** [while chunk := f.read(1024 * 1024): counts.update(chunk)], from the
    offset [pos] of the open file. *)
Equations? read_loop (f : file) (pos : N) (counts : gmap Z Z) : gmap Z Z
    by wf (N.to_nat (f_size f - pos)) lt :=
  read_loop f pos counts with inspect (f_read f pos CHUNK) := {
    | exist _ [] _ => counts
    | exist _ (b :: chunk) Hread =>
        read_loop f (pos + N.of_nat (length (b :: chunk)))
                  (counter_update counts (b :: chunk)) }.
Proof.
  assert (Hlen : length (f_read f pos CHUNK) = S (length chunk))
    by (by rewrite Hread).
  unfold f_read, f_range in Hlen. rewrite length_map, length_seq in Hlen.
  cbn [length]. lia.
Qed.

(* ===================================================================== *)
(** ** The program *)
(* ===================================================================== *)

(** The ten type-specific locals of [compile_feature_vector]. *)
Record type_stats := TypeStats {
  ts_all : R; ts_pc : Z;
  ts_w : Z; ts_h : Z; ts_ci : Z; ts_bdi : Z;
  ts_ds : R; ts_sr : Z; ts_ca : Z; ts_bda : Z
}.

(** A value of the insights mapping; formatted numbers are kept as the
    number and the count of decimals asked for. *)
Inductive insight :=
| IText (s : string)
| IFixed (decimals : nat) (x : R)
| IDims (width height : Z)
| ICount (n : Z).

Definition COMPRESSOR_PATHS : gmap string string :=
  list_to_map [("7zip", "7z"); ("zip", "zip"); ("winrar", "rar");
               ("gzip", "gzip"); ("bzip2", "bzip2"); ("flac", "flac")].

Definition all_tools : list string :=
  ["7zip"; "zip"; "winrar"; "gzip"; "bzip2"; "flac"].

Definition allowed_extensions : list string :=
  [".txt"; ".csv"; ".json"; ".pdf"; ".png"; ".jpg"; ".jpeg"; ".wav"].

Definition MAX_SIZE : Z := 50 * 1024 * 1024.

(** [x in l] for strings. *)
Definition str_in (x : string) (l : list string) : bool :=
  existsb (String.eqb x) l.

(** Where [run_single_compression] leaves the compressed file. *)
Definition final_path (tool : string) : string := "compressed_output." +:+ tool.

(** The result of the benchmark sweep: [benchmark_results] and the time. *)
Record benchmark := Benchmark {
  ratios : gmap string R;
  sizes : gmap string R
}.

Section Program.

Variable w : world.

(** [time.time()]: the next reading of the clock. *)
Definition time_time : M R := fun st =>
  (Ok (w_clock w (st_ticks st)), st_tick st).

(** [os.path.getsize]. *)
Definition getsize (path : string) : M Z :=
  emit (EvStat path);;
  fs ← get_fs;
  match fs !! path with
  | Some f => mret (Z.of_N (f_size f))
  | None => raise (no_such_file path)
  end.

(** Opening a file for reading, by [open] or by a library. *)
Definition open_file (path : string) : M file :=
  emit (EvOpen path);;
  fs ← get_fs;
  match fs !! path with
  | Some f => if f_readable f then mret f else raise OSError
  | None => raise (no_such_file path)
  end.

(** *** 2. Feature extraction *)

Definition zero_dist : result (gmap Z R) :=
  dict_comp (fun _ => Ok 0%R) (range 256) ∅.

Definition get_universal_features (file_path : string)
    : M (Z * R * gmap Z R) :=
  try_except
    (file_size ← getsize file_path;
     if (file_size =? 0)%Z then
       d ← lift zero_dist; mret (0%Z, 0%R, d)
     else
       f ← open_file file_path;
       let counts := read_loop f 0 ∅ in
       entropy ← lift
         (if (0 <? file_size)%Z then
            s ← py_sum (map (fun c => p ← truediv c file_size;
                                      l ← log2 p;
                                      mret (p * l)%R)
                            (counter_values counts)) 0;
            mret (- s)%R
          else mret 0%R);
       byte_dist ← lift
         (dict_comp (fun i => truediv (dict_get counts i 0%Z) file_size)
                    (range 256) ∅);
       mret (file_size, entropy, byte_dist))
    (d ← lift zero_dist; mret (0%Z, 0%R, d)).

Definition get_image_features (file_path : string) : M (Z * Z * Z * Z) :=
  try_except
    (img ← open_file file_path;
     match w_image w img with
     | Some (width, height, bands) => mret (width, height, bands, 8%Z)
     | None => raise OSError
     end)
    (mret (0, 0, 0, 0)%Z).

Definition get_audio_features (file_path : string) : M (R * Z * Z * Z) :=
  if negb (PYDUB_AVAILABLE w) then mret (0%R, 0%Z, 0%Z, 0%Z)
  else
    try_except
      (f ← open_file file_path;
       emit_all (map EvSpawn (w_wav_spawns w f));;
       match w_wav w f with
       | Some (len_ms, frame_rate, channels, sample_width) =>
           mret ((IZR len_ms / 1000)%R, frame_rate, channels,
                 (sample_width * 8)%Z)
       | None => raise OSError
       end)
      (mret (0%R, 0%Z, 0%Z, 0%Z)).

Definition get_text_features (file_path : string) : M R :=
  try_except
    (f ← open_file file_path;
     let lines := w_readlines w f in
     match lines with
     | [] => mret 0%R
     | _ =>
         lift (truediv
                 (foldl Z.add 0%Z
                    (map (fun l => Z.of_nat
                            (String.length (PyStr.strip PyStr.whitespace l)))
                         lines))
                 (Z.of_nat (length lines)))
     end)
    (mret 0%R).

Definition get_pdf_features (file_path : string) : M Z :=
  if negb (PYMUPDF_AVAILABLE w) then mret 0%Z
  else
    try_except
      (doc ← open_file file_path;
       match w_pdf w doc with
       | Some page_count => mret page_count
       | None => raise OSError
       end)
      (mret 0%Z).

Definition no_stats : type_stats := TypeStats 0 0 0 0 0 0 0 0 0 0.

(** The [if]/[elif] chain of [compile_feature_vector]. *)
Definition type_features (ext file_path : string) : M type_stats :=
  if str_in ext ["txt"; "csv"; "json"] then
    a ← get_text_features file_path;
    mret (TypeStats a 0 0 0 0 0 0 0 0 0)
  else if String.eqb ext "pdf" then
    pc ← get_pdf_features file_path;
    mret (TypeStats 0 pc 0 0 0 0 0 0 0 0)
  else if str_in ext ["jpg"; "jpeg"; "png"] then
    '(wd, h, ci, bdi) ← get_image_features file_path;
    mret (TypeStats 0 0 wd h ci bdi 0 0 0 0)
  else if String.eqb ext "wav" then
    '(ds, sr, ca, bda) ← get_audio_features file_path;
    mret (TypeStats 0 0 0 0 0 0 ds sr ca bda)
  else mret no_stats.

Definition stat_features (fs : Z) (ent : R) (t : type_stats) : list R :=
  [IZR fs; ent; ts_all t; IZR (ts_pc t);
   IZR (ts_w t); IZR (ts_h t); IZR (ts_ci t); IZR (ts_bdi t);
   ts_ds t; IZR (ts_sr t); IZR (ts_ca t); IZR (ts_bda t)].

(** [raw_features] is the single row of the [1 x n] array. *)
Definition compile_feature_vector (file_path : string)
    : M (list R * list (string * insight)) :=
  let ext := PyStr.strip ["."%char]
               (PyStr.lower (PyStr.splitext file_path).2) in
  '(fs, ent, bd) ← get_universal_features file_path;
  t ← type_features ext file_path;
  let byte_features := map (fun i => dict_get bd i 0%R) (range 256) in
  let raw_features := (stat_features fs ent t ++ byte_features)%list in
  let insights :=
    [("File Type", IText (PyStr.upper ext));
     ("File Size (KB)", IFixed 2 (IZR fs / 1024)%R);
     ("Shannon Entropy", IFixed 4 ent)] in
  let insights :=
    if Rlt_dec 0 (ts_ds t)
    then (insights ++ [("Duration (s)", IFixed 2 (ts_ds t))])%list
    else insights in
  let insights :=
    if (0 <? ts_w t)%Z
    then (insights ++ [("Dimensions", IDims (ts_w t) (ts_h t))])%list
    else insights in
  let insights :=
    if (0 <? ts_pc t)%Z
    then (insights ++ [("Page Count", ICount (ts_pc t))])%list
    else insights in
  mret (raw_features, insights).

(** *** 3. Benchmarking and prediction *)

(** [shutil.which]; a [None] argument is a type error. *)
Definition which (cmd : option string) : M (option string) :=
  emit (EvWhich cmd);;
  match cmd with
  | Some c => mret (w_which w c)
  | None => raise TypeError
  end.

(** [tempfile.TemporaryDirectory()]: a fresh, empty directory private to
    the call, or the error of finding no usable directory. Its content is a
    name space of its own; the external tools act on it only. *)
Definition mkdtemp : M string :=
  history ← get_trace;
  emit EvMkdtemp;;
  if w_mkdtemp_ok w history then mret (w_tempdir w) else raise OSError.

(** Leaving the [with] block: the directory and its content are removed,
    or the removal raises. *)
Definition cleanup (temp_dir : string) : M unit :=
  history ← get_trace;
  emit (EvRmtree temp_dir);;
  if w_cleanup_ok w history then mret tt else raise OSError.

(** [shutil.copyfile] from the file system into the temporary directory. *)
Definition copy_in (src dst : string) (tmp : gmap string file)
    : M (gmap string file) :=
  emit (EvCopy src dst);;
  fs ← get_fs;
  match fs !! src with
  | Some f =>
      if f_readable f then
        match w_copy w dst f with
        | Copied => mret (<[dst := f]> tmp)
        | _ => raise OSError
        end
      else raise OSError
  | None => raise (no_such_file src)
  end.

(** [shutil.copyfile] from the temporary directory to the file system: the
    source is opened first, then the destination, which truncates it. *)
Definition copy_out (tmp : gmap string file) (src dst : string) : M unit :=
  emit (EvCopy src dst);;
  match tmp !! src with
  | Some f =>
      if f_readable f then
        match w_copy w dst f with
        | Copied => put_file dst f
        | Truncated partial => put_file dst partial;; raise OSError
        | Refused => raise OSError
        end
      else raise OSError
  | None => raise OSError
  end.

(** [os.path.getsize] of a path of the temporary directory. *)
Definition getsize_tmp (tmp : gmap string file) (path : string) : M Z :=
  emit (EvStat path);;
  match tmp !! path with
  | Some f => mret (Z.of_N (f_size f))
  | None => raise OSError
  end.

(** [subprocess.run(cmd, cwd=temp_dir, check=True, timeout=60)]. *)
Definition subprocess_run (cmd : list string) (tmp : gmap string file)
    : M (gmap string file) :=
  emit (EvSpawn cmd);;
  match w_exec w cmd tmp with
  | (Exited 0, tmp') => mret tmp'
  | (Exited code, _) => raise (CalledProcessError code)
  | (TimedOut, _) => raise TimeoutExpired
  | (SpawnFailed, _) => raise OSError
  end.

(** The output path and the command line of the four archive-style tools
    (the first [if]/[elif] chain of the [try] block). *)
Definition archive_command (tool executable temp_dir base_name : string)
    : string * list string :=
  if String.eqb tool "7zip" then
    let output_path := PyStr.join temp_dir "output.7z" in
    (output_path, [executable; "a"; "-y"; output_path; base_name])
  else if String.eqb tool "winrar" then
    let output_path := PyStr.join temp_dir "output.rar" in
    (output_path, [executable; "a"; "-m5"; "-o+"; output_path; base_name])
  else if String.eqb tool "zip" then
    let output_path := PyStr.join temp_dir "output.zip" in
    (output_path, [executable; "-9"; "-j"; output_path; base_name])
  else if String.eqb tool "flac" then
    let output_path := PyStr.join temp_dir "output.flac" in
    (output_path, [executable; "-8"; "-f"; "-o"; output_path; base_name])
  else (EmptyString, []).

(** The part of the [try] block up to the end of the child process: the
    output path and the temporary directory afterwards. *)
Definition run_tool (tool executable temp_dir base_name temp_input_path : string)
    (tmp : gmap string file) : M (string * gmap string file) :=
  let '(output_path, cmd) :=
    archive_command tool executable temp_dir base_name in
  if str_in tool ["7zip"; "winrar"; "zip"; "flac"] then
    tmp' ← subprocess_run cmd tmp;
    mret (output_path, tmp')
  else if str_in tool ["gzip"; "bzip2"] then
    let output_path :=
      if String.eqb tool "gzip" then temp_input_path +:+ ".gz"
      else output_path in
    let output_path :=
      if String.eqb tool "bzip2" then temp_input_path +:+ ".bz2"
      else output_path in
    let cmd := [executable; "-9"; temp_input_path] in
    tmp' ← subprocess_run cmd tmp;
    mret (output_path, tmp')
  else mret (output_path, tmp).

(** [original_size / comp_size if comp_size > 0 else 1.0]. *)
Definition ratio_of (original_size comp_size : Z) : result R :=
  if (0 <? comp_size)%Z then truediv original_size comp_size else Ok 1%R.

(** The body of the [try] block of [run_single_compression]. *)
Definition compression_attempt (tool file_path : string)
    (original_size : Z) (start_time : R) (executable temp_dir : string)
    : M (R * R * option string) :=
  let base_name := PyStr.basename file_path in
  let temp_input_path := PyStr.join temp_dir base_name in
  tmp ← copy_in file_path temp_input_path ∅;
  '(output_path, tmp) ←
    run_tool tool executable temp_dir base_name temp_input_path tmp;
  comp_size ← getsize_tmp tmp output_path;
  ratio ← lift (ratio_of original_size comp_size);
  let final_download_path := final_path tool in
  copy_out tmp output_path final_download_path;;
  now ← time_time;
  mret (ratio, (now - start_time)%R, Some final_download_path).

Definition run_single_compression (tool file_path : string)
    : M (R * R * option string) :=
  start_time ← time_time;
  original_size ← getsize file_path;
  if (original_size =? 0)%Z then mret (1%R, 0%R, None)
  else
    let tool_cmd_path := COMPRESSOR_PATHS !! tool in
    executable ← which tool_cmd_path;
    match executable with
    | None | Some EmptyString => mret (1%R, 0%R, None)
    | Some executable =>
        temp_dir ← mkdtemp;
        returned ←
          try_except
            (compression_attempt tool file_path original_size start_time
               executable temp_dir)
            (now ← time_time;
             mret (1%R, (now - start_time)%R, None));
        cleanup temp_dir;;
        mret returned
    end.

(** [INFERENCE_CACHE[key]]. *)
Definition cache_get (key : string) : M artifact :=
  match INFERENCE_CACHE w !! key with
  | Some a => mret a
  | None => raise (KeyError key)
  end.

(** [np.argmax]: the index of the first largest entry. *)
Fixpoint argmax_from (l : list R) (i : Z) (best : Z) (best_val : R) : Z :=
  match l with
  | [] => best
  | x :: rest =>
      if Rlt_dec best_val x then argmax_from rest (i + 1) i x
      else argmax_from rest (i + 1) best best_val
  end.

Definition np_argmax (l : list R) : result Z :=
  match l with
  | [] => Raise (ValueError "attempt to get argmax of an empty sequence")
  | x :: rest => Ok (argmax_from rest 1 0 x)
  end.

Definition keras_predict (model : artifact) (inputs : list (list R))
    : M (list R) :=
  match model with
  | KerasModel predict _ => mret (predict inputs)
  | _ => raise AttributeError
  end.

(** Lines 259-283 of [get_prediction]: scaling, the forward pass of the
    chosen model and the decoding of the label. *)
Definition predict_from_features (model_name : string) (start_time : R)
    (features : list R * list (string * insight))
    : M (string * list (string * insight) * R) :=
  let '(raw_features, key_insights) := features in
  scaler ← cache_get "SCALER";
  scaled_features ←
    match scaler with
    | Scaler transform => emit EvTransform;; mret (transform raw_features)
    | _ => raise AttributeError
    end;
  model ← cache_get model_name;
  pred_enc ←
    (if String.eqb model_name "DL-ML Hybrid" then
       extractor ← cache_get "HYBRID_EXTRACTOR";
       emit (EvPredict "HYBRID_EXTRACTOR");;
       deep_features ←
         match extractor with
         | KerasModel _ penultimate => mret (penultimate scaled_features)
         | _ => raise AttributeError
         end;
       emit (EvPredict model_name);;
       match model with
       | Classifier predict_class => mret (predict_class deep_features)
       | _ => raise AttributeError
       end
     else
       emit (EvPredict model_name);;
       pred_probs ←
         (if String.eqb model_name "Wide & Deep" then
            keras_predict model [scaled_features; take 12 scaled_features]
          else keras_predict model [scaled_features]);
       lift (np_argmax pred_probs));
  encoder ← cache_get "LABEL_ENCODER";
  recommended_tool ←
    match encoder with
    | LabelEncoder inverse_transform =>
        emit EvInverseTransform;; lift (inverse_transform pred_enc)
    | _ => raise AttributeError
    end;
  now ← time_time;
  mret (recommended_tool, key_insights, (now - start_time)%R).

Definition get_prediction (file_path model_name : string)
    : M (string * list (string * insight) * R) :=
  start_time ← time_time;
  original_size ← getsize file_path;
  let ext := PyStr.lower (PyStr.splitext file_path).2 in
  if negb (str_in ext allowed_extensions) then
    raise (ValueError ("Invalid file type '" +:+ ext +:+ "'."))
  else if (MAX_SIZE <? original_size)%Z then
    raise (ValueError "File is too large for this demo (max 50 MB).")
  else
    features ← compile_feature_vector file_path;
    predict_from_features model_name start_time features.

(** [a / b] on floats. *)
Definition float_div (a b : R) : result R :=
  if Req_dec_T b 0 then Raise ZeroDivisionError else Ok (a / b)%R.

(** The [for tool in all_tools] loop of [run_full_benchmark]. *)
Fixpoint sweep (file_path : string) (original_size : Z)
    (tools : list string) (benchmark_results : benchmark) : M benchmark :=
  match tools with
  | [] => mret benchmark_results
  | tool :: rest =>
      let ext := PyStr.strip ["."%char]
                   (PyStr.lower (PyStr.splitext file_path).2) in
      '(ratio, size) ←
        (if String.eqb tool "flac" && negb (String.eqb ext ".wav") then
           mret (0%R, IZR original_size)
         else
           '(ratio, _, _) ← run_single_compression tool file_path;
           size ← lift (if Rlt_dec 0 ratio
                        then float_div (IZR original_size) ratio
                        else Ok (IZR original_size));
           mret (ratio, size));
      sweep file_path original_size rest
        (Benchmark (<[tool := ratio]> (ratios benchmark_results))
                   (<[tool := size]> (sizes benchmark_results)))
  end.

(** [run_full_benchmark] up to [benchmark_results] and [brute_force_time];
    the chart and the summary text are renderings of [benchmark_results]
    by the plotting and data-frame libraries. *)
Definition run_full_benchmark (file_path recommended_tool : string)
    : M (benchmark * R) :=
  original_size ← getsize file_path;
  time_start_full ← time_time;
  benchmark_results ← sweep file_path original_size all_tools
                        (Benchmark ∅ ∅);
  now ← time_time;
  mret (benchmark_results, (now - time_start_full)%R).

End Program.

(* ===================================================================== *)
(** ** Specification-side definitions and example environments *)
(* ===================================================================== *)

(** Sums of lists of reals and of integers. *)
Definition Rsum (l : list R) : R := foldr Rplus 0%R l.

Definition Zsum (l : list Z) : Z := foldr Z.add 0%Z l.

(** The number of occurrences of the byte value [k] in [l]. *)
Definition occurrences (k : Z) (l : list byte) : Z :=
  Z.of_nat (length (filter (fun b => byte_val b = k) l)).

(** The all-zero histogram of the early and the failure return. *)
Definition zeros : gmap Z R :=
  foldl (fun m i => <[i := 0%R]> m) ∅ (range 256).

(** [p * log2(p)]. *)
Definition plogp (p : R) : R := (p * (ln p / ln 2))%R.

(** The relative frequency of the byte value [i] in [l]. *)
Definition frequency (i : Z) (l : list byte) : R :=
  (IZR (occurrences i l) / IZR (Z.of_nat (length l)))%R.

(** Shannon entropy as the specification words it: minus the sum of
    [p_i * log2(p_i)] over the byte values that occur. *)
Definition shannon (l : list byte) : R :=
  (- Rsum (map (fun i => if decide (0 < occurrences i l)%Z
                         then plogp (frequency i l) else 0%R)
               (range 256)))%R.

(** The histogram of a list of bytes, as a dictionary over [0..255]. *)
Definition histogram (l : list byte) : gmap Z R :=
  foldl (fun m i => <[i := frequency i l]> m) ∅ (range 256).

(** The file a path can be read from, if any. *)
Definition readable_file (st : state) (p : string) : option file :=
  match st_fs st !! p with
  | Some f => if f_readable f then Some f else None
  | None => None
  end.

(** What opening [p] raises when it is not a readable file. *)
Definition open_error (st : state) (p : string) : exn :=
  match st_fs st !! p with
  | Some _ => OSError
  | None => no_such_file p
  end.

(** The classes of extensions [compile_feature_vector] distinguishes, and
    the class each type-specific position of the vector belongs to. *)
Inductive ext_class := TextExt | PdfExt | ImageExt | AudioExt | OtherExt.

Definition class_of_ext (ext : string) : ext_class :=
  if str_in ext ["txt"; "csv"; "json"] then TextExt
  else if String.eqb ext "pdf" then PdfExt
  else if str_in ext ["jpg"; "jpeg"; "png"] then ImageExt
  else if String.eqb ext "wav" then AudioExt
  else OtherExt.

Definition slot_class (i : nat) : option ext_class :=
  match i with
  | 2 => Some TextExt
  | 3 => Some PdfExt
  | 4 | 5 | 6 | 7 => Some ImageExt
  | 8 | 9 | 10 | 11 => Some AudioExt
  | _ => None
  end%nat.

(** The extension [compile_feature_vector] dispatches on. *)
Definition bare_ext (file_path : string) : string :=
  PyStr.strip ["."%char] (PyStr.lower (PyStr.splitext file_path).2).

(** Example environments: no optional library result, no tool installed. *)
Definition bare_world : world :=
  World (fun n => INR n) true true
        (fun _ => None) (fun _ => None) (fun _ => []) (fun _ => None)
        (fun _ => [])
        (fun _ => None) "/tmp/tmpminerva" (fun _ => true) (fun _ => true)
        (fun _ tmp => (SpawnFailed, tmp)) (fun _ _ => Copied)
        (fun _ _ => false) ∅.

Definition st_with (p : string) (f : file) : state := State {[p := f]} [] 0.

Definition st_empty : state := State ∅ [] 0.

(** A path with a NUL character in it: [x], NUL, [.exe]. *)
Definition nul_path : string := String "x" (String "000" ".exe").

Definition file_empty : file := file_of_bytes [].

Definition file_aab : file := file_of_bytes [x61; x61; x62].

Definition file_aaa : file := file_of_bytes [x61; x61; x61].

(** Ten different bytes, each once. *)
Definition file_ten : file :=
  file_of_bytes [x00; x01; x02; x03; x04; x05; x06; x07; x08; x09].

(** *** The histogram in double precision

    The values Python stores are doubles: the quotient [c / n] of two
    integers is the double nearest to the exact quotient, which for
    integers below 2^53 is the quotient of the two doubles. *)
Definition double_of_Z (z : Z) : PrimFloat.float :=
  PrimFloat.of_uint63 (Uint63.of_Z z).

(** The values of [{i: counts.get(i, 0) / file_size for i in range(256)}],
    in the order of the keys. *)
Definition byte_dist_double (counts : gmap Z Z) (file_size : Z)
    : list PrimFloat.float :=
  map (fun i => PrimFloat.div (double_of_Z (dict_get counts i 0%Z))
                              (double_of_Z file_size))
      (range 256).

(** [sum(values)]: from 0, adding from the left. *)
Definition sum_double (values : list PrimFloat.float) : PrimFloat.float :=
  foldl PrimFloat.add (double_of_Z 0) values.

(** A file of exactly 50 MiB and one a byte larger. *)
Definition file_50MiB : file := File 52428800 (fun _ => x00) true.

Definition file_over_50MiB : file := File 52428801 (fun _ => x00) true.

(** The invocation protocol as a table: for each of the six tools, the
    output path and the command line. *)
Definition tool_plan (tool executable temp_dir base_name temp_input_path : string)
    : option (string * list string) :=
  if String.eqb tool "7zip" then
    Some (PyStr.join temp_dir "output.7z",
          [executable; "a"; "-y"; PyStr.join temp_dir "output.7z"; base_name])
  else if String.eqb tool "winrar" then
    Some (PyStr.join temp_dir "output.rar",
          [executable; "a"; "-m5"; "-o+"; PyStr.join temp_dir "output.rar";
           base_name])
  else if String.eqb tool "zip" then
    Some (PyStr.join temp_dir "output.zip",
          [executable; "-9"; "-j"; PyStr.join temp_dir "output.zip"; base_name])
  else if String.eqb tool "flac" then
    Some (PyStr.join temp_dir "output.flac",
          [executable; "-8"; "-f"; "-o"; PyStr.join temp_dir "output.flac";
           base_name])
  else if String.eqb tool "gzip" then
    Some (temp_input_path +:+ ".gz", [executable; "-9"; temp_input_path])
  else if String.eqb tool "bzip2" then
    Some (temp_input_path +:+ ".bz2", [executable; "-9"; temp_input_path])
  else None.

(** The content [f] is copied into the temporary directory; the tool run
    on the copy ends with status 0 and leaves the readable output [g] where
    the protocol says; and [g] is copied out in full. *)
Definition produces (w : world) (tool executable file_path : string)
    (f g : file) : Prop :=
  let base_name := PyStr.basename file_path in
  let temp_input_path := PyStr.join (w_tempdir w) base_name in
  exists output_path cmd tmp',
    tool_plan tool executable (w_tempdir w) base_name temp_input_path
      = Some (output_path, cmd) /\
    w_copy w temp_input_path f = Copied /\
    w_exec w cmd {[temp_input_path := f]} = (Exited 0, tmp') /\
    tmp' !! output_path = Some g /\
    f_readable g = true /\
    w_copy w (final_path tool) g = Copied.

(** The temporary directory can always be created and removed. *)
Definition usable_tempdir (w : world) : Prop :=
  forall history,
    w_mkdtemp_ok w history = true /\ w_cleanup_ok w history = true.

(** Two path strings that name the same file. *)
Definition names_same_file (w : world) (a b : string) : Prop :=
  a = b \/ w_same_file w a b = true.

(** An environment in which [gzip] is installed and turns the three bytes of
    the input into an output of 21 bytes. *)
Definition gz_output : file := File 21 (fun _ => x00) true.

Definition growing_world : world :=
  World (fun n => INR n) true true
        (fun _ => None) (fun _ => None) (fun _ => []) (fun _ => None)
        (fun _ => [])
        (fun c => if String.eqb c "gzip" then Some "/bin/gzip" else None)
        "/tmp/tmpminerva" (fun _ => true) (fun _ => true)
        (fun _ _ => (Exited 0, {["/tmp/tmpminerva/a.bin.gz" := gz_output]}))
        (fun _ _ => Copied) (fun _ _ => false) ∅.

(** An environment in which [flac], and no other tool, is installed. *)
Definition flac_world : world :=
  World (fun n => INR n) true true
        (fun _ => None) (fun _ => None) (fun _ => []) (fun _ => None)
        (fun _ => [])
        (fun c => if String.eqb c "flac" then Some "/usr/bin/flac" else None)
        "/tmp/tmpminerva" (fun _ => true) (fun _ => true)
        (fun _ tmp => (Exited 0, tmp)) (fun _ _ => Copied)
        (fun _ _ => false) ∅.

(* ===================================================================== *)
(** ** Relations between the state before and after a run *)
(* ===================================================================== *)

(** Every run of [m] relates the state it starts from to the state it
    leaves by [Q]. *)
Definition keeps {A} (Q : state -> state -> Prop) (m : M A) : Prop :=
  forall st r st', m st = (r, st') -> Q st st'.

(** The file system is left as it was. *)
Definition same_fs (st st' : state) : Prop := st_fs st' = st_fs st.

(** The file system is left as it was at every path but [path]. *)
Definition same_fs_but (path : string) (st st' : state) : Prop :=
  forall q, q <> path -> st_fs st' !! q = st_fs st !! q.

(** The trace grows by system calls that all satisfy [P]. *)
Definition extends (P : event -> Prop) (st st' : state) : Prop :=
  exists evs, st_trace st' = st_trace st ++ evs /\ Forall P evs.

(** The calls that look at files and run the loaded models. *)
Definition passive (e : event) : Prop :=
  match e with
  | EvStat _ | EvOpen _ | EvTransform | EvPredict _ | EvInverseTransform => True
  | EvWhich _ | EvMkdtemp | EvRmtree _ | EvCopy _ _ | EvSpawn _ => False
  end.

(** The calls of feature extraction and inference: the passive ones, and
    the child processes the audio library starts. *)
Definition inference_call (e : event) : Prop :=
  match e with
  | EvSpawn _ => True
  | _ => passive e
  end.

(** The system calls of a compression run for [tool]: any but a search for
    an executable other than the one [COMPRESSOR_PATHS] gives for [tool]. *)
Definition of_tool (tool : string) (e : event) : Prop :=
  match e with
  | EvWhich c => c = COMPRESSOR_PATHS !! tool
  | _ => True
  end.

(** Any system call but the search for the [flac] executable. *)
Definition not_flac (e : event) : Prop := e <> EvWhich (Some "flac").

(** What [run_full_benchmark] records for [tool] in [benchmark_results]:
    ratio 0 and the original size for [flac]; for a tool that was run, a
    positive ratio and the original size divided by it. *)
Definition entry_ok (original_size : Z) (b : benchmark) (tool : string) : Prop :=
  exists r s,
    ratios b !! tool = Some r /\ sizes b !! tool = Some s /\
    if String.eqb tool "flac" then r = 0%R /\ s = IZR original_size
    else (0 < r)%R /\ s = (IZR original_size / r)%R.

(** A run reads the clock; it never sets it back. *)
Definition ticks_le (st st' : state) : Prop :=
  (st_ticks st <= st_ticks st')%nat.

(** A clock that never runs backwards. *)
Definition monotone_clock (w : world) : Prop :=
  forall n m, (n <= m)%nat -> (w_clock w n <= w_clock w m)%R.

(** The file system is as before outside a list of paths. *)
Definition same_fs_outside (paths : list string) (st st' : state) : Prop :=
  forall q, q ∉ paths -> st_fs st' !! q = st_fs st !! q.

(** An environment whose cache holds a scaler and nothing else. *)
Definition scaler_world : world :=
  World (fun n => INR n) true true
        (fun _ => None) (fun _ => None) (fun _ => []) (fun _ => None)
        (fun _ => [])
        (fun _ => None) "/tmp/tmpminerva" (fun _ => true) (fun _ => true)
        (fun _ tmp => (SpawnFailed, tmp)) (fun _ _ => Copied)
        (fun _ _ => false)
        {["SCALER" := Scaler (fun x => x)]}.

(** *** The efficiency report of [main] (app.py) *)

Record efficiency := Efficiency {
  ml_pipeline_time : R;
  compression_time : R;
  total_smart_time : R;
  brute_force_estimate : R;
  time_saved : R;
  efficiency_gain : R
}.

(** A rounding of the reals with relative error at most [u]: it keeps the
    order and is exact at 0. Rounding to the nearest double is one, with
    [u = 2^-53], on the values that neither overflow nor underflow. *)
Definition rounding (rnd : R -> R) (u : R) : Prop :=
  (forall x y, (x <= y)%R -> (rnd x <= rnd y)%R) /\
  rnd 0%R = 0%R /\
  (forall x, (Rabs (rnd x - x) <= u * Rabs x)%R).

(** The dictionary [main] builds from the two durations, the result of
    each operation rounded by [rnd], as each operation on the doubles of
    the program is. *)
Definition efficiency_report_rounded (rnd : R -> R)
    (prediction_time benchmark_time : R) : efficiency :=
  let ml_pipeline_time := prediction_time in
  let compression_time := benchmark_time in
  let total_smart_time := rnd (ml_pipeline_time + compression_time)%R in
  let brute_force_estimate := rnd (compression_time * 7)%R in
  let time_saved := rnd (brute_force_estimate - total_smart_time)%R in
  Efficiency ml_pipeline_time compression_time total_smart_time
    brute_force_estimate time_saved
    (if Rlt_dec 0 brute_force_estimate
     then rnd (rnd (time_saved / brute_force_estimate) * 100)%R
     else 0%R).

(** The same in exact arithmetic. *)
Definition efficiency_report (prediction_time benchmark_time : R)
    : efficiency :=
  efficiency_report_rounded (fun x => x) prediction_time benchmark_time.

(** *** The analysis of [main] (app.py)

    The three calls [main] makes on the uploaded file once it has been
    saved, and what it hands to the dashboard and to the download button.
    The renderings in between are calls of the user-interface library;
    they read these values and are left out. *)

Record analysis_result := AnalysisResult {
  an_recommended_tool : string;
  an_key_insights : list (string * insight);
  an_benchmark : benchmark;
  an_prediction_time : R;
  an_benchmark_time : R;
  an_efficiency_report : efficiency;
  an_compressed_file_path : option string
}.

Definition analysis (w : world) (tmp_file_path model_name : string)
    : M analysis_result :=
  '(recommended_tool, key_insights, prediction_time) ←
    get_prediction w tmp_file_path model_name;
  '(benchmark_results, benchmark_time) ←
    run_full_benchmark w tmp_file_path recommended_tool;
  '(_, _, compressed_file_path) ←
    run_single_compression w recommended_tool tmp_file_path;
  mret (AnalysisResult recommended_tool key_insights benchmark_results
          prediction_time benchmark_time
          (efficiency_report prediction_time benchmark_time)
          compressed_file_path).

(** The paths [run_single_compression] can write to. *)
Definition output_paths : list string := map final_path all_tools.

(** An environment with a scaler, one model and a label encoder in the
    cache, in which [gzip] is installed. *)
Definition demo_world : world :=
  World (fun n => INR n) true true
        (fun _ => None) (fun _ => None) (fun _ => []) (fun _ => None)
        (fun _ => [])
        (fun c => if String.eqb c "gzip" then Some "/bin/gzip" else None)
        "/tmp/tmpminerva" (fun _ => true) (fun _ => true)
        (fun _ _ => (Exited 0, {["/tmp/tmpminerva/a.txt.gz" := gz_output]}))
        (fun _ _ => Copied) (fun _ _ => false)
        (list_to_map
           [("SCALER", Scaler (fun x => x));
            ("Baseline MLP", KerasModel (fun _ => [0%R; 1%R]) (fun x => x));
            ("LABEL_ENCODER", LabelEncoder (fun _ => Ok "gzip"))]).

(* ===================================================================== *)
(** ** Strings: what [strip] leaves *)
(* ===================================================================== *)

Lemma lstrip_head chars s c r :
  PyStr.lstrip chars s = String c r -> PyStr.mem c chars = false.
Proof.
  induction s as [|d t IH]; simpl; [discriminate|].
  destruct (PyStr.mem d chars) eqn:Hd; [exact IH|].
  intros [= <- _]. exact Hd.
Qed.

Lemma rstrip_head chars s c r :
  PyStr.rstrip chars s = String c r ->
  exists t, s = String c t /\ (PyStr.mem c chars = false \/ r <> EmptyString).
Proof.
  destruct s as [|d t]; simpl; [discriminate|].
  destruct (PyStr.rstrip chars t) eqn:Ht.
  - destruct (PyStr.mem d chars) eqn:Hd; [discriminate|].
    intros [= <- <-]. exists t. split; [done|by left].
  - intros [= <- <-]. exists t. split; [done|by right].
Qed.

(** The first character of [s.strip(chars)] is not one of [chars]. *)
Lemma strip_head chars s c r :
  PyStr.strip chars s = String c r -> PyStr.mem c chars = false.
Proof.
  unfold PyStr.strip. intros H.
  destruct (rstrip_head _ _ _ _ H) as [t [Ht _]].
  by apply lstrip_head in Ht.
Qed.

(** Whatever the path, the extension with its dots stripped is never the
    string [".wav"]. *)
Lemma stripped_ext_not_dot_wav s : PyStr.strip ["."%char] s <> ".wav".
Proof.
  intros H. apply strip_head in H. discriminate H.
Qed.

(* ===================================================================== *)
(** ** The string functions on concrete paths *)
(* ===================================================================== *)

Example splitext_wav :
  PyStr.splitext "/tmp/up/Song.WAV" = ("/tmp/up/Song", ".WAV").
Proof. reflexivity. Qed.

Example splitext_hidden :
  PyStr.splitext "dir.d/.bashrc" = ("dir.d/.bashrc", EmptyString).
Proof. reflexivity. Qed.

Example splitext_two : PyStr.splitext "a.tar.gz" = ("a.tar", ".gz").
Proof. reflexivity. Qed.

Example strip_dots : PyStr.strip ["."%char] "..a.b.." = "a.b".
Proof. reflexivity. Qed.

Example bare_ext_wav : bare_ext "/tmp/up/Song.WAV" = "wav".
Proof. reflexivity. Qed.

Example basename_join :
  PyStr.join "/tmp/t" (PyStr.basename "/home/u/a.bin") = "/tmp/t/a.bin".
Proof. reflexivity. Qed.

Example read_loop_aab :
  dict_get (read_loop file_aab 0 ∅) 97 0%Z = 2%Z /\
  dict_get (read_loop file_aab 0 ∅) 98 0%Z = 1%Z /\
  dict_get (read_loop file_aab 0 ∅) 99 0%Z = 0%Z.
Proof. by vm_compute. Qed.

Example plan_gzip :
  tool_plan "gzip" "/bin/gzip" "/tmp/t" "a.bin" "/tmp/t/a.bin"
  = Some ("/tmp/t/a.bin.gz", ["/bin/gzip"; "-9"; "/tmp/t/a.bin"]).
Proof. reflexivity. Qed.

(* ===================================================================== *)
(** ** Running the primitives *)
(* ===================================================================== *)

Ltac munfold :=
  unfold mbind, M_bind, mret, M_ret, lift, raise, emit, get_fs, put_file,
    try_except.

Lemma getsize_run p st :
  getsize p st =
  (match st_fs st !! p with
   | Some f => Ok (Z.of_N (f_size f))
   | None => Raise (no_such_file p)
   end, st_emit (EvStat p) st).
Proof. unfold getsize. munfold. simpl. by destruct (st_fs st !! p). Qed.

Lemma open_file_run p st :
  open_file p st =
  (match st_fs st !! p with
   | Some f => if f_readable f then Ok f else Raise OSError
   | None => Raise (no_such_file p)
   end, st_emit (EvOpen p) st).
Proof.
  unfold open_file. munfold. simpl.
  destruct (st_fs st !! p) as [f|]; [|done]. by destruct (f_readable f).
Qed.

Lemma bind_run {A B} (m : M A) (k : A -> M B) st :
  (m ≫= k) st =
  match m st with
  | (Ok a, st') => k a st'
  | (Raise e, st') => (Raise e, st')
  end.
Proof. reflexivity. Qed.

Lemma ret_run {A} (a : A) (st : state) : (mret a : M A) st = (Ok a, st).
Proof. reflexivity. Qed.

(** A [try] whose handler returns a value never raises. *)
Lemma try_except_total {A} (body : M A) (v : A) st :
  exists a st', try_except body (mret v) st = (Ok a, st').
Proof.
  unfold try_except. destruct (body st) as [[a|e] st']; munfold; eauto.
Qed.

(* ===================================================================== *)
(** ** Sums, dictionaries and the byte counter *)
(* ===================================================================== *)

Lemma byte_val_range b : (0 <= byte_val b < 256)%Z.
Proof.
  unfold byte_val. pose proof (Byte.to_N_bounded b). lia.
Qed.

Lemma occurrences_nonneg k l : (0 <= occurrences k l)%Z.
Proof. unfold occurrences. lia. Qed.

Lemma occurrences_cons k b l :
  occurrences k (b :: l) =
  ((if decide (byte_val b = k) then 1 else 0) + occurrences k l)%Z.
Proof.
  unfold occurrences. rewrite filter_cons.
  destruct (decide (byte_val b = k)); simpl; lia.
Qed.

Lemma occurrences_app k l1 l2 :
  occurrences k (l1 ++ l2) = (occurrences k l1 + occurrences k l2)%Z.
Proof.
  unfold occurrences. rewrite filter_app, length_app. lia.
Qed.

Lemma dict_comp_ok {V} (f : Z -> result V) (g : Z -> V) keys acc :
  (forall i, i ∈ keys -> f i = Ok (g i)) ->
  dict_comp f keys acc = Ok (foldl (fun m i => <[i := g i]> m) acc keys).
Proof.
  revert acc. induction keys as [|i keys IH]; intros acc Hf; simpl; [done|].
  rewrite (Hf i) by left. unfold mbind, result_bind.
  apply IH. intros j Hj. apply Hf. by right.
Qed.

Lemma foldl_insert_lookup {V} (g : Z -> V) keys (acc : gmap Z V) k :
  foldl (fun m i => <[i := g i]> m) acc keys !! k =
  if decide (k ∈ keys) then Some (g k) else acc !! k.
Proof.
  revert acc. induction keys as [|i keys IH]; intros acc.
  - destruct (decide (k ∈ [])) as [Hin|_]; [|done]. by apply elem_of_nil in Hin.
  - cbn [foldl]. rewrite IH.
    destruct (decide (k ∈ keys)) as [Hin|Hnin];
      destruct (decide (k ∈ i :: keys)) as [Hin'|Hnin']; try done.
    + exfalso. apply Hnin'. by right.
    + apply elem_of_cons in Hin' as [->|?]; [|done]. by rewrite lookup_insert_eq.
    + rewrite lookup_insert_ne; [done|]. intros ->. apply Hnin'. left.
Qed.

Lemma elem_of_range i n : i ∈ range n <-> (0 <= i < n)%Z.
Proof. unfold range. rewrite elem_of_seqZ. lia. Qed.

Lemma zero_dist_ok : zero_dist = Ok zeros.
Proof. unfold zero_dist, zeros. by apply dict_comp_ok. Qed.

Lemma zeros_lookup i : (0 <= i < 256)%Z -> zeros !! i = Some 0%R.
Proof.
  intros Hi. unfold zeros. rewrite (foldl_insert_lookup (fun _ => 0%R)).
  rewrite decide_True; [done|]. by apply elem_of_range.
Qed.

Lemma dict_get_insert {V} (m : gmap Z V) i j (v d : V) :
  dict_get (<[i := v]> m) j d = if decide (i = j) then v else dict_get m j d.
Proof.
  unfold dict_get. rewrite lookup_insert. by destruct (decide (i = j)).
Qed.

Lemma counter_update_lookup counts l k :
  counter_update counts l !! k =
  if decide (occurrences k l = 0%Z) then counts !! k
  else Some (dict_get counts k 0 + occurrences k l)%Z.
Proof.
  unfold counter_update. revert counts.
  induction l as [|b l IH]; intros counts; [done|].
  cbn [foldl]. rewrite IH, occurrences_cons, dict_get_insert, lookup_insert.
  pose proof (occurrences_nonneg k l).
  repeat case_decide; try lia; try done.
  all: subst; f_equal; lia.
Qed.

Lemma counter_update_get counts l k :
  dict_get (counter_update counts l) k 0%Z =
  (dict_get counts k 0 + occurrences k l)%Z.
Proof.
  unfold dict_get at 1. rewrite counter_update_lookup.
  case_decide as H; [|done]. rewrite H. unfold dict_get. lia.
Qed.

Lemma counter_update_app counts l1 l2 :
  counter_update counts (l1 ++ l2) =
  counter_update (counter_update counts l1) l2.
Proof. unfold counter_update. by rewrite foldl_app. Qed.

Lemma f_range_length f pos len : length (f_range f pos len) = N.to_nat len.
Proof. unfold f_range. by rewrite length_map, length_seq. Qed.

Lemma f_range_split f pos len1 len :
  (len1 <= len)%N ->
  f_range f pos len =
  f_range f pos len1 ++ f_range f (pos + len1) (len - len1).
Proof.
  intros Hle. unfold f_range.
  replace (N.to_nat len) with (N.to_nat len1 + N.to_nat (len - len1))%nat by lia.
  rewrite seq_app, map_app. f_equal.
  cbn [Nat.add].
  replace (seq (N.to_nat len1) (N.to_nat (len - len1)))
    with (map (Nat.add (N.to_nat len1)) (seq 0 (N.to_nat (len - len1))))
    by (rewrite <- (Nat.add_0_r (N.to_nat len1)) at 2;
        apply (fmap_add_seq (N.to_nat len1) 0)).
  rewrite map_map. apply map_ext. intros i. f_equal. lia.
Qed.

(** The chunked read loop counts every byte from the offset to the end. *)
Lemma read_loop_counts f pos counts :
  read_loop f pos counts =
  counter_update counts (f_range f pos (f_size f - pos)).
Proof.
  funelim (read_loop f pos counts).
  - match goal with e : f_read _ _ _ = [] |- _ => rename e into Hread end.
    clear Heqcall.
    assert (Hlen : length (f_read f pos CHUNK) = 0%nat) by (by rewrite Hread).
    unfold f_read in Hlen. rewrite f_range_length in Hlen.
    assert (f_size f - pos = 0)%N as -> by (unfold CHUNK in Hlen; lia).
    done.
  - match goal with e : f_read _ _ _ = _ :: _ |- _ => rename e into Hread end.
    clear Heqcall.
    assert (Hlen : N.of_nat (length (b :: chunk)) =
                   N.min CHUNK (f_size f - pos)).
    { rewrite <- Hread. unfold f_read. rewrite f_range_length. lia. }
    rewrite H, Hlen. clear H.
    rewrite <- Hread, <- counter_update_app. f_equal. unfold f_read.
    rewrite (f_range_split f pos (N.min CHUNK (f_size f - pos)) (f_size f - pos))
      by lia.
    do 2 f_equal. lia.
Qed.

Lemma read_loop_whole f : read_loop f 0 ∅ = counter_update ∅ (f_bytes f).
Proof.
  rewrite read_loop_counts. unfold f_bytes. by rewrite N.sub_0_r.
Qed.

Lemma Rsum_perm l1 l2 : l1 ≡ₚ l2 -> Rsum l1 = Rsum l2.
Proof.
  induction 1 as [|x l l' _ IH|x y l|l l' l'' _ IH1 _ IH2]; simpl.
  - done.
  - by rewrite IH.
  - lra.
  - by rewrite IH1.
Qed.

Lemma Rsum_zero {A} (l : list A) : Rsum (map (fun _ => 0%R) l) = 0%R.
Proof. induction l as [|x l IH]; simpl; [done|]. rewrite IH. lra. Qed.

Lemma Rsum_ext {A} (F G : A -> R) l :
  (forall x, x ∈ l -> F x = G x) -> Rsum (map F l) = Rsum (map G l).
Proof.
  induction l as [|x l IH]; intros H; simpl; [done|].
  rewrite (H x) by left. rewrite IH; [done|]. intros y Hy. apply H. by right.
Qed.

(** Changing a summand at one key of a duplicate-free list of keys. *)
Lemma Rsum_point (F G : Z -> R) keys k :
  NoDup keys -> k ∈ keys -> (forall i, i <> k -> F i = G i) ->
  Rsum (map F keys) = (Rsum (map G keys) + (F k - G k))%R.
Proof.
  intros Hnd Hin Hext. induction Hnd as [|i keys Hi Hnd IH]; simpl.
  - by apply elem_of_nil in Hin.
  - apply elem_of_cons in Hin as [<-|Hin].
    + rewrite (Rsum_ext F G keys); [lra|].
      intros j Hj. apply Hext. intros ->. done.
    + rewrite IH by done. rewrite (Hext i); [lra|]. intros ->. done.
Qed.

(** A sum over the values of a counter is a sum over any duplicate-free list
    of keys that covers the counter. *)
Lemma Rsum_counter_values (g : Z -> R) (counts : gmap Z Z) keys :
  NoDup keys ->
  (forall k, is_Some (counts !! k) -> k ∈ keys) ->
  Rsum (map g (counter_values counts)) =
  Rsum (map (fun i => match counts !! i with
                      | Some c => g c
                      | None => 0%R
                      end) keys).
Proof.
  intros Hnd. unfold counter_values.
  induction counts as [|i x m Hi IH] using map_ind; intros Hdom.
  - rewrite map_to_list_empty. simpl. symmetry.
    etransitivity; [|apply (Rsum_zero keys)].
    apply Rsum_ext. intros k _. by rewrite lookup_empty.
  - rewrite (Rsum_perm _ (map g (map snd ((i, x) :: map_to_list m)))).
    2:{ apply Permutation_map, Permutation_map. by apply map_to_list_insert. }
    simpl. rewrite IH.
    2:{ intros k Hk. apply Hdom. rewrite lookup_insert_is_Some'. by right. }
    rewrite (Rsum_point
               (fun j => match <[i:=x]> m !! j with Some c => g c | None => 0%R end)
               (fun j => match m !! j with Some c => g c | None => 0%R end)
               keys i Hnd).
    + rewrite lookup_insert_eq, Hi. lra.
    + apply Hdom. rewrite lookup_insert_eq. by eexists.
    + intros j Hj. by rewrite lookup_insert_ne.
Qed.

Lemma Zsum_plus {A} (F G : A -> Z) l :
  Zsum (map (fun i => F i + G i)%Z l) = (Zsum (map F l) + Zsum (map G l))%Z.
Proof. induction l as [|x l IH]; simpl; lia. Qed.

Lemma Zsum_indicator keys (k : Z) :
  NoDup keys -> k ∈ keys ->
  Zsum (map (fun i => if decide (k = i) then 1 else 0)%Z keys) = 1%Z.
Proof.
  intros Hnd Hin. induction Hnd as [|i keys Hi Hnd IH]; simpl.
  - by apply elem_of_nil in Hin.
  - apply elem_of_cons in Hin as [<-|Hin].
    + rewrite decide_True by done.
      assert (Zsum (map (fun i => if decide (k = i) then 1 else 0)%Z keys) = 0%Z) as ->; [|done].
      clear IH Hnd. induction keys as [|j keys IH]; simpl; [done|].
      rewrite decide_False, IH; [done| |].
      * intros ?. apply Hi. by right.
      * intros <-. apply Hi. left.
    + rewrite decide_False, IH; [done..|]. intros <-. done.
Qed.

(** Every byte is counted under exactly one of the keys [0..255]. *)
Lemma Zsum_occurrences l :
  Zsum (map (fun i => occurrences i l) (range 256)) = Z.of_nat (length l).
Proof.
  induction l as [|b l IH].
  - simpl. unfold occurrences. simpl.
    induction (range 256) as [|? ? IH']; simpl; [done|]. by rewrite IH'.
  - rewrite (map_ext _ (fun i => (if decide (byte_val b = i) then 1 else 0)
                                 + occurrences i l)%Z)
      by (intros; apply occurrences_cons).
    rewrite Zsum_plus, IH, Zsum_indicator.
    + cbn [length]. lia.
    + apply NoDup_seqZ.
    + apply elem_of_range, byte_val_range.
Qed.

Lemma Rsum_quotients (c : Z -> Z) (n : Z) keys :
  Rsum (map (fun i => IZR (c i) / IZR n)%R keys) =
  (IZR (Zsum (map c keys)) / IZR n)%R.
Proof.
  induction keys as [|i keys IH]; simpl.
  - unfold Rdiv. by rewrite Rmult_0_l.
  - rewrite IH, plus_IZR. unfold Rdiv. by rewrite Rmult_plus_distr_r.
Qed.

(* ===================================================================== *)
(** ** The universal pass *)
(* ===================================================================== *)

Lemma py_sum_ok {A} (F : A -> result R) (G : A -> R) l acc :
  (forall x, x ∈ l -> F x = Ok (G x)) ->
  py_sum (map F l) acc = Ok (acc + Rsum (map G l))%R.
Proof.
  revert acc. induction l as [|x l IH]; intros acc H; simpl.
  - f_equal. lra.
  - rewrite (H x) by left. unfold mbind, result_bind.
    rewrite IH by (intros y Hy; apply H; by right). f_equal. lra.
Qed.

Lemma truediv_ok a b : b <> 0%Z -> truediv a b = Ok (IZR a / IZR b)%R.
Proof. intros Hb. unfold truediv. by rewrite (proj2 (Z.eqb_neq b 0) Hb). Qed.

Lemma log2_ok x : (0 < x)%R -> log2 x = Ok (ln x / ln 2)%R.
Proof. intros Hx. unfold log2. by destruct (Rlt_dec 0 x). Qed.

Lemma entropy_term_ok c n :
  (0 < c)%Z -> (0 < n)%Z ->
  (p ← truediv c n; l ← log2 p; mret (p * l)%R) = Ok (plogp (IZR c / IZR n)).
Proof.
  intros Hc Hn. rewrite truediv_ok by lia. unfold mbind, result_bind.
  rewrite log2_ok; [done|].
  apply Rdiv_lt_0_compat; by apply IZR_lt.
Qed.

Lemma counted_lookup l k :
  counter_update ∅ l !! k =
  if decide (0 < occurrences k l)%Z then Some (occurrences k l) else None.
Proof.
  rewrite counter_update_lookup. pose proof (occurrences_nonneg k l).
  unfold dict_get. rewrite lookup_empty. simpl.
  repeat case_decide; try lia; done.
Qed.

Lemma counted_dom l k : is_Some (counter_update ∅ l !! k) -> k ∈ range 256.
Proof.
  rewrite counted_lookup. case_decide as Hk; [|by intros [? ?]].
  intros _. apply elem_of_range.
  destruct (decide (0 <= k < 256)%Z) as [|Hout]; [done|]. exfalso.
  assert (occurrences k l = 0%Z); [|lia].
  unfold occurrences. clear Hk. induction l as [|b l IH]; [done|].
  rewrite filter_cons. pose proof (byte_val_range b).
  rewrite decide_False by lia. done.
Qed.

Lemma f_bytes_length f : Z.of_nat (length (f_bytes f)) = Z.of_N (f_size f).
Proof. unfold f_bytes. rewrite f_range_length. lia. Qed.

(** The entropy sum of the program over the counted bytes of a non-empty
    list is the Shannon entropy of the list. *)
Lemma entropy_sum_ok l :
  (0 < Z.of_nat (length l))%Z ->
  (s ← py_sum (map (fun c => p ← truediv c (Z.of_nat (length l));
                             l ← log2 p;
                             mret (p * l)%R)
                   (counter_values (counter_update ∅ l))) 0;
   mret (- s)%R) = Ok (shannon l).
Proof.
  intros Hn.
  rewrite (py_sum_ok _ (fun c => plogp (IZR c / IZR (Z.of_nat (length l))))).
  - unfold mbind, result_bind, mret, result_ret, shannon. do 2 f_equal.
    rewrite Rplus_0_l.
    rewrite (Rsum_counter_values _ _ (range 256)).
    + apply Rsum_ext. intros i _. rewrite counted_lookup.
      by case_decide.
    + apply NoDup_seqZ.
    + apply counted_dom.
  - intros c Hc. unfold counter_values in Hc.
    apply list_elem_of_In, in_map_iff in Hc as [[k c'] [<- Hc]].
    apply list_elem_of_In, elem_of_map_to_list in Hc.
    rewrite counted_lookup in Hc. case_decide; [|done].
    injection Hc as <-. simpl. by apply entropy_term_ok.
Qed.

Lemma histogram_ok l :
  (0 < Z.of_nat (length l))%Z ->
  dict_comp (fun i => truediv (dict_get (counter_update ∅ l) i 0%Z)
                              (Z.of_nat (length l)))
            (range 256) ∅ = Ok (histogram l).
Proof.
  intros Hn. apply dict_comp_ok. intros i _.
  rewrite truediv_ok by lia. rewrite counter_update_get.
  unfold dict_get at 1. rewrite lookup_empty. done.
Qed.

Lemma get_universal_features_missing p st :
  st_fs st !! p = None ->
  get_universal_features p st = (Ok (0%Z, 0%R, zeros), st_emit (EvStat p) st).
Proof.
  intros H. unfold get_universal_features, try_except.
  rewrite bind_run, getsize_run, H, zero_dist_ok. done.
Qed.

Lemma get_universal_features_empty p st f :
  st_fs st !! p = Some f -> f_size f = 0%N ->
  get_universal_features p st = (Ok (0%Z, 0%R, zeros), st_emit (EvStat p) st).
Proof.
  intros H H0. unfold get_universal_features, try_except.
  rewrite bind_run, getsize_run, H, H0, zero_dist_ok. done.
Qed.

Lemma get_universal_features_unreadable p st f :
  st_fs st !! p = Some f -> f_size f <> 0%N -> f_readable f = false ->
  get_universal_features p st =
  (Ok (0%Z, 0%R, zeros), st_emit (EvOpen p) (st_emit (EvStat p) st)).
Proof.
  intros H H0 Hr. unfold get_universal_features, try_except.
  rewrite bind_run, getsize_run, H.
  rewrite (proj2 (Z.eqb_neq _ 0)) by lia.
  rewrite bind_run, open_file_run. cbn [st_fs st_emit]. rewrite H, Hr.
  rewrite zero_dist_ok. done.
Qed.

Lemma get_universal_features_readable p st f :
  st_fs st !! p = Some f -> f_size f <> 0%N -> f_readable f = true ->
  get_universal_features p st =
  (Ok (Z.of_N (f_size f), shannon (f_bytes f), histogram (f_bytes f)),
   st_emit (EvOpen p) (st_emit (EvStat p) st)).
Proof.
  intros H H0 Hr. unfold get_universal_features, try_except.
  rewrite bind_run, getsize_run, H.
  rewrite (proj2 (Z.eqb_neq _ 0)) by lia.
  rewrite bind_run, open_file_run. cbn [st_fs st_emit]. rewrite H, Hr.
  rewrite (proj2 (Z.ltb_lt 0 _)) by lia.
  rewrite read_loop_whole, <- f_bytes_length.
  assert (Hn : (0 < Z.of_nat (length (f_bytes f)))%Z)
    by (rewrite f_bytes_length; lia).
  rewrite entropy_sum_ok, histogram_ok by done. done.
Qed.

(* ===================================================================== *)
(** ** The type-specific extractors *)
(* ===================================================================== *)

Lemma open_file_readable p st :
  open_file p st =
  (match readable_file st p with
   | Some f => Ok f
   | None => Raise (open_error st p)
   end, st_emit (EvOpen p) st).
Proof.
  rewrite open_file_run. unfold readable_file, open_error.
  destruct (st_fs st !! p) as [f|]; [|done]. by destruct (f_readable f).
Qed.

Lemma emit_all_run es st : emit_all es st = (Ok tt, st_emit_all es st).
Proof.
  revert st. induction es as [|e es IH]; intros st.
  - unfold st_emit_all. rewrite app_nil_r. by destruct st.
  - cbn [emit_all foldr]. fold (emit_all es). rewrite bind_run.
    unfold emit at 1. rewrite IH. unfold st_emit_all, st_emit. cbn.
    by rewrite <- app_assoc.
Qed.

Section Extractors.

Variable w : world.

Lemma get_image_features_run p st :
  get_image_features w p st =
  (Ok (match readable_file st p ≫= w_image w with
       | Some (width, height, bands) => (width, height, bands, 8%Z)
       | None => (0, 0, 0, 0)%Z
       end), st_emit (EvOpen p) st).
Proof.
  unfold get_image_features, try_except.
  rewrite bind_run, open_file_readable.
  destruct (readable_file st p) as [f|]; simpl; [|done].
  by destruct (w_image w f) as [[[? ?] ?]|].
Qed.

Lemma get_audio_features_run p st :
  get_audio_features w p st =
  if PYDUB_AVAILABLE w then
    (Ok (match readable_file st p ≫= w_wav w with
         | Some (len_ms, frame_rate, channels, sample_width) =>
             ((IZR len_ms / 1000)%R, frame_rate, channels, (sample_width * 8)%Z)
         | None => (0%R, 0%Z, 0%Z, 0%Z)
         end),
     match readable_file st p with
     | Some f =>
         st_emit_all (map EvSpawn (w_wav_spawns w f)) (st_emit (EvOpen p) st)
     | None => st_emit (EvOpen p) st
     end)
  else (Ok (0%R, 0%Z, 0%Z, 0%Z), st).
Proof.
  unfold get_audio_features, try_except.
  destruct (PYDUB_AVAILABLE w); simpl; [|done].
  rewrite bind_run, open_file_readable.
  destruct (readable_file st p) as [f|]; simpl; [|done].
  rewrite bind_run, emit_all_run.
  by destruct (w_wav w f) as [[[[? ?] ?] ?]|].
Qed.

Lemma get_pdf_features_run p st :
  get_pdf_features w p st =
  if PYMUPDF_AVAILABLE w then
    (Ok (default 0%Z (readable_file st p ≫= w_pdf w)), st_emit (EvOpen p) st)
  else (Ok 0%Z, st).
Proof.
  unfold get_pdf_features, try_except.
  destruct (PYMUPDF_AVAILABLE w); simpl; [|done].
  rewrite bind_run, open_file_readable.
  destruct (readable_file st p) as [f|]; simpl; [|done].
  by destruct (w_pdf w f).
Qed.

Lemma get_text_features_total p st :
  exists a, get_text_features w p st = (Ok a, st_emit (EvOpen p) st) /\
            (readable_file st p = None -> a = 0%R).
Proof.
  unfold get_text_features, try_except.
  rewrite bind_run, open_file_readable.
  destruct (readable_file st p) as [f|]; simpl; [|by eexists].
  destruct (w_readlines w f) as [|l lines]; [by eexists|].
  unfold lift. rewrite truediv_ok by (cbn [length]; lia).
  eexists. split; [done|]. discriminate.
Qed.

(** Each branch of the [if]/[elif] chain returns, and fills only the
    locals of its own class. *)
Lemma type_features_total ext p st :
  exists t st', type_features w ext p st = (Ok t, st').
Proof.
  unfold type_features.
  destruct (str_in ext ["txt"; "csv"; "json"]).
  { destruct (get_text_features_total p st) as [a [Ha _]].
    rewrite bind_run, Ha. by eexists _, _. }
  destruct (String.eqb ext "pdf").
  { rewrite bind_run, get_pdf_features_run.
    destruct (PYMUPDF_AVAILABLE w); by eexists _, _. }
  destruct (str_in ext ["jpg"; "jpeg"; "png"]).
  { rewrite bind_run, get_image_features_run.
    destruct (readable_file st p ≫= w_image w) as [[[? ?] ?]|];
      by eexists _, _. }
  destruct (String.eqb ext "wav"); [|by eexists _, _].
  rewrite bind_run, get_audio_features_run.
  destruct (PYDUB_AVAILABLE w); [|by eexists _, _].
  destruct (readable_file st p ≫= w_wav w) as [[[[? ?] ?] ?]|];
    by eexists _, _.
Qed.

Lemma get_universal_features_total p st :
  exists fs ent bd st',
    get_universal_features p st = (Ok (fs, ent, bd), st').
Proof.
  destruct (st_fs st !! p) as [f|] eqn:Hf.
  - destruct (decide (f_size f = 0%N)) as [H0|H0].
    + rewrite (get_universal_features_empty p st f) by done. by eexists _, _, _, _.
    + destruct (f_readable f) eqn:Hr.
      * rewrite (get_universal_features_readable p st f) by done.
        by eexists _, _, _, _.
      * rewrite (get_universal_features_unreadable p st f) by done.
        by eexists _, _, _, _.
  - rewrite get_universal_features_missing by done. by eexists _, _, _, _.
Qed.

(** [compile_feature_vector] chains the universal pass and the branch of
    the extension, and lays their results out in a fixed order. *)
Lemma compile_feature_vector_run p st fs ent bd st1 t st2 :
  get_universal_features p st = (Ok (fs, ent, bd), st1) ->
  type_features w
    (PyStr.strip ["."%char] (PyStr.lower (PyStr.splitext p).2)) p st1
    = (Ok t, st2) ->
  exists ins,
    compile_feature_vector w p st =
    (Ok (stat_features fs ent t ++ map (fun i => dict_get bd i 0%R) (range 256),
         ins), st2).
Proof.
  intros Hu Ht. unfold compile_feature_vector.
  rewrite bind_run, Hu. cbn iota beta.
  rewrite bind_run, Ht. by eexists.
Qed.

End Extractors.

Lemma histogram_lookup l i :
  histogram l !! i =
  if decide (i ∈ range 256) then Some (frequency i l) else None.
Proof.
  unfold histogram.
  rewrite (foldl_insert_lookup (fun i => frequency i l)).
  by rewrite lookup_empty.
Qed.

Lemma Rsum_le {A} (F G : A -> R) l :
  (forall x, x ∈ l -> (F x <= G x)%R) ->
  (Rsum (map F l) <= Rsum (map G l))%R.
Proof.
  induction l as [|x l IH]; intros H; simpl; [lra|].
  pose proof (H x ltac:(left)).
  assert (Rsum (map F l) <= Rsum (map G l))%R
    by (apply IH; intros y Hy; apply H; by right).
  lra.
Qed.

Lemma Rsum_sub {A} (F G : A -> R) l :
  Rsum (map (fun x => F x - G x)%R l)
  = (Rsum (map F l) - Rsum (map G l))%R.
Proof.
  induction l as [|x l IH]; [unfold Rsum; simpl; lra|].
  unfold Rsum in *. cbn [map foldr]. lra.
Qed.

Lemma Rsum_scal {A} (F : A -> R) (c : R) l :
  Rsum (map (fun x => c * F x)%R l) = (c * Rsum (map F l))%R.
Proof.
  induction l as [|x l IH]; [unfold Rsum; simpl; lra|].
  unfold Rsum in *. cbn [map foldr]. lra.
Qed.

Lemma Rsum_abs {A} (F : A -> R) l :
  (Rabs (Rsum (map F l)) <= Rsum (map (fun x => Rabs (F x)) l))%R.
Proof.
  induction l as [|x l IH]; [unfold Rsum; simpl; rewrite Rabs_R0; lra|].
  unfold Rsum in *. cbn [map foldr].
  eapply Rle_trans; [apply Rabs_triang|]. lra.
Qed.

Lemma histogram_sum l :
  l <> [] ->
  Rsum (map (fun i => dict_get (histogram l) i 0%R) (range 256)) = 1%R.
Proof.
  intros Hl.
  rewrite (Rsum_ext _ (fun i => IZR (occurrences i l)
                                / IZR (Z.of_nat (length l)))%R).
  - rewrite Rsum_quotients, Zsum_occurrences. apply Rdiv_diag.
    apply not_0_IZR. destruct l; [done|]. cbn [length]. lia.
  - intros i Hi. unfold dict_get. rewrite histogram_lookup.
    by rewrite decide_True.
Qed.

Lemma histogram_value_nonneg l i :
  (0 <= dict_get (histogram l) i 0)%R.
Proof.
  unfold dict_get. rewrite histogram_lookup. case_decide; [|simpl; lra].
  cbn [default]. unfold frequency, Rdiv.
  apply Rmult_le_pos; [apply IZR_le, occurrences_nonneg|].
  destruct (length l) as [|n].
  - change (IZR (Z.of_nat 0)) with 0%R. rewrite Rinv_0. lra.
  - left. apply Rinv_0_lt_compat, IZR_lt. lia.
Qed.

(** Values each rounded with relative error at most [u] sum to 1 within
    [u]. *)
Lemma histogram_rounded_sum l (rnd : R -> R) (u : R) :
  l <> [] ->
  (forall x, (Rabs (rnd x - x) <= u * Rabs x)%R) ->
  (Rabs (Rsum (map (fun i => rnd (dict_get (histogram l) i 0%R)) (range 256))
         - 1) <= u)%R.
Proof.
  intros Hl Hrnd. rewrite <- (histogram_sum l Hl) at 1.
  rewrite <- (Rsum_sub (fun i => rnd (dict_get (histogram l) i 0%R))
                       (fun i => dict_get (histogram l) i 0%R)).
  eapply Rle_trans; [apply Rsum_abs|].
  eapply Rle_trans.
  { apply (Rsum_le _ (fun i => u * dict_get (histogram l) i 0%R)%R).
    intros i _. cbv beta.
    pose proof (Hrnd (dict_get (histogram l) i 0%R)) as Hi.
    by rewrite (Rabs_pos_eq _ (histogram_value_nonneg l i)) in Hi. }
  rewrite Rsum_scal, histogram_sum by done. lra.
Qed.

Lemma occurrences_constant b l i :
  (forall x, x ∈ l -> x = b) ->
  occurrences i l =
  if decide (byte_val b = i) then Z.of_nat (length l) else 0%Z.
Proof.
  intros Hall. induction l as [|x l IH].
  - by case_decide.
  - rewrite occurrences_cons, IH by (intros y Hy; apply Hall; by right).
    rewrite (Hall x) by left. case_decide; cbn [length]; lia.
Qed.

Lemma plogp_one : plogp 1 = 0%R.
Proof. unfold plogp. rewrite ln_1. unfold Rdiv. by rewrite Rmult_0_l, Rmult_0_r. Qed.

(** A list that repeats one byte has entropy zero. *)
Lemma shannon_constant b l :
  (forall x, x ∈ l -> x = b) -> shannon l = 0%R.
Proof.
  intros Hall. unfold shannon.
  rewrite (Rsum_ext _ (fun _ => 0%R)); [rewrite Rsum_zero; lra|].
  intros i _. case_decide as Hpos; [|done].
  unfold frequency. rewrite (occurrences_constant b l i Hall) in *.
  case_decide; [|lia].
  rewrite Rdiv_diag; [apply plogp_one|]. apply not_0_IZR. lia.
Qed.

Lemma f_bytes_elem f x :
  x ∈ f_bytes f -> exists i, (i < f_size f)%N /\ x = f_at f i.
Proof.
  unfold f_bytes, f_range. intros Hx.
  apply list_elem_of_In, in_map_iff in Hx as [i [<- Hi]].
  apply in_seq in Hi. exists (N.of_nat i). split; [lia|done].
Qed.

Section FeatureTheorems.

Variable w : world.

Lemma type_features_class ext p st t st' :
  type_features w ext p st = (Ok t, st') ->
  match class_of_ext ext with
  | TextExt =>
      get_text_features w p st = (Ok (ts_all t), st') /\
      t = TypeStats (ts_all t) 0 0 0 0 0 0 0 0 0
  | PdfExt =>
      get_pdf_features w p st = (Ok (ts_pc t), st') /\
      t = TypeStats 0 (ts_pc t) 0 0 0 0 0 0 0 0
  | ImageExt =>
      get_image_features w p st =
        (Ok (ts_w t, ts_h t, ts_ci t, ts_bdi t), st') /\
      t = TypeStats 0 0 (ts_w t) (ts_h t) (ts_ci t) (ts_bdi t) 0 0 0 0
  | AudioExt =>
      get_audio_features w p st =
        (Ok (ts_ds t, ts_sr t, ts_ca t, ts_bda t), st') /\
      t = TypeStats 0 0 0 0 0 0 (ts_ds t) (ts_sr t) (ts_ca t) (ts_bda t)
  | OtherExt => t = no_stats /\ st' = st
  end.
Proof.
  unfold type_features, class_of_ext.
  destruct (str_in ext ["txt"; "csv"; "json"]).
  { rewrite bind_run.
    destruct (get_text_features w p st) as [[a|e] s]; [|discriminate].
    intros [= <- <-]. done. }
  destruct (String.eqb ext "pdf").
  { rewrite bind_run.
    destruct (get_pdf_features w p st) as [[a|e] s]; [|discriminate].
    intros [= <- <-]. done. }
  destruct (str_in ext ["jpg"; "jpeg"; "png"]).
  { rewrite bind_run.
    destruct (get_image_features w p st) as [[[[[a b] c] d]|e] s];
      [|discriminate].
    intros [= <- <-]. done. }
  destruct (String.eqb ext "wav").
  { rewrite bind_run.
    destruct (get_audio_features w p st) as [[[[[a b] c] d]|e] s];
      [|discriminate].
    intros [= <- <-]. done. }
  intros [= <- <-]. done.
Qed.

End FeatureTheorems.

Lemma lookup_st_with p f : st_fs (st_with p f) !! p = Some f.
Proof. apply lookup_singleton_eq. Qed.

(* ===================================================================== *)
(** ** Theorems on feature extraction *)
(* ===================================================================== *)




(** C7. The entropy returned by [get_universal_features] is 0 for an empty
    file and for a non-empty file whose bytes are all equal; for a non-empty
    readable file it is minus the sum of [p_i * log2(p_i)] over the byte
    values that occur, the other byte values contributing nothing. *)
Theorem entropy_zero_cases p st f :
  st_fs st !! p = Some f ->
  exists fs ent bd st',
    get_universal_features p st = (Ok (fs, ent, bd), st') /\
    (f_size f = 0%N -> ent = 0%R) /\
    (forall b, f_size f <> 0%N ->
               (forall i, (i < f_size f)%N -> f_at f i = b) -> ent = 0%R) /\
    (f_size f <> 0%N -> f_readable f = true ->
     ent = (- Rsum (map (fun i =>
                     if decide (0 < occurrences i (f_bytes f))%Z
                     then plogp (IZR (occurrences i (f_bytes f))
                                 / IZR (Z.of_N (f_size f)))
                     else 0%R) (range 256)))%R).
Proof.
  intros Hf.
  destruct (decide (f_size f = 0%N)) as [H0|H0].
  - rewrite (get_universal_features_empty p st f) by done.
    eexists _, _, _, _. split; [done|]. split; [done|]. split; done.
  - destruct (f_readable f) eqn:Hr.
    + rewrite (get_universal_features_readable p st f) by done.
      eexists _, _, _, _. split; [done|]. split; [done|]. split.
      * intros b _ Hall. apply (shannon_constant b).
        intros x Hx. apply f_bytes_elem in Hx as [i [Hi ->]]. by apply Hall.
      * intros _ _. unfold shannon, frequency. by rewrite f_bytes_length.
    + rewrite (get_universal_features_unreadable p st f) by done.
      eexists _, _, _, _. split; [done|]. split; [done|]. split; done.
Qed.

Lemma entropy_zero_cases_witness :
  exists fs ent bd st',
    get_universal_features "a.bin" (st_with "a.bin" file_aaa)
      = (Ok (fs, ent, bd), st') /\
    (f_size file_aaa = 0%N -> ent = 0%R) /\
    (forall b, f_size file_aaa <> 0%N ->
               (forall i, (i < f_size file_aaa)%N -> f_at file_aaa i = b) ->
               ent = 0%R) /\
    (f_size file_aaa <> 0%N -> f_readable file_aaa = true ->
     ent = (- Rsum (map (fun i =>
                     if decide (0 < occurrences i (f_bytes file_aaa))%Z
                     then plogp (IZR (occurrences i (f_bytes file_aaa))
                                 / IZR (Z.of_N (f_size file_aaa)))
                     else 0%R) (range 256)))%R).
Proof.
  apply (entropy_zero_cases "a.bin" (st_with "a.bin" file_aaa) file_aaa).
  apply lookup_st_with.
Defined.

(** C8. Feature extraction never raises. The universal pass returns, and
    returns size 0, entropy 0 and the all-zero histogram when the file cannot
    be read; each type-specific extractor returns, and returns zeros when its
    optional library is unavailable or when reading or parsing fails; so
    [compile_feature_vector] always returns a vector and insights. *)
Theorem extraction_never_raises w p st :
  (exists v st', get_universal_features p st = (Ok v, st')) /\
  (readable_file st p = None ->
   exists bd st', get_universal_features p st = (Ok (0%Z, 0%R, bd), st') /\
                  forall i, (0 <= i < 256)%Z -> bd !! i = Some 0%R) /\
  (exists v st', get_image_features w p st = (Ok v, st')) /\
  (readable_file st p ≫= w_image w = None ->
   exists st', get_image_features w p st = (Ok (0, 0, 0, 0)%Z, st')) /\
  (exists v st', get_audio_features w p st = (Ok v, st')) /\
  (PYDUB_AVAILABLE w = false \/ readable_file st p ≫= w_wav w = None ->
   exists st', get_audio_features w p st = (Ok (0%R, 0%Z, 0%Z, 0%Z), st')) /\
  (exists v st', get_text_features w p st = (Ok v, st')) /\
  (readable_file st p = None ->
   exists st', get_text_features w p st = (Ok 0%R, st')) /\
  (exists v st', get_pdf_features w p st = (Ok v, st')) /\
  (PYMUPDF_AVAILABLE w = false \/ readable_file st p ≫= w_pdf w = None ->
   exists st', get_pdf_features w p st = (Ok 0%Z, st')) /\
  (exists vec ins st', compile_feature_vector w p st = (Ok (vec, ins), st')).
Proof.
  repeat apply conj.
  - destruct (get_universal_features_total p st) as (fs & ent & bd & st' & H).
    by eexists _, _.
  - unfold readable_file. intros Hr.
    destruct (st_fs st !! p) as [f|] eqn:Hf.
    + destruct (f_readable f) eqn:Hrd; [discriminate|].
      destruct (decide (f_size f = 0%N)) as [H0|H0].
      * rewrite (get_universal_features_empty p st f) by done.
        eexists _, _. split; [done|]. apply zeros_lookup.
      * rewrite (get_universal_features_unreadable p st f) by done.
        eexists _, _. split; [done|]. apply zeros_lookup.
    + rewrite get_universal_features_missing by done.
      eexists _, _. split; [done|]. apply zeros_lookup.
  - rewrite get_image_features_run. by eexists _, _.
  - intros H. rewrite get_image_features_run, H. by eexists.
  - rewrite get_audio_features_run.
    destruct (PYDUB_AVAILABLE w); by eexists _, _.
  - intros H. rewrite get_audio_features_run.
    destruct (PYDUB_AVAILABLE w); [|by eexists].
    destruct H as [H|H]; [discriminate|]. rewrite H. by eexists.
  - destruct (get_text_features_total w p st) as [a [Ha _]]. by eexists _, _.
  - intros H. destruct (get_text_features_total w p st) as [a [Ha Hz]].
    rewrite Ha, (Hz H). by eexists.
  - rewrite get_pdf_features_run.
    destruct (PYMUPDF_AVAILABLE w); by eexists _, _.
  - intros H. rewrite get_pdf_features_run.
    destruct (PYMUPDF_AVAILABLE w); [|by eexists].
    destruct H as [H|H]; [discriminate|]. rewrite H. by eexists.
  - destruct (get_universal_features_total p st) as (fs & ent & bd & st1 & Hu).
    destruct (type_features_total w (bare_ext p) p st1) as (t & st2 & Ht).
    destruct (compile_feature_vector_run w p st _ _ _ _ _ _ Hu Ht) as [ins Hc].
    by eexists _, _, _.
Qed.

Lemma extraction_never_raises_witness :
  (exists bd st',
     get_universal_features "x.png" st_empty = (Ok (0%Z, 0%R, bd), st') /\
     forall i, (0 <= i < 256)%Z -> bd !! i = Some 0%R) /\
  (exists st',
     get_image_features bare_world "x.png" st_empty
     = (Ok (0, 0, 0, 0)%Z, st')) /\
  (exists vec ins st',
     compile_feature_vector bare_world "x.png" st_empty = (Ok (vec, ins), st')).
Proof.
  destruct (extraction_never_raises bare_world "x.png" st_empty)
    as (_ & Hu & _ & Hi & _ & _ & _ & _ & _ & _ & Hc).
  split; [apply Hu; reflexivity|]. split; [apply Hi; reflexivity|exact Hc].
Defined.

(** C4. The vector built by [compile_feature_vector] has length 268: the
    size and the entropy of the universal pass, the text, PDF, image and
    audio statistics in that order, then the byte frequencies of the keys
    [0..255]; a type-specific position that does not belong to the class of
    the file's extension holds 0. *)
Theorem feature_vector_layout w p st :
  exists fs ent bd st1 t st2 ins,
    get_universal_features p st = (Ok (fs, ent, bd), st1) /\
    type_features w (bare_ext p) p st1 = (Ok t, st2) /\
    let vec :=
      [IZR fs; ent; ts_all t; IZR (ts_pc t);
       IZR (ts_w t); IZR (ts_h t); IZR (ts_ci t); IZR (ts_bdi t);
       ts_ds t; IZR (ts_sr t); IZR (ts_ca t); IZR (ts_bda t)]
      ++ map (fun i => dict_get bd i 0%R) (seqZ 0 256) in
    compile_feature_vector w p st = (Ok (vec, ins), st2) /\
    length vec = 268%nat /\
    (forall i, (i < 256)%nat ->
       nth (12 + i) vec 0%R = dict_get bd (Z.of_nat i) 0%R) /\
    match class_of_ext (bare_ext p) with
    | TextExt => get_text_features w p st1 = (Ok (ts_all t), st2)
    | PdfExt => get_pdf_features w p st1 = (Ok (ts_pc t), st2)
    | ImageExt =>
        get_image_features w p st1 =
          (Ok (ts_w t, ts_h t, ts_ci t, ts_bdi t), st2)
    | AudioExt =>
        get_audio_features w p st1 =
          (Ok (ts_ds t, ts_sr t, ts_ca t, ts_bda t), st2)
    | OtherExt => st2 = st1
    end /\
    (forall i c, slot_class i = Some c -> c <> class_of_ext (bare_ext p) ->
       nth i vec 0%R = 0%R).
Proof.
  destruct (get_universal_features_total p st) as (fs & ent & bd & st1 & Hu).
  destruct (type_features_total w (bare_ext p) p st1) as (t & st2 & Ht).
  destruct (compile_feature_vector_run w p st _ _ _ _ _ _ Hu Ht) as [ins Hc].
  exists fs, ent, bd, st1, t, st2, ins.
  split; [done|]. split; [done|]. cbv zeta. split; [exact Hc|].
  split; [by rewrite length_app, length_map, length_seqZ|].
  split.
  { intros i Hi. rewrite app_nth2 by (cbn [length]; lia).
    cbn [length]. replace (12 + i - 12)%nat with i by lia.
    rewrite (nth_indep _ 0%R (dict_get bd 0 0%R))
      by (rewrite length_map, length_seqZ; lia).
    rewrite (map_nth (fun i => dict_get bd i 0%R)). f_equal.
    apply (nth_lookup_Some _ _ _ _). apply lookup_seqZ. lia. }
  pose proof (type_features_class w _ _ _ _ _ Ht) as Hclass.
  assert (Hzero : forall u : type_stats,
    match class_of_ext (bare_ext p) with
    | TextExt => u = TypeStats (ts_all u) 0 0 0 0 0 0 0 0 0
    | PdfExt => u = TypeStats 0 (ts_pc u) 0 0 0 0 0 0 0 0
    | ImageExt =>
        u = TypeStats 0 0 (ts_w u) (ts_h u) (ts_ci u) (ts_bdi u) 0 0 0 0
    | AudioExt =>
        u = TypeStats 0 0 0 0 0 0 (ts_ds u) (ts_sr u) (ts_ca u) (ts_bda u)
    | OtherExt => u = no_stats
    end ->
    forall i c, slot_class i = Some c -> c <> class_of_ext (bare_ext p) ->
      nth i ([IZR fs; ent; ts_all u; IZR (ts_pc u);
              IZR (ts_w u); IZR (ts_h u); IZR (ts_ci u); IZR (ts_bdi u);
              ts_ds u; IZR (ts_sr u); IZR (ts_ca u); IZR (ts_bda u)]
             ++ map (fun i => dict_get bd i 0%R) (seqZ 0 256)) 0%R = 0%R).
  { intros u Hu' i c Hslot Hne.
    destruct (class_of_ext (bare_ext p)); rewrite Hu'.
    all: do 12 (destruct i as [|i]; [simpl in Hslot; try discriminate;
                                     injection Hslot as <-; done|]).
    all: discriminate. }
  destruct (class_of_ext (bare_ext p)); destruct Hclass as [Hrun Heq].
  all: split; [done|]; apply Hzero; done.
Qed.

Lemma feature_vector_layout_witness :
  exists vec ins st',
    compile_feature_vector bare_world "a.txt" (st_with "a.txt" file_aab)
    = (Ok (vec, ins), st') /\
    length vec = 268%nat /\
    nth 3 vec 0%R = 0%R /\ nth 4 vec 0%R = 0%R /\ nth 11 vec 0%R = 0%R.
Proof.
  destruct (feature_vector_layout bare_world "a.txt"
              (st_with "a.txt" file_aab))
    as (fs & ent & bd & st1 & t & st2 & ins & _ & _ & Hc & Hlen & _ & _ & Hz).
  eexists _, _, _. split; [exact Hc|]. split; [exact Hlen|].
  split; [|split].
  - apply (Hz 3%nat PdfExt); [reflexivity|discriminate].
  - apply (Hz 4%nat ImageExt); [reflexivity|discriminate].
  - apply (Hz 11%nat AudioExt); [reflexivity|discriminate].
Defined.

(* ===================================================================== *)
(** ** Validation in [get_prediction] *)
(* ===================================================================== *)

Lemma str_in_spec x l : str_in x l = true <-> x ∈ l.
Proof.
  unfold str_in. rewrite existsb_exists. split.
  - intros [y [Hy Heq]]. apply String.eqb_eq in Heq as ->.
    by apply list_elem_of_In.
  - intros Hx. exists x. split; [by apply list_elem_of_In|apply String.eqb_refl].
Qed.

Lemma str_in_false x l : str_in x l = false <-> x ∉ l.
Proof.
  rewrite <- str_in_spec. by destruct (str_in x l).
Qed.

Lemma get_prediction_run w p m st :
  get_prediction w p m st =
  match st_fs st !! p with
  | None => (Raise (no_such_file p), st_sized p st)
  | Some f =>
      let ext := PyStr.lower (PyStr.splitext p).2 in
      if negb (str_in ext allowed_extensions) then
        (Raise (ValueError ("Invalid file type '" +:+ ext +:+ "'.")),
         st_sized p st)
      else if (MAX_SIZE <? Z.of_N (f_size f))%Z then
        (Raise (ValueError "File is too large for this demo (max 50 MB)."),
         st_sized p st)
      else
        (features ← compile_feature_vector w p;
         predict_from_features w m (w_clock w (st_ticks st)) features)
          (st_sized p st)
  end.
Proof.
  unfold get_prediction. rewrite bind_run. unfold time_time.
  rewrite bind_run, getsize_run. cbn [st_fs st_tick].
  destruct (st_fs st !! p) as [f|]; [|done].
  cbv zeta. destruct (negb _); [done|]. by destruct (_ <? _)%Z.
Qed.

(** C10, as stated, fails: for a path with a NUL character, which names no
    file, the size lookup raises [ValueError], the class of the two
    validation errors, and not a file-system error. *)
Lemma get_prediction_nul_path :
  st_fs st_empty !! nul_path = None /\
  get_prediction bare_world nul_path "Baseline MLP" st_empty
  = (Raise (ValueError "embedded null byte"), st_sized nul_path st_empty).
Proof.
  split; [apply lookup_empty|].
  rewrite get_prediction_run.
  change (st_fs st_empty) with (∅ : gmap string file).
  by rewrite lookup_empty.
Qed.

(** C10, amended. For a path that is not an existing file [get_prediction]
    raises the error of the size lookup, whatever the extension, before any
    validation of the extension or of the size, and only the clock and the
    size lookup have been called: the file-system error [OSError] when the
    path has no NUL character, and [ValueError] with the message of the
    embedded NUL when it has one. *)
Theorem get_prediction_missing_file w p m st :
  st_fs st !! p = None ->
  (has_char "000" p = false ->
   get_prediction w p m st = (Raise OSError, st_sized p st)) /\
  (has_char "000" p = true ->
   get_prediction w p m st =
   (Raise (ValueError "embedded null byte"), st_sized p st)).
Proof.
  intros H. rewrite get_prediction_run, H. unfold no_such_file.
  split; by intros ->.
Qed.

Lemma get_prediction_missing_file_witness :
  get_prediction bare_world "x.exe" "Baseline MLP" st_empty
  = (Raise OSError, st_sized "x.exe" st_empty).
Proof.
  apply (get_prediction_missing_file bare_world "x.exe" "Baseline MLP"
           st_empty (lookup_empty _)).
  reflexivity.
Defined.

(** C2. For an existing file [get_prediction] raises [ValueError] when the
    lower-cased extension is not in the allow-list, and when it is but the
    file is larger than 52,428,800 bytes; in both cases only the clock and
    the size of the file have been read. With an allowed extension and a size
    of at most 52,428,800 bytes, so also exactly that, the run continues with
    feature extraction and inference. *)
Theorem get_prediction_validation w p m st f :
  st_fs st !! p = Some f ->
  let ext := PyStr.lower (PyStr.splitext p).2 in
  (ext ∉ allowed_extensions ->
   get_prediction w p m st =
   (Raise (ValueError ("Invalid file type '" +:+ ext +:+ "'.")),
    st_sized p st)) /\
  (ext ∈ allowed_extensions -> (52428800 < Z.of_N (f_size f))%Z ->
   get_prediction w p m st =
   (Raise (ValueError "File is too large for this demo (max 50 MB)."),
    st_sized p st)) /\
  (ext ∈ allowed_extensions -> (Z.of_N (f_size f) <= 52428800)%Z ->
   get_prediction w p m st =
   (features ← compile_feature_vector w p;
    predict_from_features w m (w_clock w (st_ticks st)) features)
     (st_sized p st)).
Proof.
  intros Hf ext. rewrite get_prediction_run, Hf. cbv zeta. fold ext.
  repeat split.
  - intros Hext. apply str_in_false in Hext. by rewrite Hext.
  - intros Hext Hsz. apply str_in_spec in Hext. rewrite Hext. cbn [negb].
    by rewrite (proj2 (Z.ltb_lt MAX_SIZE _)) by (unfold MAX_SIZE; lia).
  - intros Hext Hsz. apply str_in_spec in Hext. rewrite Hext. cbn [negb].
    by rewrite (proj2 (Z.ltb_ge MAX_SIZE _)) by (unfold MAX_SIZE; lia).
Qed.

Lemma get_prediction_validation_witness :
  get_prediction bare_world "x.exe" "Baseline MLP" (st_with "x.exe" file_aab)
  = (Raise (ValueError "Invalid file type '.exe'."),
     st_sized "x.exe" (st_with "x.exe" file_aab)) /\
  get_prediction bare_world "x.txt" "Baseline MLP"
    (st_with "x.txt" file_over_50MiB)
  = (Raise (ValueError "File is too large for this demo (max 50 MB)."),
     st_sized "x.txt" (st_with "x.txt" file_over_50MiB)) /\
  get_prediction bare_world "x.TXT" "Baseline MLP" (st_with "x.TXT" file_50MiB)
  = (features ← compile_feature_vector bare_world "x.TXT";
     predict_from_features bare_world "Baseline MLP"
       (w_clock bare_world (st_ticks (st_with "x.TXT" file_50MiB))) features)
      (st_sized "x.TXT" (st_with "x.TXT" file_50MiB)).
Proof.
  split; [|split].
  - pose proof (get_prediction_validation bare_world "x.exe" "Baseline MLP"
                  (st_with "x.exe" file_aab) file_aab
                  (lookup_st_with _ _)) as H.
    cbv zeta in H. destruct H as (H & _ & _). apply H.
    apply str_in_false. reflexivity.
  - pose proof (get_prediction_validation bare_world "x.txt" "Baseline MLP"
                  (st_with "x.txt" file_over_50MiB) file_over_50MiB
                  (lookup_st_with _ _))
      as H.
    cbv zeta in H. destruct H as (_ & H & _). apply H.
    + apply str_in_spec. reflexivity.
    + reflexivity.
  - pose proof (get_prediction_validation bare_world "x.TXT" "Baseline MLP"
                  (st_with "x.TXT" file_50MiB) file_50MiB
                  (lookup_st_with _ _)) as H.
    cbv zeta in H. destruct H as (_ & _ & H). apply H.
    + apply str_in_spec. reflexivity.
    + cbn. lia.
Defined.

(* ===================================================================== *)
(** ** The benchmark runner *)
(* ===================================================================== *)

Section Runner.

Variable w : world.

Lemma which_run c st :
  which w c st =
  (match c with Some x => Ok (w_which w x) | None => Raise TypeError end,
   st_emit (EvWhich c) st).
Proof. unfold which. munfold. by destruct c. Qed.

Lemma copy_in_run src dst tmp st :
  copy_in w src dst tmp st =
  (match readable_file st src with
   | Some f =>
       match w_copy w dst f with
       | Copied => Ok (<[dst := f]> tmp)
       | _ => Raise OSError
       end
   | None => Raise (open_error st src)
   end, st_emit (EvCopy src dst) st).
Proof.
  unfold copy_in, readable_file, open_error. munfold. simpl.
  destruct (st_fs st !! src) as [f|]; [|done].
  destruct (f_readable f); [|done]. by destruct (w_copy w dst f).
Qed.

Lemma mkdtemp_run st :
  mkdtemp w st =
  (if w_mkdtemp_ok w (st_trace st) then Ok (w_tempdir w) else Raise OSError,
   st_emit EvMkdtemp st).
Proof.
  unfold mkdtemp, get_trace. munfold.
  by destruct (w_mkdtemp_ok w (st_trace st)).
Qed.

Lemma cleanup_run temp_dir st :
  cleanup w temp_dir st =
  (if w_cleanup_ok w (st_trace st) then Ok tt else Raise OSError,
   st_emit (EvRmtree temp_dir) st).
Proof.
  unfold cleanup, get_trace. munfold.
  by destruct (w_cleanup_ok w (st_trace st)).
Qed.

Lemma getsize_tmp_run tmp path st :
  getsize_tmp tmp path st =
  (match tmp !! path with
   | Some f => Ok (Z.of_N (f_size f))
   | None => Raise OSError
   end, st_emit (EvStat path) st).
Proof. unfold getsize_tmp. munfold. by destruct (tmp !! path). Qed.

Lemma subprocess_run_run cmd tmp st :
  subprocess_run w cmd tmp st =
  (match w_exec w cmd tmp with
   | (Exited 0, tmp') => Ok tmp'
   | (Exited code, _) => Raise (CalledProcessError code)
   | (TimedOut, _) => Raise TimeoutExpired
   | (SpawnFailed, _) => Raise OSError
   end, st_emit (EvSpawn cmd) st).
Proof.
  unfold subprocess_run. munfold.
  by destruct (w_exec w cmd tmp) as [[[| |]| |] ?].
Qed.

Lemma copy_out_run tmp src dst st :
  copy_out w tmp src dst st =
  match tmp !! src with
  | Some f =>
      if f_readable f then
        match w_copy w dst f with
        | Copied => (Ok tt, st_put dst f (st_emit (EvCopy src dst) st))
        | Truncated partial =>
            (Raise OSError, st_put dst partial (st_emit (EvCopy src dst) st))
        | Refused => (Raise OSError, st_emit (EvCopy src dst) st)
        end
      else (Raise OSError, st_emit (EvCopy src dst) st)
  | None => (Raise OSError, st_emit (EvCopy src dst) st)
  end.
Proof.
  unfold copy_out. munfold.
  destruct (tmp !! src) as [f|]; [|done].
  destruct (f_readable f); [|done]. by destruct (w_copy w dst f).
Qed.

Lemma compressor_paths_dom tool c :
  COMPRESSOR_PATHS !! tool = Some c -> tool ∈ all_tools.
Proof.
  unfold COMPRESSOR_PATHS, all_tools. cbn [list_to_map foldr uncurry fst snd].
  rewrite !lookup_insert_Some, lookup_empty, !elem_of_cons. intros H.
  repeat (destruct H as [[<- _]|[_ H]]; [tauto|]). done.
Qed.

Lemma compressor_paths_total tool :
  tool ∈ all_tools -> is_Some (COMPRESSOR_PATHS !! tool).
Proof.
  unfold all_tools. rewrite !elem_of_cons, elem_of_nil.
  intros [->|[->|[->|[->|[->|[->|[]]]]]]]; eexists; reflexivity.
Qed.

(** The [if]/[elif] chains of the [try] block implement the table. *)
Lemma run_tool_plan tool exe td base tin tmp :
  tool ∈ all_tools ->
  exists out cmd,
    tool_plan tool exe td base tin = Some (out, cmd) /\
    run_tool w tool exe td base tin tmp =
    (tmp' ← subprocess_run w cmd tmp; mret (out, tmp')).
Proof.
  unfold all_tools. rewrite !elem_of_cons, elem_of_nil.
  intros [->|[->|[->|[->|[->|[->|[]]]]]]]; by eexists _, _.
Qed.

Lemma ratio_of_ok original_size comp_size :
  ratio_of original_size comp_size =
  Ok (if (0 <? comp_size)%Z then IZR original_size / IZR comp_size else 1)%R.
Proof.
  unfold ratio_of. destruct (0 <? comp_size)%Z eqn:H; [|done].
  apply Z.ltb_lt in H. apply truediv_ok. lia.
Qed.

(** The [try] block either raises, in which case the tool did not produce
    an output and the file system is as it was but for a final path that
    the copy may have truncated; or the tool produced an output, which is
    then the content of the final path, and the ratio is that of the two
    sizes. *)
Lemma compression_attempt_cases tool p original_size start_time exe st res st' :
  tool ∈ all_tools ->
  compression_attempt w tool p original_size start_time exe (w_tempdir w) st
    = (res, st') ->
  (exists e, res = Raise e /\
             (st_fs st' = st_fs st \/
              exists partial,
                st_fs st' = <[final_path tool := partial]> (st_fs st)) /\
             forall f g, readable_file st p = Some f ->
                         ~ produces w tool exe p f g) \/
  (exists f g r,
     readable_file st p = Some f /\
     produces w tool exe p f g /\
     ratio_of original_size (Z.of_N (f_size g)) = Ok r /\
     res = Ok (r, (w_clock w (st_ticks st) - start_time)%R,
               Some (final_path tool)) /\
     st_fs st' = <[final_path tool := g]> (st_fs st)).
Proof.
  intros Htool. unfold compression_attempt.
  rewrite bind_run, copy_in_run.
  destruct (readable_file st p) as [f|] eqn:Hf;
    [|intros [= <- <-]; left; eexists; split; [done|]; split; [by left|done]].
  destruct (run_tool_plan tool exe (w_tempdir w) (PyStr.basename p)
              (PyStr.join (w_tempdir w) (PyStr.basename p))
              (<[PyStr.join (w_tempdir w) (PyStr.basename p) := f]> ∅) Htool)
    as (out & cmd & Hplan & Htool_run).
  assert (Hno : forall (P : file -> Prop),
    (forall tmp' g,
       w_copy w (PyStr.join (w_tempdir w) (PyStr.basename p)) f = Copied ->
       w_exec w cmd {[PyStr.join (w_tempdir w) (PyStr.basename p) := f]}
         = (Exited 0, tmp') ->
       tmp' !! out = Some g -> f_readable g = true ->
       w_copy w (final_path tool) g = Copied -> P g) ->
    forall f0 g, Some f = Some f0 -> produces w tool exe p f0 g -> P g).
  { intros P HP f0 g [= <-]
      (out0 & cmd0 & tmp0 & Hp0 & Hc0 & He0 & Ho0 & Hr0 & Hw0).
    rewrite Hplan in Hp0. injection Hp0 as <- <-. by apply (HP tmp0). }
  destruct (w_copy w (PyStr.join (w_tempdir w) (PyStr.basename p)) f)
    eqn:Hcin;
    try (intros [= <- <-]; left; eexists; split; [done|]; split; [by left|];
         refine (Hno (fun _ => False) _); intros ? ? [=]).
  rewrite Htool_run, insert_empty.
  rewrite !bind_run, subprocess_run_run.
  destruct (w_exec w cmd _) as [status tmp'] eqn:Hexec.
  destruct status as [[| |]| |];
    try (intros [= <- <-]; left; eexists; split; [done|]; split; [by left|];
         refine (Hno (fun _ => False) _); intros ? ? _ [=]).
  rewrite ret_run. cbn beta iota zeta. rewrite bind_run, getsize_tmp_run.
  destruct (tmp' !! out) as [g|] eqn:Hout.
  2:{ intros [= <- <-]. left. eexists. split; [done|]. split; [by left|].
      refine (Hno (fun _ => False) _). intros ? ? _ [= <-]. by rewrite Hout. }
  rewrite bind_run. unfold lift.
  rewrite ratio_of_ok, bind_run, copy_out_run, Hout.
  fold (final_path tool).
  destruct (f_readable g) eqn:Hrg.
  2:{ intros [= <- <-]. left. eexists. split; [done|]. split; [by left|].
      refine (Hno (fun _ => False) _). intros ? g' _ [= <-]. rewrite Hout.
      intros [= <-] Hr. by rewrite Hr in Hrg. }
  destruct (w_copy w (final_path tool) g) as [|partial|] eqn:Hcout.
  - rewrite bind_run. unfold time_time. rewrite ret_run. intros [= <- <-].
    right. exists f, g. eexists. split; [done|]. split.
    { by exists out, cmd, tmp'. }
    split; [apply ratio_of_ok|]. done.
  - intros [= <- <-]. left. eexists. split; [done|].
    split; [right; by exists partial|].
    refine (Hno (fun _ => False) _). intros ? g' _ [= <-]. rewrite Hout.
    intros [= <-] _ Hw. by rewrite Hw in Hcout.
  - intros [= <- <-]. left. eexists. split; [done|]. split; [by left|].
    refine (Hno (fun _ => False) _). intros ? g' _ [= <-]. rewrite Hout.
    intros [= <-] _ Hw. by rewrite Hw in Hcout.
Qed.

(** At most one output is produced. *)
Lemma produces_functional tool exe p f g1 g2 :
  produces w tool exe p f g1 -> produces w tool exe p f g2 -> g1 = g2.
Proof.
  intros (o1 & c1 & t1 & Hp1 & _ & He1 & Ho1 & _)
         (o2 & c2 & t2 & Hp2 & _ & He2 & Ho2 & _).
  rewrite Hp1 in Hp2. injection Hp2 as <- <-.
  rewrite He1 in He2. injection He2 as <-.
  rewrite Ho1 in Ho2. by injection Ho2.
Qed.

End Runner.

Section RunSingle.

Variable w : world.

Lemma run_single_compression_inv tool p st res st' :
  run_single_compression w tool p st = (res, st') ->
  match st_fs st !! p with
  | None => res = Raise (no_such_file p) /\ st' = st_sized p st
  | Some f =>
      if (f_size f =? 0)%N then
        res = Ok (1%R, 0%R, None) /\ st' = st_sized p st
      else
        match COMPRESSOR_PATHS !! tool with
        | None =>
            res = Raise TypeError /\
            st' = st_emit (EvWhich None) (st_sized p st)
        | Some c =>
            match w_which w c with
            | None | Some EmptyString =>
                res = Ok (1%R, 0%R, None) /\
                st' = st_emit (EvWhich (Some c)) (st_sized p st)
            | Some exe =>
                if w_mkdtemp_ok w
                     (st_trace (st_emit (EvWhich (Some c)) (st_sized p st)))
                then
                  exists returned st1,
                    st' = st_emit (EvRmtree (w_tempdir w)) st1 /\
                    res = (if w_cleanup_ok w (st_trace st1)
                           then Ok returned else Raise OSError) /\
                    ((exists t,
                        returned = (1%R, t, None) /\
                        (st_fs st1 = st_fs st \/
                         exists partial,
                           st_fs st1
                           = <[final_path tool := partial]> (st_fs st)) /\
                        forall g, f_readable f = true ->
                                  ~ produces w tool exe p f g) \/
                     (exists g r t,
                        f_readable f = true /\
                        produces w tool exe p f g /\
                        ratio_of (Z.of_N (f_size f)) (Z.of_N (f_size g))
                          = Ok r /\
                        returned = (r, t, Some (final_path tool)) /\
                        st_fs st1 = <[final_path tool := g]> (st_fs st)))
                else
                  res = Raise OSError /\
                  st' = st_emit EvMkdtemp
                          (st_emit (EvWhich (Some c)) (st_sized p st))
            end
        end
  end.
Proof.
  unfold run_single_compression.
  rewrite bind_run. unfold time_time. rewrite bind_run, getsize_run.
  cbn [st_fs st_tick]. fold (st_sized p st).
  destruct (st_fs st !! p) as [f|] eqn:Hf; [|by intros [= <- <-]].
  destruct (f_size f =? 0)%N eqn:H0.
  { apply N.eqb_eq in H0. rewrite H0. by intros [= <- <-]. }
  apply N.eqb_neq in H0.
  rewrite (proj2 (Z.eqb_neq _ 0)) by lia.
  rewrite bind_run, which_run.
  destruct (COMPRESSOR_PATHS !! tool) as [c|] eqn:Hc; [|by intros [= <- <-]].
  destruct (w_which w c) as [[|a exe]|]; try by intros [= <- <-].
  rewrite bind_run, mkdtemp_run.
  destruct (w_mkdtemp_ok w _); [|by intros [= <- <-]].
  rewrite bind_run. unfold try_except.
  destruct (compression_attempt _ _ _ _ _ _ _ _) as [res1 st1] eqn:Hatt.
  apply compression_attempt_cases in Hatt;
    [|by apply (compressor_paths_dom tool c)].
  cbn [st_fs st_emit st_sized st_tick] in Hatt.
  destruct Hatt as [(e & -> & Hfs & Hno)|(f' & g & r & Hrd & Hprod & Hr & -> & Hfs)].
  - rewrite bind_run. unfold time_time. rewrite ret_run.
    rewrite bind_run, cleanup_run. cbn [st_trace st_tick].
    intros Hres. eexists _, (st_tick st1). split; [|split].
    + by destruct (w_cleanup_ok w (st_trace st1)); injection Hres as _ <-.
    + cbn [st_trace st_tick].
      by destruct (w_cleanup_ok w (st_trace st1)); injection Hres as <- _.
    + left. eexists. split; [done|]. split; [done|].
      intros g Hrf. apply Hno. unfold readable_file.
      cbn [st_fs st_emit st_sized st_tick]. by rewrite Hf, Hrf.
  - rewrite bind_run, cleanup_run.
    intros Hres. eexists _, _. split; [|split].
    + by destruct (w_cleanup_ok w _); injection Hres as _ <-.
    + by destruct (w_cleanup_ok w _); injection Hres as <- _.
    + right. exists g, r. eexists.
      unfold readable_file in Hrd.
      cbn [st_fs st_emit st_sized st_tick] in Hrd.
      rewrite Hf in Hrd. destruct (f_readable f) eqn:Hrf; [|done].
      injection Hrd as <-. done.
Qed.

End RunSingle.

(** C9. On a zero-byte input [run_single_compression] returns ratio 1.0,
    elapsed 0.0 and no output path for every tool; the only system call it
    has made is the size lookup, so no executable is located or run. *)
Theorem zero_byte_short_circuit w tool p st f :
  st_fs st !! p = Some f -> f_size f = 0%N ->
  run_single_compression w tool p st =
    (Ok (1%R, 0%R, None), st_emit (EvStat p) (st_tick st)) /\
  st_trace (st_emit (EvStat p) (st_tick st)) = st_trace st ++ [EvStat p].
Proof.
  intros Hf H0. split; [|done].
  destruct (run_single_compression w tool p st) as [res st'] eqn:Hrun.
  apply run_single_compression_inv in Hrun. rewrite Hf, H0 in Hrun.
  cbn in Hrun. by destruct Hrun as [-> ->].
Qed.

Lemma zero_byte_short_circuit_witness :
  run_single_compression bare_world "gzip" "e.txt" (st_with "e.txt" file_empty)
  = (Ok (1%R, 0%R, None),
     st_emit (EvStat "e.txt") (st_tick (st_with "e.txt" file_empty))) /\
  st_trace (st_emit (EvStat "e.txt") (st_tick (st_with "e.txt" file_empty)))
  = st_trace (st_with "e.txt" file_empty) ++ [EvStat "e.txt"].
Proof.
  apply (zero_byte_short_circuit bare_world "gzip" "e.txt"
           (st_with "e.txt" file_empty) file_empty).
  - apply lookup_st_with.
  - reflexivity.
Defined.

Lemma quotient_ge_one a b :
  (0 < b)%Z -> (1 <= IZR a / IZR b)%R <-> (b <= a)%Z.
Proof.
  intros Hb. assert (Hb' : (0 < IZR b)%R) by (by apply (IZR_lt 0)).
  assert (Ha : IZR a = (IZR a / IZR b * IZR b)%R) by (field; lra).
  split.
  - intros H. apply le_IZR. nra.
  - intros H. apply IZR_le in H. nra.
Qed.

Lemma ratio_of_positive original_size comp_size r :
  (0 < original_size)%Z -> ratio_of original_size comp_size = Ok r ->
  (0 < r)%R.
Proof.
  intros Ho. rewrite ratio_of_ok. intros [= <-].
  destruct (0 <? comp_size)%Z eqn:Hc; [|lra].
  apply Z.ltb_lt in Hc. apply Rdiv_lt_0_compat; by apply (IZR_lt 0).
Qed.

Lemma growing_world_produces :
  produces growing_world "gzip" "/bin/gzip" "a.bin" file_aab gz_output.
Proof.
  exists "/tmp/tmpminerva/a.bin.gz", ["/bin/gzip"; "-9"; "/tmp/tmpminerva/a.bin"].
  eexists. split; [reflexivity|]. split; [reflexivity|].
  split; [reflexivity|]. split; [apply lookup_singleton_eq|]. done.
Qed.

(** The run of [gzip] in that environment. *)
Lemma growing_world_run :
  exists t st',
    run_single_compression growing_world "gzip" "a.bin"
      (st_with "a.bin" file_aab)
    = (Ok ((3 / 21)%R, t, Some "compressed_output.gzip"), st').
Proof.
  destruct (run_single_compression growing_world "gzip" "a.bin"
              (st_with "a.bin" file_aab)) as [res st'] eqn:Hrun.
  pose proof (run_single_compression_inv _ _ _ _ _ _ Hrun) as Hinv.
  rewrite lookup_st_with in Hinv.
  change (f_size file_aab =? 0)%N with false in Hinv.
  change (COMPRESSOR_PATHS !! "gzip") with (Some "gzip") in Hinv.
  change (w_which growing_world "gzip") with (Some "/bin/gzip") in Hinv.
  change (w_mkdtemp_ok growing_world ?h) with true in Hinv.
  cbv iota beta in Hinv.
  destruct Hinv as (returned & st1 & -> & -> & Hcases).
  change (w_cleanup_ok growing_world ?h) with true.
  destruct Hcases
    as [(t & -> & _ & Hno)|(g & r & t & _ & Hprod & Hr & -> & _)].
  - exfalso. apply (Hno gz_output); [done|]. apply growing_world_produces.
  - rewrite (produces_functional _ _ _ _ _ _ _ Hprod growing_world_produces) in Hr.
    rewrite ratio_of_ok in Hr. injection Hr as <-. by eexists _, _.
Qed.

(** C3, as stated, fails: a tool whose output is larger than its input
    yields a ratio below 1. *)
Lemma ratio_below_one :
  exists r t o st',
    run_single_compression growing_world "gzip" "a.bin"
      (st_with "a.bin" file_aab) = (Ok (r, t, o), st') /\
    ~ (1 <= r)%R.
Proof.
  destruct growing_world_run as (t & st' & Hrun).
  eexists _, _, _, _. split; [exact Hrun|]. lra.
Qed.

(** A run that returned: either it gave ratio 1 and no path, or the tool
    produced the file now at the final path. *)
Lemma run_single_compression_ok w tool p st r t o st' :
  run_single_compression w tool p st = (Ok (r, t, o), st') ->
  exists f,
    st_fs st !! p = Some f /\
    ((r = 1%R /\ o = None /\
      (st_fs st' = st_fs st \/
       exists partial, st_fs st' = <[final_path tool := partial]> (st_fs st)))
     \/
     (exists c exe g,
        f_size f <> 0%N /\
        COMPRESSOR_PATHS !! tool = Some c /\ w_which w c = Some exe /\
        f_readable f = true /\ produces w tool exe p f g /\
        ratio_of (Z.of_N (f_size f)) (Z.of_N (f_size g)) = Ok r /\
        o = Some (final_path tool) /\
        st_fs st' = <[final_path tool := g]> (st_fs st))).
Proof.
  intros Hrun. apply run_single_compression_inv in Hrun.
  destruct (st_fs st !! p) as [f|]; [|by destruct Hrun].
  exists f. split; [done|].
  destruct (f_size f =? 0)%N eqn:H0.
  { destruct Hrun as [[= -> _ ->] ->]. left. split; [done|]. split; [done|].
    by left. }
  apply N.eqb_neq in H0.
  destruct (COMPRESSOR_PATHS !! tool) as [c|] eqn:Hc; [|by destruct Hrun].
  destruct (w_which w c) as [[|a exe]|] eqn:Hexe;
    try (destruct Hrun as [[= -> _ ->] ->]; left; split; [done|];
         split; [done|]; by left).
  destruct (w_mkdtemp_ok w _); [|by destruct Hrun].
  destruct Hrun as (returned & st1 & -> & Hres & Hcases).
  destruct (w_cleanup_ok w (st_trace st1)); [|done].
  injection Hres as <-. cbn [st_fs st_emit].
  destruct Hcases
    as [(t' & [= -> _ ->] & Hfs & _)
       |(g & r' & t' & Hrf & Hprod & Hr & [= -> _ ->] & Hfs)].
  - left. by split.
  - right. by exists c, (String a exe), g.
Qed.

(** When the tool produces an output and the temporary directory can be
    used, the run returns the ratio of the two sizes and the final path. *)
Lemma run_single_compression_produces w tool p st f c exe g :
  st_fs st !! p = Some f -> f_size f <> 0%N -> f_readable f = true ->
  COMPRESSOR_PATHS !! tool = Some c ->
  w_which w c = Some exe -> exe <> EmptyString ->
  produces w tool exe p f g ->
  usable_tempdir w ->
  exists t st',
    run_single_compression w tool p st
    = (Ok ((if (0 <? Z.of_N (f_size g))%Z
            then IZR (Z.of_N (f_size f)) / IZR (Z.of_N (f_size g))
            else 1)%R, t, Some (final_path tool)), st') /\
    st_fs st' = <[final_path tool := g]> (st_fs st).
Proof.
  intros Hf H0 Hrf Hc Hexe Hne Hprod Htmp.
  destruct (run_single_compression w tool p st) as [res st'] eqn:Hrun.
  apply run_single_compression_inv in Hrun.
  rewrite Hf, (proj2 (N.eqb_neq _ _) H0), Hc, Hexe in Hrun.
  destruct exe as [|a exe]; [done|].
  rewrite (proj1 (Htmp _)) in Hrun.
  destruct Hrun as (returned & st1 & -> & -> & Hcases).
  rewrite (proj2 (Htmp _)). cbn [st_fs st_emit].
  destruct Hcases
    as [(t' & _ & _ & Hno)|(g' & r' & t' & _ & Hprod' & Hr & -> & Hfs)].
  - exfalso. by apply (Hno g).
  - rewrite (produces_functional _ _ _ _ _ _ _ Hprod' Hprod) in Hr, Hfs.
    rewrite ratio_of_ok in Hr. injection Hr as <-. by eexists _, _.
Qed.

(** C3, amended. A run that returns has a positive ratio: exactly 1 when no
    output path is returned (failure, empty input, tool not installed);
    otherwise the tool produced the file now at the returned path, and the
    ratio is the original size divided by the size of that file when it is
    positive and exactly 1 when it is 0. The ratio is at least 1 exactly when
    the output is no larger than the input. Conversely, when the tool
    produces an output from a non-empty readable file and the temporary
    directory can be created and removed, the run returns the final path
    and that ratio. *)
Theorem ratio_cases w tool p st :
  (forall r t o st',
     run_single_compression w tool p st = (Ok (r, t, o), st') ->
     exists f,
       st_fs st !! p = Some f /\
       (0 < r)%R /\
       (o = None -> r = 1%R) /\
       (forall path, o = Some path ->
          path = "compressed_output." +:+ tool /\
          exists g,
            st_fs st' !! path = Some g /\
            (exists c exe, COMPRESSOR_PATHS !! tool = Some c /\
                           w_which w c = Some exe /\
                           produces w tool exe p f g) /\
            ((0 < f_size g)%N ->
               r = (IZR (Z.of_N (f_size f)) / IZR (Z.of_N (f_size g)))%R) /\
            (f_size g = 0%N -> r = 1%R) /\
            ((1 <= r)%R <-> (f_size g <= f_size f)%N))) /\
  (forall f c exe g,
     st_fs st !! p = Some f -> f_size f <> 0%N -> f_readable f = true ->
     COMPRESSOR_PATHS !! tool = Some c ->
     w_which w c = Some exe -> exe <> EmptyString ->
     produces w tool exe p f g ->
     usable_tempdir w ->
     exists r t st',
       run_single_compression w tool p st
       = (Ok (r, t, Some ("compressed_output." +:+ tool)), st') /\
       st_fs st' !! ("compressed_output." +:+ tool) = Some g /\
       ((0 < f_size g)%N ->
          r = (IZR (Z.of_N (f_size f)) / IZR (Z.of_N (f_size g)))%R) /\
       (f_size g = 0%N -> r = 1%R)).
Proof.
  split.
  - intros r t o st' Hrun.
    destruct (run_single_compression_ok _ _ _ _ _ _ _ _ Hrun)
      as (f & Hf & [(-> & -> & _)
                   |(c & exe & g & H0 & Hc & Hexe & Hrf & Hprod & Hr & -> & Hfs)]).
    { exists f. split; [done|]. split; [lra|]. split; [done|]. intros ? [=]. }
    exists f. split; [done|].
    split; [apply (ratio_of_positive (Z.of_N (f_size f)) _ _ ltac:(lia) Hr)|].
    rewrite ratio_of_ok in Hr. injection Hr as <-.
    split; [done|]. intros path [= <-]. split; [done|].
    exists g. split; [by rewrite Hfs; apply lookup_insert_eq|].
    split; [by eexists _, _|]. split; [|split].
    + intros Hg. by rewrite (proj2 (Z.ltb_lt 0 _)) by lia.
    + intros Hg. by rewrite Hg.
    + destruct (0 <? Z.of_N (f_size g))%Z eqn:Hg.
      * apply Z.ltb_lt in Hg. rewrite quotient_ge_one by done. lia.
      * apply Z.ltb_ge in Hg. split; [lia|lra].
  - intros f c exe g Hf H0 Hrf Hc Hexe Hne Hprod Htmp.
    destruct (run_single_compression_produces w tool p st f c exe g)
      as (t & st' & Hrun & Hfs); try done.
    eexists _, t, st'. split; [exact Hrun|]. split; [|split].
    + rewrite Hfs. apply lookup_insert_eq.
    + intros Hg. by rewrite (proj2 (Z.ltb_lt 0 _)) by lia.
    + intros Hg. by rewrite Hg.
Qed.

Lemma growing_world_tempdir : usable_tempdir growing_world.
Proof. done. Qed.

Lemma ratio_cases_witness :
  exists r t st',
    run_single_compression growing_world "gzip" "a.bin"
      (st_with "a.bin" file_aab)
    = (Ok (r, t, Some "compressed_output.gzip"), st') /\
    st_fs st' !! "compressed_output.gzip" = Some gz_output /\
    r = (3 / 21)%R.
Proof.
  destruct (proj2 (ratio_cases growing_world "gzip" "a.bin"
                     (st_with "a.bin" file_aab))
              file_aab "gzip" "/bin/gzip" gz_output)
    as (r & t & st' & Hrun & Hfs & Hr & _).
  - apply lookup_st_with.
  - discriminate.
  - reflexivity.
  - reflexivity.
  - reflexivity.
  - discriminate.
  - apply growing_world_produces.
  - apply growing_world_tempdir.
  - exists r, t, st'. split; [exact Hrun|]. split; [exact Hfs|].
    by apply Hr.
Defined.

Section Sweep.

Variable w : world.

(** On an existing file, for one of the six tools and with a usable
    temporary directory the run returns, and no file of the file system
    disappears. *)
Lemma run_single_compression_total tool p st f :
  tool ∈ all_tools -> st_fs st !! p = Some f -> usable_tempdir w ->
  exists r t o st',
    run_single_compression w tool p st = (Ok (r, t, o), st') /\
    (0 < r)%R /\
    forall q, is_Some (st_fs st !! q) -> is_Some (st_fs st' !! q).
Proof.
  intros Htool Hf Htmp.
  destruct (run_single_compression w tool p st) as [res st'] eqn:Hrun.
  pose proof (run_single_compression_inv _ _ _ _ _ _ Hrun) as Hinv.
  rewrite Hf in Hinv.
  destruct (f_size f =? 0)%N eqn:H0.
  { destruct Hinv as [-> ->]. eexists _, _, _, _. split; [done|].
    split; [lra|done]. }
  apply N.eqb_neq in H0.
  destruct (compressor_paths_total tool Htool) as [c Hc]. rewrite Hc in Hinv.
  destruct (w_which w c) as [[|a exe]|];
    try (destruct Hinv as [-> ->]; eexists _, _, _, _; split; [done|];
         split; [lra|done]).
  rewrite (proj1 (Htmp _)) in Hinv.
  destruct Hinv as (returned & st1 & -> & -> & Hcases).
  rewrite (proj2 (Htmp _)). cbn [st_fs st_emit].
  destruct Hcases
    as [(t & -> & Hfs & _)|(g & r & t & _ & _ & Hr & -> & Hfs)].
  - eexists _, _, _, _. split; [done|]. split; [lra|].
    cbn [st_fs st_emit].
    destruct Hfs as [->|[partial ->]]; [done|].
    intros q Hq. rewrite lookup_insert_is_Some'. by right.
  - eexists _, _, _, _. split; [done|]. split.
    + apply (ratio_of_positive (Z.of_N (f_size f)) _ _ ltac:(lia) Hr).
    + cbn [st_fs st_emit].
      intros q Hq. rewrite Hfs, lookup_insert_is_Some'. by right.
Qed.

Lemma float_div_ok a b : b <> 0%R -> float_div a b = Ok (a / b)%R.
Proof. intros Hb. unfold float_div. by destruct (Req_dec_T b 0). Qed.

(** One iteration of the loop for a tool that is run. *)
Lemma sweep_step p sz tool rest res st ratio t o st1 :
  String.eqb tool "flac" = false ->
  run_single_compression w tool p st = (Ok (ratio, t, o), st1) ->
  (0 < ratio)%R ->
  sweep w p sz (tool :: rest) res st =
  sweep w p sz rest
    (Benchmark (<[tool := ratio]> (ratios res))
               (<[tool := (IZR sz / ratio)%R]> (sizes res))) st1.
Proof.
  intros Hne Hrun Hpos. cbn [sweep]. rewrite Hne. cbn [andb].
  rewrite !bind_run, Hrun. cbn beta iota zeta. unfold lift.
  destruct (Rlt_dec 0 ratio); [|done].
  rewrite float_div_ok by lra. by rewrite bind_run, ret_run.
Qed.

(** The iteration for [flac]: the extension never equals [".wav"] once its
    dots are stripped, so the tool is skipped whatever the file. *)
Lemma sweep_flac p sz rest res st :
  sweep w p sz ("flac" :: rest) res st =
  sweep w p sz rest
    (Benchmark (<["flac" := 0%R]> (ratios res))
               (<["flac" := IZR sz]> (sizes res))) st.
Proof.
  cbn [sweep].
  assert (String.eqb (PyStr.strip ["."%char]
                        (PyStr.lower (PyStr.splitext p).2)) ".wav" = false)
    as -> by (apply String.eqb_neq, stripped_ext_not_dot_wav).
  reflexivity.
Qed.

Lemma sweep_total p sz tools res st :
  (forall tool, tool ∈ tools -> tool ∈ all_tools) ->
  is_Some (st_fs st !! p) -> usable_tempdir w ->
  exists b st', sweep w p sz tools res st = (Ok b, st').
Proof.
  revert res st.
  induction tools as [|tool tools IH]; intros res st Hin Hf Htmp.
  { by eexists _, _. }
  assert (Hrest : forall t, t ∈ tools -> t ∈ all_tools)
    by (intros t Ht; apply Hin; by right).
  destruct (String.eqb tool "flac") eqn:Hflac.
  - apply String.eqb_eq in Hflac as ->. rewrite sweep_flac. by apply IH.
  - destruct Hf as [f Hf].
    destruct (run_single_compression_total tool p st f) as
      (r & t & o & st1 & Hrun & Hpos & Hkeep); [apply Hin; left|done|done|].
    rewrite (sweep_step _ _ _ _ _ _ _ _ _ _ Hflac Hrun Hpos).
    apply IH; [done| |done]. apply Hkeep. by eexists.
Qed.

Lemma run_full_benchmark_total p recommended_tool st f :
  st_fs st !! p = Some f -> usable_tempdir w ->
  exists b t st', run_full_benchmark w p recommended_tool st = (Ok (b, t), st').
Proof.
  intros Hf Htmp. unfold run_full_benchmark.
  rewrite bind_run, getsize_run, Hf. rewrite bind_run. unfold time_time.
  destruct (sweep_total p (Z.of_N (f_size f)) all_tools (Benchmark ∅ ∅)
              (st_tick (st_emit (EvStat p) st))) as (b & st1 & Hsweep);
    [done|by eexists|done|].
  rewrite bind_run, Hsweep, bind_run, ret_run. by eexists _, _, _.
Qed.

(** Whatever the file, a sweep that ends records ratio 0 and the original
    size for [flac]. *)
Lemma sweep_flac_skipped p sz tools res st b st' :
  sweep w p sz (tools ++ ["flac"]) res st = (Ok b, st') ->
  ratios b !! "flac" = Some 0%R /\ sizes b !! "flac" = Some (IZR sz).
Proof.
  revert res st. induction tools as [|tool tools IH]; intros res st.
  - cbn [app]. rewrite sweep_flac. cbn [sweep]. rewrite ret_run.
    intros [= <- <-]. cbn [ratios sizes]. by rewrite !lookup_insert_eq.
  - cbn [app sweep]. rewrite bind_run.
    destruct (_ st) as [[[ratio size]|e] st1]; [|discriminate].
    apply IH.
Qed.

End Sweep.

Lemma run_single_compression_unavailable w tool p st f c :
  st_fs st !! p = Some f -> f_size f <> 0%N ->
  COMPRESSOR_PATHS !! tool = Some c -> w_which w c = None ->
  run_single_compression w tool p st =
  (Ok (1%R, 0%R, None), st_emit (EvWhich (Some c)) (st_sized p st)).
Proof.
  intros Hf H0 Hc Hw.
  destruct (run_single_compression w tool p st) as [res st'] eqn:Hrun.
  apply run_single_compression_inv in Hrun.
  rewrite Hf, (proj2 (N.eqb_neq _ _) H0), Hc, Hw in Hrun.
  by destruct Hrun as [-> ->].
Qed.

(** C5, as stated, fails: the size lookup is outside the [try] block, so a
    path that is not an existing file makes the call raise. *)
Lemma run_single_raises_on_missing_file :
  run_single_compression bare_world "gzip" "missing.bin" st_empty
  = (Raise OSError, st_emit (EvStat "missing.bin") (st_tick st_empty)).
Proof.
  destruct (run_single_compression bare_world "gzip" "missing.bin" st_empty)
    as [res st'] eqn:Hrun.
  apply run_single_compression_inv in Hrun.
  change (st_fs st_empty) with (∅ : gmap string file) in Hrun.
  rewrite lookup_empty in Hrun. by destruct Hrun as [-> ->].
Qed.

(** C5, amended. On an existing input file and for each of the six tools:
    [run_single_compression] returns ratio 1.0, elapsed 0.0 and no path when
    the executable is not found. When the temporary directory can be
    created and removed, it returns; it returns ratio 1.0 and no path when
    the child process does not end with status 0 (non-zero exit, timeout,
    failure to start) or leaves no output file; and the sweep of
    [run_full_benchmark] over the file returns. When the executable is
    found for a non-empty file and the temporary directory cannot be
    created, the call raises: the directory is created outside the [try]
    block. *)
Theorem run_single_degrades_on_existing_file w tool p st f :
  tool ∈ all_tools -> st_fs st !! p = Some f ->
  (forall c, COMPRESSOR_PATHS !! tool = Some c -> w_which w c = None ->
     exists st',
       run_single_compression w tool p st = (Ok (1%R, 0%R, None), st')) /\
  (usable_tempdir w ->
   (exists r t o st',
      run_single_compression w tool p st = (Ok (r, t, o), st')) /\
   (forall c exe output_path cmd,
      COMPRESSOR_PATHS !! tool = Some c -> w_which w c = Some exe ->
      tool_plan tool exe (w_tempdir w) (PyStr.basename p)
        (PyStr.join (w_tempdir w) (PyStr.basename p))
        = Some (output_path, cmd) ->
      (w_exec w cmd {[PyStr.join (w_tempdir w) (PyStr.basename p) := f]}).1
        <> Exited 0 \/
      (w_exec w cmd {[PyStr.join (w_tempdir w) (PyStr.basename p) := f]}).2
        !! output_path = None ->
      exists t st',
        run_single_compression w tool p st = (Ok (1%R, t, None), st')) /\
   (forall recommended_tool,
      exists b t st',
        run_full_benchmark w p recommended_tool st = (Ok (b, t), st'))) /\
  (forall c exe,
     f_size f <> 0%N ->
     COMPRESSOR_PATHS !! tool = Some c ->
     w_which w c = Some exe -> exe <> EmptyString ->
     w_mkdtemp_ok w (st_trace (st_emit (EvWhich (Some c)) (st_sized p st)))
       = false ->
     exists st', run_single_compression w tool p st = (Raise OSError, st')).
Proof.
  intros Htool Hf. split; [|split].
  - intros c Hc Hw.
    destruct (run_single_compression w tool p st) as [res st'] eqn:Hrun.
    apply run_single_compression_inv in Hrun. rewrite Hf, Hc, Hw in Hrun.
    destruct (f_size f =? 0)%N; destruct Hrun as [-> _]; by eexists.
  - intros Htmp. split; [|split].
    + destruct (run_single_compression_total w tool p st f Htool Hf Htmp)
        as (r & t & o & st' & Hrun & _). by eexists _, _, _, _.
    + intros c exe out cmd Hc Hw Hplan Hfail.
      destruct (run_single_compression w tool p st) as [res st'] eqn:Hrun.
      apply run_single_compression_inv in Hrun. rewrite Hf, Hc, Hw in Hrun.
      destruct (f_size f =? 0)%N; [destruct Hrun as [-> _]; by eexists _, _|].
      destruct exe as [|a exe]; [destruct Hrun as [-> _]; by eexists _, _|].
      rewrite (proj1 (Htmp _)) in Hrun.
      destruct Hrun as (returned & st1 & -> & -> & Hcases).
      rewrite (proj2 (Htmp _)).
      destruct Hcases as [(t & -> & _)|(g & r & t & _ & Hprod & _)];
        [by eexists _, _|].
      exfalso.
      destruct Hprod as (out' & cmd' & tmp' & Hp' & _ & He' & Ho' & _).
      rewrite Hplan in Hp'. injection Hp' as <- <-. rewrite He' in Hfail.
      cbn [fst snd] in Hfail. destruct Hfail as [Hfail|Hfail]; [done|].
      by rewrite Ho' in Hfail.
    + intros rt. by apply (run_full_benchmark_total w p rt st f).
  - intros c exe H0 Hc Hw Hne Hfail.
    destruct (run_single_compression w tool p st) as [res st'] eqn:Hrun.
    apply run_single_compression_inv in Hrun.
    rewrite Hf, (proj2 (N.eqb_neq _ _) H0), Hc, Hw in Hrun.
    destruct exe as [|a exe]; [done|]. rewrite Hfail in Hrun.
    destruct Hrun as [-> _]. by eexists.
Qed.

Lemma gzip_in_all_tools : "gzip" ∈ all_tools.
Proof. apply str_in_spec. reflexivity. Qed.

Lemma bare_world_tempdir : usable_tempdir bare_world.
Proof. done. Qed.

Lemma run_single_degrades_on_existing_file_witness :
  (exists r t o st',
     run_single_compression bare_world "gzip" "a.bin"
       (st_with "a.bin" file_aab) = (Ok (r, t, o), st')) /\
  (exists b t st',
     run_full_benchmark bare_world "a.bin" "gzip" (st_with "a.bin" file_aab)
     = (Ok (b, t), st')).
Proof.
  destruct (run_single_degrades_on_existing_file bare_world "gzip" "a.bin"
              (st_with "a.bin" file_aab) file_aab gzip_in_all_tools
              (lookup_st_with _ _)) as (_ & Hok & _).
  destruct (Hok bare_world_tempdir) as (Hret & _ & Hsweep).
  split; [exact Hret|exact (Hsweep "gzip")].
Defined.

(** C1, at the input [song.wav] with [flac] installed: the extension is
    [.wav], and yet the sweep records ratio 0 and the original size for
    [flac] and never looks the [flac] executable up, although the five other
    tools are looked up. *)
Theorem flac_skipped_for_wav_input :
  (PyStr.splitext "song.wav").2 = ".wav" /\
  exists b t st',
    run_full_benchmark flac_world "song.wav" "flac"
      (st_with "song.wav" file_aab) = (Ok (b, t), st') /\
    ratios b !! "flac" = Some 0%R /\
    sizes b !! "flac" = Some 3%R /\
    st_trace st' =
      [EvStat "song.wav";
       EvStat "song.wav"; EvWhich (Some "7z");
       EvStat "song.wav"; EvWhich (Some "zip");
       EvStat "song.wav"; EvWhich (Some "rar");
       EvStat "song.wav"; EvWhich (Some "gzip");
       EvStat "song.wav"; EvWhich (Some "bzip2")].
Proof.
  split; [reflexivity|].
  unfold run_full_benchmark.
  rewrite bind_run, getsize_run, lookup_st_with, bind_run.
  unfold time_time, all_tools. rewrite bind_run.
  do 5 (erewrite sweep_step;
        [|reflexivity
         |apply (run_single_compression_unavailable _ _ _ _ file_aab);
          [apply lookup_st_with|done|reflexivity|reflexivity]
         |lra]).
  rewrite sweep_flac. cbn [sweep]. rewrite ret_run, bind_run, ret_run.
  eexists _, _, _. split; [reflexivity|].
  cbn [ratios sizes]. rewrite !lookup_insert_eq. done.
Qed.

(* ===================================================================== *)
(** ** What a run keeps *)
(* ===================================================================== *)

Lemma same_fs_preorder : PreOrder same_fs.
Proof.
  split; [done|]. intros x y z Hxy Hyz. unfold same_fs in *. congruence.
Qed.

#[export] Existing Instance same_fs_preorder.

Lemma same_fs_but_preorder path : PreOrder (same_fs_but path).
Proof.
  split; [done|]. intros x y z Hxy Hyz q Hq. by rewrite Hyz, Hxy.
Qed.

#[export] Existing Instance same_fs_but_preorder.

Lemma extends_preorder P : PreOrder (extends P).
Proof.
  split.
  - intros st. exists []. by rewrite app_nil_r.
  - intros x y z (e1 & H1 & F1) (e2 & H2 & F2). exists (e1 ++ e2).
    split; [by rewrite H2, H1, app_assoc|by apply Forall_app].
Qed.

#[export] Existing Instance extends_preorder.

Section Keeps.

Context (Q : state -> state -> Prop) `{!PreOrder Q}.

Lemma keeps_ret {A} (a : A) : keeps Q (mret a).
Proof. intros st r st' [= _ <-]. reflexivity. Qed.

Lemma keeps_raise {A} e : keeps Q (raise e : M A).
Proof. intros st r st' [= _ <-]. reflexivity. Qed.

Lemma keeps_lift {A} (x : result A) : keeps Q (lift x).
Proof. intros st r st' [= _ <-]. reflexivity. Qed.

Lemma keeps_bind {A B} (m : M A) (k : A -> M B) :
  keeps Q m -> (forall a, keeps Q (k a)) -> keeps Q (m ≫= k).
Proof.
  intros Hm Hk st r st'. rewrite bind_run.
  destruct (m st) as [[a|e] st1] eqn:Hrun.
  - intros Hk'. etransitivity; [by eapply Hm|by eapply Hk].
  - intros [= _ <-]. by eapply Hm.
Qed.

Lemma keeps_try {A} (body handler : M A) :
  keeps Q body -> keeps Q handler -> keeps Q (try_except body handler).
Proof.
  intros Hb Hh st r st'. unfold try_except.
  destruct (body st) as [[a|e] st1] eqn:Hrun.
  - intros [= _ <-]. by eapply Hb.
  - intros Hh'. etransitivity; [by eapply Hb|by eapply Hh].
Qed.

Lemma keeps_emit e : (forall st, Q st (st_emit e st)) -> keeps Q (emit e).
Proof. intros H st r st' [= _ <-]. apply H. Qed.

Lemma keeps_get_fs : keeps Q get_fs.
Proof. intros st r st' [= _ <-]. reflexivity. Qed.

Lemma keeps_get_trace : keeps Q get_trace.
Proof. intros st r st' [= _ <-]. reflexivity. Qed.

Lemma keeps_emit_all es :
  (forall st, Q st (st_emit_all es st)) -> keeps Q (emit_all es).
Proof. intros H st r st'. rewrite emit_all_run. intros [= _ <-]. apply H. Qed.

Lemma keeps_time w : (forall st, Q st (st_tick st)) -> keeps Q (time_time w).
Proof. intros H st r st' [= _ <-]. apply H. Qed.

Lemma keeps_put path f :
  (forall st, Q st (st_put path f st)) -> keeps Q (put_file path f).
Proof. intros H st r st' [= _ <-]. apply H. Qed.

End Keeps.

Lemma keeps_and {A} (Q1 Q2 : state -> state -> Prop) (m : M A) :
  keeps Q1 m -> keeps Q2 m -> keeps (fun st st' => Q1 st st' /\ Q2 st st') m.
Proof. intros H1 H2 st r st' Hrun. split; [by eapply H1|by eapply H2]. Qed.

Lemma extends_emit (P : event -> Prop) e st : P e -> extends P st (st_emit e st).
Proof. intros He. exists [e]. split; [done|]. by constructor. Qed.

Lemma extends_emit_all (P : event -> Prop) es st :
  Forall P es -> extends P st (st_emit_all es st).
Proof. intros Hes. by exists es. Qed.

Lemma extends_tick P st : extends P st (st_tick st).
Proof. exists []. by rewrite app_nil_r. Qed.

Lemma extends_put P path f st : extends P st (st_put path f st).
Proof. exists []. by rewrite app_nil_r. Qed.

Lemma extends_weaken (P P' : event -> Prop) st st' :
  (forall e, P e -> P' e) -> extends P st st' -> extends P' st st'.
Proof.
  intros HP (evs & Htr & Hall). exists evs. split; [done|].
  by eapply Forall_impl.
Qed.

(** Breaks a computation into its primitives; what is left are the side
    conditions of [emit], the clock and [put_file]. *)
Ltac keeps_goal :=
  lazymatch goal with
  | |- PreOrder _ => typeclasses eauto
  | |- keeps _ _ => idtac
  | |- forall _, _ => intros ?
  | _ => idtac
  end.

Ltac keeps_step :=
  lazymatch goal with
  | |- keeps _ (mret _) => apply keeps_ret
  | |- keeps _ (raise _) => apply keeps_raise
  | |- keeps _ (lift _) => apply keeps_lift
  | |- keeps _ get_fs => apply keeps_get_fs
  | |- keeps _ get_trace => apply keeps_get_trace
  | |- keeps _ (emit_all _) => apply keeps_emit_all
  | |- keeps _ (mbind _ _) => apply keeps_bind
  | |- keeps _ (try_except _ _) => apply keeps_try
  | |- keeps _ (emit _) => apply keeps_emit
  | |- keeps _ (time_time _) => apply keeps_time
  | |- keeps _ (put_file _ _) => apply keeps_put
  | |- keeps _ (match ?x with _ => _ end) => destruct x
  end; keeps_goal.

Ltac keeps_tac := repeat (cbv beta zeta; keeps_step).

Lemma Forall_spawn (P : event -> Prop) (cmds : list (list string)) :
  (forall cmd, P (EvSpawn cmd)) -> Forall P (map EvSpawn cmds).
Proof. intros H. apply Forall_forall. intros e He.
  apply list_elem_of_In, in_map_iff in He as (cmd & <- & _). apply H.
Qed.

Ltac keeps_side :=
  try done;
  try (apply extends_emit; done);
  try (apply extends_emit_all, Forall_spawn; done);
  try apply extends_tick;
  try apply extends_put.

Section ReadOnly.

Variable w : world.

Lemma compile_feature_vector_same_fs p :
  keeps same_fs (compile_feature_vector w p).
Proof.
  unfold compile_feature_vector, get_universal_features, type_features,
    get_text_features, get_pdf_features, get_image_features,
    get_audio_features, getsize, open_file.
  keeps_tac; keeps_side.
Qed.

Lemma compile_feature_vector_calls p :
  keeps (extends inference_call) (compile_feature_vector w p).
Proof.
  unfold compile_feature_vector, get_universal_features, type_features,
    get_text_features, get_pdf_features, get_image_features,
    get_audio_features, getsize, open_file.
  keeps_tac; keeps_side.
Qed.

Lemma get_universal_features_passive p :
  keeps (extends passive) (get_universal_features p).
Proof.
  unfold get_universal_features, getsize, open_file.
  keeps_tac; keeps_side.
Qed.

(** Only the audio branch, and only with the audio library, can start a
    process. *)
Lemma type_features_passive ext p :
  class_of_ext ext <> AudioExt \/ PYDUB_AVAILABLE w = false ->
  keeps (extends passive) (type_features w ext p).
Proof.
  intros H. unfold type_features. unfold class_of_ext in H.
  destruct (str_in ext ["txt"; "csv"; "json"]).
  { unfold get_text_features, open_file. keeps_tac; keeps_side. }
  destruct (String.eqb ext "pdf").
  { unfold get_pdf_features, open_file. keeps_tac; keeps_side. }
  destruct (str_in ext ["jpg"; "jpeg"; "png"]).
  { unfold get_image_features, open_file. keeps_tac; keeps_side. }
  destruct (String.eqb ext "wav"); [|keeps_tac].
  destruct H as [H|H]; [done|].
  unfold get_audio_features. rewrite H. cbn [negb]. keeps_tac.
Qed.

Lemma compile_feature_vector_passive p :
  class_of_ext (bare_ext p) <> AudioExt \/ PYDUB_AVAILABLE w = false ->
  keeps (extends passive) (compile_feature_vector w p).
Proof.
  intros H. unfold compile_feature_vector. cbv zeta.
  apply keeps_bind; [typeclasses eauto|apply get_universal_features_passive|].
  intros [[fs ent] bd].
  apply keeps_bind; [typeclasses eauto|by apply type_features_passive|].
  intros t. keeps_tac.
Qed.

Lemma get_prediction_same_fs p m : keeps same_fs (get_prediction w p m).
Proof.
  unfold get_prediction, predict_from_features, cache_get, keras_predict,
    compile_feature_vector, get_universal_features, type_features,
    get_text_features, get_pdf_features, get_image_features,
    get_audio_features, getsize, open_file.
  keeps_tac; keeps_side.
Qed.

Lemma predict_from_features_passive m start features :
  keeps (extends passive) (predict_from_features w m start features).
Proof.
  unfold predict_from_features, cache_get, keras_predict.
  destruct features as [raw ki]. keeps_tac; keeps_side.
Qed.

Lemma get_prediction_calls p m :
  keeps (extends inference_call) (get_prediction w p m).
Proof.
  unfold get_prediction, predict_from_features, cache_get, keras_predict,
    compile_feature_vector, get_universal_features, type_features,
    get_text_features, get_pdf_features, get_image_features,
    get_audio_features, getsize, open_file.
  keeps_tac; keeps_side.
Qed.

Lemma get_prediction_passive p m :
  class_of_ext (bare_ext p) <> AudioExt \/ PYDUB_AVAILABLE w = false ->
  keeps (extends passive) (get_prediction w p m).
Proof.
  intros H. unfold get_prediction.
  apply keeps_bind; [typeclasses eauto|keeps_tac; keeps_side|].
  intros start_time.
  apply keeps_bind;
    [typeclasses eauto|unfold getsize; keeps_tac; keeps_side|].
  intros original_size. cbv zeta.
  destruct (negb _); [keeps_tac|]. destruct (_ <? _)%Z; [keeps_tac|].
  apply keeps_bind;
    [typeclasses eauto|by apply compile_feature_vector_passive|].
  intros features. apply predict_from_features_passive.
Qed.

End ReadOnly.

Lemma same_fs_but_put path f st : same_fs_but path st (st_put path f st).
Proof. intros q Hq. cbn [st_fs st_put]. by rewrite lookup_insert_ne. Qed.

Lemma flac_key tool : COMPRESSOR_PATHS !! tool = Some "flac" -> tool = "flac".
Proof.
  unfold COMPRESSOR_PATHS. cbn [list_to_map foldr uncurry fst snd].
  rewrite !lookup_insert_Some, lookup_empty. intros H.
  repeat (destruct H as [[<- H]|[_ H]]; [done|]). done.
Qed.

Section RunnerKeeps.

Variable w : world.

Lemma run_single_compression_frame tool p :
  keeps (same_fs_but (final_path tool)) (run_single_compression w tool p).
Proof.
  unfold run_single_compression, compression_attempt, run_tool, which,
    mkdtemp, cleanup, copy_in, copy_out, getsize_tmp, subprocess_run,
    getsize.
  keeps_tac; keeps_side; apply same_fs_but_put.
Qed.

Lemma run_single_compression_events tool p :
  keeps (extends (of_tool tool)) (run_single_compression w tool p).
Proof.
  unfold run_single_compression, compression_attempt, run_tool, which,
    mkdtemp, cleanup, copy_in, copy_out, getsize_tmp, subprocess_run,
    getsize.
  keeps_tac; keeps_side.
Qed.

Lemma sweep_events p sz tools res :
  keeps (extends not_flac) (sweep w p sz tools res).
Proof.
  revert res. induction tools as [|tool tools IH]; intros res; cbn [sweep].
  { keeps_tac. }
  apply keeps_bind; [typeclasses eauto| |intros [ratio size]; apply IH].
  destruct (String.eqb tool "flac") eqn:Hflac.
  - apply String.eqb_eq in Hflac as ->.
    assert (String.eqb (PyStr.strip ["."%char]
                          (PyStr.lower (PyStr.splitext p).2)) ".wav" = false)
      as -> by (apply String.eqb_neq, stripped_ext_not_dot_wav).
    cbn [andb negb]. keeps_tac.
  - apply String.eqb_neq in Hflac. cbn [andb].
    apply keeps_bind; [typeclasses eauto| |intros [[ratio t] o]; keeps_tac].
    intros st r st' Hrun.
    apply (extends_weaken (of_tool tool)).
    + intros [] He; try done. intros [= Hc]. apply Hflac, flac_key.
      by rewrite <- He.
    + by eapply run_single_compression_events.
Qed.

Lemma run_full_benchmark_events p recommended_tool :
  keeps (extends not_flac) (run_full_benchmark w p recommended_tool).
Proof.
  unfold run_full_benchmark, getsize.
  keeps_tac; keeps_side. apply sweep_events.
Qed.

End RunnerKeeps.

(* ===================================================================== *)
(** ** Further properties of the benchmark runner *)
(* ===================================================================== *)

Lemma compressor_paths_none tool :
  tool ∉ all_tools -> COMPRESSOR_PATHS !! tool = None.
Proof.
  intros Hnot. destruct (COMPRESSOR_PATHS !! tool) as [c|] eqn:Hc; [|done].
  exfalso. by apply Hnot, (compressor_paths_dom tool c).
Qed.

(** X1. A path that is not an existing file makes both entry points of the
    benchmark raise the error of the size lookup: [OSError] when the path
    has no NUL character, [ValueError] with the message of the embedded NUL
    when it has one. Nothing else has happened by then, in particular no
    tool has been looked up. *)
Theorem benchmark_missing_file w tool p st :
  st_fs st !! p = None ->
  (has_char "000" p = false ->
   run_single_compression w tool p st = (Raise OSError, st_sized p st) /\
   run_full_benchmark w p tool st = (Raise OSError, st_emit (EvStat p) st)) /\
  (has_char "000" p = true ->
   run_single_compression w tool p st
   = (Raise (ValueError "embedded null byte"), st_sized p st) /\
   run_full_benchmark w p tool st
   = (Raise (ValueError "embedded null byte"), st_emit (EvStat p) st)).
Proof.
  intros Hf.
  assert (H1 : run_single_compression w tool p st
               = (Raise (no_such_file p), st_sized p st)).
  { destruct (run_single_compression w tool p st) as [res st'] eqn:Hrun.
    apply run_single_compression_inv in Hrun. rewrite Hf in Hrun.
    by destruct Hrun as [-> ->]. }
  assert (H2 : run_full_benchmark w p tool st
               = (Raise (no_such_file p), st_emit (EvStat p) st)).
  { unfold run_full_benchmark. by rewrite bind_run, getsize_run, Hf. }
  rewrite H1, H2. unfold no_such_file. split; by intros ->.
Qed.

Lemma benchmark_missing_file_witness :
  run_single_compression bare_world "zip" "gone.txt" st_empty
    = (Raise OSError, st_sized "gone.txt" st_empty) /\
  run_full_benchmark bare_world "gone.txt" "zip" st_empty
    = (Raise OSError, st_emit (EvStat "gone.txt") st_empty).
Proof.
  apply (benchmark_missing_file bare_world "zip" "gone.txt" st_empty
           (lookup_empty _)).
  reflexivity.
Defined.

(** X2. For a tool name that is not a key of [COMPRESSOR_PATHS] and a
    non-empty existing file, [run_single_compression] raises [TypeError]:
    the table gives no command and the search for [None] fails outside the
    [try] block. *)
Theorem unknown_tool_raises w tool p st f :
  tool ∉ all_tools -> st_fs st !! p = Some f -> f_size f <> 0%N ->
  run_single_compression w tool p st =
  (Raise TypeError, st_emit (EvWhich None) (st_sized p st)).
Proof.
  intros Htool Hf H0. unfold run_single_compression.
  rewrite bind_run. unfold time_time. rewrite bind_run, getsize_run.
  cbn [st_fs st_tick]. rewrite Hf.
  rewrite (proj2 (Z.eqb_neq _ 0)) by lia.
  by rewrite bind_run, which_run, compressor_paths_none.
Qed.

Lemma not_in_all_tools s : str_in s all_tools = false -> s ∉ all_tools.
Proof. apply str_in_false. Qed.

Lemma unknown_tool_raises_witness :
  run_single_compression bare_world "7z" "a.bin" (st_with "a.bin" file_aab) =
  (Raise TypeError,
   st_emit (EvWhich None) (st_sized "a.bin" (st_with "a.bin" file_aab))).
Proof.
  apply (unknown_tool_raises bare_world "7z" "a.bin" _ file_aab).
  - apply not_in_all_tools. reflexivity.
  - apply lookup_st_with.
  - discriminate.
Defined.

Section RunnerFacts.

Variable w : world.

(** The file system is as it was, or differs at the final path only. *)
Lemma run_single_compression_fs tool p st res st' :
  run_single_compression w tool p st = (res, st') ->
  st_fs st' = st_fs st \/
  exists g, st_fs st' = <[final_path tool := g]> (st_fs st).
Proof.
  intros Hrun. apply run_single_compression_inv in Hrun.
  destruct (st_fs st !! p) as [f|]; [|destruct Hrun as [_ ->]; by left].
  destruct (f_size f =? 0)%N; [destruct Hrun as [_ ->]; by left|].
  destruct (COMPRESSOR_PATHS !! tool) as [c|] eqn:Hc;
    [|destruct Hrun as [_ ->]; by left].
  destruct (w_which w c) as [[|a exe]|];
    try (destruct Hrun as [_ ->]; by left).
  destruct (w_mkdtemp_ok w _); [|destruct Hrun as [_ ->]; by left].
  destruct Hrun as (returned & st1 & -> & _ & Hcases). cbn [st_fs st_emit].
  destruct Hcases as [(t & _ & Hfs & _)|(g & r & t & _ & _ & _ & _ & Hfs)].
  - destruct Hfs as [Hfs|[partial Hfs]]; [by left|right; by exists partial].
  - right. by exists g.
Qed.

(** Nothing is written when the file is missing or empty, or when the
    executable is not found. *)
Lemma run_single_compression_untouched tool p st res st' :
  run_single_compression w tool p st = (res, st') ->
  st_fs st !! p = None \/
  (exists f, st_fs st !! p = Some f /\ f_size f = 0%N) \/
  (exists c, COMPRESSOR_PATHS !! tool = Some c /\ w_which w c = None) ->
  st_fs st' = st_fs st.
Proof.
  intros Hrun Hcase. apply run_single_compression_inv in Hrun.
  destruct (st_fs st !! p) as [f|]; [|by destruct Hrun as [_ ->]].
  destruct (f_size f =? 0)%N eqn:H0; [by destruct Hrun as [_ ->]|].
  apply N.eqb_neq in H0.
  destruct Hcase as [[=]|[(f' & [= <-] & Hz)|(c & Hc & Hw)]]; [done|].
  rewrite Hc, Hw in Hrun. by destruct Hrun as [_ ->].
Qed.

Lemma run_single_compression_pos tool p st r t o st' :
  run_single_compression w tool p st = (Ok (r, t, o), st') -> (0 < r)%R.
Proof.
  intros Hrun.
  destruct (run_single_compression_ok _ _ _ _ _ _ _ _ Hrun)
    as (f & Hf & [(-> & _)|(c & exe & g & H0 & _ & _ & _ & _ & Hr & _)]);
    [lra|].
  apply (ratio_of_positive (Z.of_N (f_size f)) _ _ ltac:(lia) Hr).
Qed.

End RunnerFacts.



Section SweepFacts.

Variable w : world.

Lemma sweep_entries p sz tools res st b st' :
  sweep w p sz tools res st = (Ok b, st') ->
  (forall t, t ∈ tools \/ entry_ok sz res t -> entry_ok sz b t) /\
  (forall t, t ∉ tools ->
     ratios b !! t = ratios res !! t /\ sizes b !! t = sizes res !! t).
Proof.
  revert res st. induction tools as [|tool tools IH]; intros res st.
  { cbn [sweep]. rewrite ret_run. intros [= <- _]. split.
    - intros t [Ht|Ht]; [by apply elem_of_nil in Ht|done].
    - done. }
  assert (Hnext : forall ratio size st1,
    (if String.eqb tool "flac" then ratio = 0%R /\ size = IZR sz
     else (0 < ratio)%R /\ size = (IZR sz / ratio)%R) ->
    sweep w p sz tools
      (Benchmark (<[tool := ratio]> (ratios res)) (<[tool := size]> (sizes res)))
      st1 = (Ok b, st') ->
    (forall t, t ∈ tool :: tools \/ entry_ok sz res t -> entry_ok sz b t) /\
    (forall t, t ∉ tool :: tools ->
       ratios b !! t = ratios res !! t /\ sizes b !! t = sizes res !! t)).
  { intros ratio size st1 Hentry Hrest.
    destruct (IH _ _ Hrest) as [Hin Hout]. split.
    - intros t Ht. apply Hin.
      destruct (decide (t = tool)) as [->|Hne].
      + right. exists ratio, size. cbn [ratios sizes].
        by rewrite !lookup_insert_eq.
      + destruct Ht as [Ht|(r & s & Hr & Hs & Hrs)].
        * apply elem_of_cons in Ht as [?|?]; [done|by left].
        * right. exists r, s. cbn [ratios sizes].
          by rewrite !lookup_insert_ne.
    - intros t Ht. apply not_elem_of_cons in Ht as [Hne Ht].
      destruct (Hout t Ht) as [-> ->]. cbn [ratios sizes].
      by rewrite !lookup_insert_ne. }
  destruct (String.eqb tool "flac") eqn:Hflac.
  - apply String.eqb_eq in Hflac as Heq. subst tool. rewrite sweep_flac.
    by apply Hnext.
  - destruct (run_single_compression w tool p st) as [[[[r t] o]|e] st1]
      eqn:Hrun.
    + pose proof (run_single_compression_pos _ _ _ _ _ _ _ _ Hrun) as Hpos.
      rewrite (sweep_step _ _ _ _ _ _ _ _ _ _ _ Hflac Hrun Hpos).
      by apply Hnext.
    + cbn [sweep]. rewrite Hflac. cbn [andb].
      rewrite !bind_run, Hrun. discriminate.
Qed.

(** A benchmark that returned ran the sweep over an existing file. *)
Lemma run_full_benchmark_inv p recommended_tool st b t st' :
  run_full_benchmark w p recommended_tool st = (Ok (b, t), st') ->
  exists f st1,
    st_fs st !! p = Some f /\
    sweep w p (Z.of_N (f_size f)) all_tools (Benchmark ∅ ∅)
      (st_tick (st_emit (EvStat p) st)) = (Ok b, st1).
Proof.
  unfold run_full_benchmark. rewrite bind_run, getsize_run.
  destruct (st_fs st !! p) as [f|]; [|discriminate].
  rewrite bind_run. unfold time_time at 1. rewrite bind_run.
  destruct (sweep w p _ _ _ _) as [[b'|e] st1] eqn:Hsweep; [|discriminate].
  rewrite bind_run. unfold time_time. rewrite ret_run.
  intros [= <- _ _]. by exists f, st1.
Qed.

End SweepFacts.

(** X4. For every existing file, whatever its extension, a benchmark that
    returns records ratio 0 and the original size for [flac]: the test that
    decides to skip [flac] holds for every path. And the benchmark returns
    whenever the temporary directory can be created and removed. *)
Theorem full_benchmark_flac_entry w p recommended_tool st f :
  st_fs st !! p = Some f ->
  (forall b t st',
     run_full_benchmark w p recommended_tool st = (Ok (b, t), st') ->
     ratios b !! "flac" = Some 0%R /\
     sizes b !! "flac" = Some (IZR (Z.of_N (f_size f)))) /\
  (usable_tempdir w ->
   exists b t st',
     run_full_benchmark w p recommended_tool st = (Ok (b, t), st')).
Proof.
  intros Hf. split.
  - intros b t st' Hrun.
    apply run_full_benchmark_inv in Hrun as (f' & st1 & Hf' & Hsweep).
    rewrite Hf in Hf'. injection Hf' as <-.
    by apply (sweep_flac_skipped w p _
                ["7zip"; "zip"; "winrar"; "gzip"; "bzip2"] _ _ _ _ Hsweep).
  - intros Htmp. by apply (run_full_benchmark_total w p _ st f).
Qed.

Lemma flac_world_tempdir : usable_tempdir flac_world.
Proof. done. Qed.

Lemma full_benchmark_flac_entry_witness :
  exists b t st',
    run_full_benchmark flac_world "song.wav" "flac"
      (st_with "song.wav" file_aab) = (Ok (b, t), st') /\
    ratios b !! "flac" = Some 0%R /\
    sizes b !! "flac" = Some (IZR (Z.of_N (f_size file_aab))).
Proof.
  destruct (full_benchmark_flac_entry flac_world "song.wav" "flac"
              (st_with "song.wav" file_aab) file_aab (lookup_st_with _ _))
    as [Hentry Hret].
  destruct (Hret flac_world_tempdir) as (b & t & st' & Hrun).
  exists b, t, st'. split; [exact Hrun|]. exact (Hentry b t st' Hrun).
Defined.

(** X5. For every existing file the results of a benchmark that returns
    have an entry for each of the six tools and for nothing else; for each
    tool other than [flac] the ratio is positive and the recorded size is
    the original size divided by it: not negative, the original size when
    the ratio is 1 (so for a tool that failed), at most the original size
    when the ratio is at least 1 and at least the original size when the
    ratio is at most 1. And the benchmark returns whenever the temporary
    directory can be created and removed. *)
Theorem full_benchmark_entries w p recommended_tool st f :
  st_fs st !! p = Some f ->
  (forall b t st',
     run_full_benchmark w p recommended_tool st = (Ok (b, t), st') ->
     (forall tool, is_Some (ratios b !! tool) <-> tool ∈ all_tools) /\
     (forall tool, is_Some (sizes b !! tool) <-> tool ∈ all_tools) /\
     (forall tool r s,
        tool <> "flac" ->
        ratios b !! tool = Some r -> sizes b !! tool = Some s ->
        (0 < r)%R /\ (0 <= s)%R /\
        (r = 1%R -> s = IZR (Z.of_N (f_size f))) /\
        ((1 <= r)%R -> (s <= IZR (Z.of_N (f_size f)))%R) /\
        ((r <= 1)%R -> (IZR (Z.of_N (f_size f)) <= s)%R))) /\
  (usable_tempdir w ->
   exists b t st',
     run_full_benchmark w p recommended_tool st = (Ok (b, t), st')).
Proof.
  intros Hf. split; [|intros Htmp; by apply (run_full_benchmark_total w p _ st f)].
  intros b t st' Hrun.
  apply run_full_benchmark_inv in Hrun as (f' & st1 & Hf' & Hsweep).
  rewrite Hf in Hf'. injection Hf' as <-.
  destruct (sweep_entries w _ _ _ _ _ _ _ Hsweep) as [Hin Hout].
  assert (Hdom : forall tool,
    (is_Some (ratios b !! tool) <-> tool ∈ all_tools) /\
    (is_Some (sizes b !! tool) <-> tool ∈ all_tools)).
  { intros tool. destruct (decide (tool ∈ all_tools)) as [Ht|Ht].
    - destruct (Hin tool (or_introl Ht)) as (r & s & Hr & Hs & _).
      rewrite Hr, Hs. split; split; by eauto.
    - destruct (Hout tool Ht) as [-> ->]. cbn [ratios sizes].
      rewrite !lookup_empty. split; split; try done; by intros [? ?]. }
  split; [intros tool; apply Hdom|]. split; [intros tool; apply Hdom|].
  intros tool r s Hne Hr Hs.
  assert (Ht : tool ∈ all_tools) by (apply Hdom; by eexists).
  destruct (Hin tool (or_introl Ht)) as (r' & s' & Hr' & Hs' & Hentry).
  rewrite Hr in Hr'. rewrite Hs in Hs'. injection Hr' as <-. injection Hs' as <-.
  rewrite (proj2 (String.eqb_neq _ _) Hne) in Hentry.
  destruct Hentry as [Hpos ->].
  assert (Hsz : (0 <= IZR (Z.of_N (f_size f)))%R) by (apply IZR_le; lia).
  assert (Hq : (IZR (Z.of_N (f_size f)) / r * r
                = IZR (Z.of_N (f_size f)))%R) by (field; lra).
  assert (Hs0 : (0 <= IZR (Z.of_N (f_size f)) / r)%R).
  { apply Rmult_le_pos; [done|]. left. by apply Rinv_0_lt_compat. }
  split; [done|]. split; [done|]. split; [|split].
  - intros ->. field.
  - intros Hr1. nra.
  - intros Hr1. nra.
Qed.

Lemma full_benchmark_entries_witness :
  exists b t st',
    run_full_benchmark bare_world "a.bin" "zip" (st_with "a.bin" file_aab)
      = (Ok (b, t), st') /\
    (forall tool, is_Some (ratios b !! tool) <-> tool ∈ all_tools).
Proof.
  destruct (full_benchmark_entries bare_world "a.bin" "zip"
              (st_with "a.bin" file_aab) file_aab (lookup_st_with _ _))
    as [Hentries Hret].
  destruct (Hret bare_world_tempdir) as (b & t & st' & Hrun).
  exists b, t, st'. split; [exact Hrun|].
  by destruct (Hentries b t st' Hrun) as (Hdom & _).
Defined.

(** X6. Whatever the file, [run_full_benchmark] never searches for the
    [flac] executable, so it never runs it. *)
Theorem full_benchmark_never_looks_up_flac w p recommended_tool st :
  exists evs,
    st_trace (run_full_benchmark w p recommended_tool st).2
      = st_trace st ++ evs /\
    EvWhich (Some "flac") ∉ evs.
Proof.
  destruct (run_full_benchmark w p recommended_tool st) as [res st'] eqn:Hrun.
  destruct (run_full_benchmark_events w p recommended_tool _ _ _ Hrun)
    as (evs & Htr & Hall).
  exists evs. split; [done|]. intros Hin.
  rewrite Forall_forall in Hall. by apply (Hall _ Hin).
Qed.

Lemma extends_both (P1 P2 : event -> Prop) (C : Prop) st st' :
  extends P1 st st' -> (C -> extends P2 st st') ->
  exists evs, st_trace st' = st_trace st ++ evs /\ Forall P1 evs /\
              (C -> Forall P2 evs).
Proof.
  intros (evs & Htr & H1) H2. exists evs. split; [done|]. split; [done|].
  intros HC. destruct (H2 HC) as (evs' & Htr' & H2').
  rewrite Htr in Htr'. by apply app_inv_head in Htr' as ->.
Qed.

(** X7. [compile_feature_vector] and [get_prediction] write no file, and
    the only calls they make are size lookups, opening files for reading,
    calls of the loaded models and the child processes the audio library
    starts while it decodes: no compression executable is searched for, no
    temporary directory is made and no file is copied. When the extension
    is not [wav], or the audio library is not available, no process is
    started at all. The imaging and PDF libraries and the models are taken
    to compute only, and what the audio library's processes write is
    taken to be gone when it returns. *)
Theorem prediction_is_read_only w p model_name st :
  (st_fs (compile_feature_vector w p st).2 = st_fs st /\
   exists evs,
     st_trace (compile_feature_vector w p st).2 = st_trace st ++ evs /\
     Forall inference_call evs /\
     (class_of_ext (bare_ext p) <> AudioExt \/ PYDUB_AVAILABLE w = false ->
      Forall passive evs)) /\
  (st_fs (get_prediction w p model_name st).2 = st_fs st /\
   exists evs,
     st_trace (get_prediction w p model_name st).2 = st_trace st ++ evs /\
     Forall inference_call evs /\
     (class_of_ext (bare_ext p) <> AudioExt \/ PYDUB_AVAILABLE w = false ->
      Forall passive evs)).
Proof.
  split.
  - destruct (compile_feature_vector w p st) as [res st'] eqn:Hrun. split.
    + by apply (compile_feature_vector_same_fs w p st res).
    + apply extends_both.
      * by apply (compile_feature_vector_calls w p st res).
      * intros H. by apply (compile_feature_vector_passive w p H st res).
  - destruct (get_prediction w p model_name st) as [res st'] eqn:Hrun. split.
    + by apply (get_prediction_same_fs w p model_name st res).
    + apply extends_both.
      * by apply (get_prediction_calls w p model_name st res).
      * intros H. by apply (get_prediction_passive w p model_name H st res).
Qed.

(* ===================================================================== *)
(** ** Ranges of the universal features *)
(* ===================================================================== *)

Lemma Rsum_affine {A} (F : A -> R) (c1 c2 : R) l :
  Rsum (map (fun x => c1 * F x + c2)%R l) =
  (c1 * Rsum (map F l) + INR (length l) * c2)%R.
Proof.
  induction l as [|x l IH]; [simpl; lra|].
  cbn [map Rsum foldr length]. fold (Rsum (map (fun x => c1 * F x + c2)%R l)).
  fold (Rsum (map F l)). rewrite IH, S_INR. lra.
Qed.

Lemma ln_le_sub_one x : (0 < x)%R -> (ln x <= x - 1)%R.
Proof.
  intros Hx. pose proof (exp_ineq1_le (x - 1)) as Hexp.
  assert (Hle : (x <= exp (x - 1))%R) by lra.
  destruct Hle as [Hlt|Heq].
  - apply Rlt_le. rewrite <- (ln_exp (x - 1)). by apply ln_increasing.
  - rewrite Heq at 1. rewrite ln_exp. lra.
Qed.

Lemma ln_2_pos : (0 < ln 2)%R.
Proof. rewrite <- ln_1. apply ln_increasing; lra. Qed.

Lemma ln_256 : ln 256 = (8 * ln 2)%R.
Proof.
  replace 256%R with (2 ^ 8)%R by (simpl; lra).
  rewrite ln_pow by lra. simpl. lra.
Qed.

(** For [0 < p <= 1], [p * log2(p)] lies between [-(8p + (1/256 - p)/ln 2)]
    and [0]. *)
Lemma plogp_bounds p :
  (0 < p <= 1)%R ->
  (- (8 * p + (1 / 256 - p) / ln 2) <= plogp p <= 0)%R.
Proof.
  intros [Hp0 Hp1]. pose proof ln_2_pos as H2. unfold plogp.
  assert (Hln0 : (ln p <= 0)%R).
  { destruct Hp1 as [Hlt| ->]; [|rewrite ln_1; lra].
    apply Rlt_le. rewrite <- ln_1. by apply ln_increasing. }
  assert (Hlow : (- ln 256 - ln p <= 1 / (256 * p) - 1)%R).
  { assert (Hq : (0 < 1 / (256 * p))%R).
    { apply Rdiv_lt_0_compat; lra. }
    pose proof (ln_le_sub_one _ Hq) as Hle.
    unfold Rdiv in Hle at 1. rewrite Rmult_1_l, ln_Rinv in Hle by lra.
    rewrite ln_mult in Hle by lra. lra. }
  rewrite ln_256 in Hlow.
  assert (Hmul : (p * (- (8 * ln 2) - ln p) <= 1 / 256 - p)%R).
  { apply (Rmult_le_compat_l p) in Hlow; [|lra].
    replace (p * (1 / (256 * p) - 1))%R with (1 / 256 - p)%R in Hlow
      by (field; lra).
    exact Hlow. }
  split.
  - apply (Rmult_le_reg_r (ln 2)); [done|].
    replace (p * (ln p / ln 2) * ln 2)%R with (p * ln p)%R by (field; lra).
    replace (- (8 * p + (1 / 256 - p) / ln 2) * ln 2)%R
      with (- (8 * p * ln 2 + (1 / 256 - p)))%R by (field; lra).
    lra.
  - apply (Rmult_le_reg_r (ln 2)); [done|].
    replace (p * (ln p / ln 2) * ln 2)%R with (p * ln p)%R by (field; lra).
    rewrite Rmult_0_l.
    replace (p * ln p)%R with (- (p * - ln p))%R by lra.
    assert (0 <= p * - ln p)%R by (apply Rmult_le_pos; lra). lra.
Qed.

Lemma occurrences_le_length i l : (occurrences i l <= Z.of_nat (length l))%Z.
Proof.
  unfold occurrences. pose proof (length_filter (fun b => byte_val b = i) l).
  lia.
Qed.

Lemma frequency_bounds i l : l <> [] -> (0 <= frequency i l <= 1)%R.
Proof.
  intros Hl. unfold frequency.
  assert (Hn : (0 < IZR (Z.of_nat (length l)))%R).
  { apply (IZR_lt 0). destruct l; [done|]. cbn [length]. lia. }
  pose proof (IZR_le _ _ (occurrences_nonneg i l)) as H0.
  pose proof (IZR_le _ _ (occurrences_le_length i l)) as H1.
  split.
  - apply Rmult_le_pos; [done|]. apply Rlt_le. by apply Rinv_0_lt_compat.
  - apply (Rmult_le_reg_r (IZR (Z.of_nat (length l)))); [done|].
    replace (IZR (occurrences i l) / IZR (Z.of_nat (length l))
             * IZR (Z.of_nat (length l)))%R
      with (IZR (occurrences i l)) by (field; lra).
    lra.
Qed.

Lemma frequency_sum l :
  l <> [] -> Rsum (map (fun i => frequency i l) (range 256)) = 1%R.
Proof.
  intros Hl. unfold frequency.
  rewrite Rsum_quotients, Zsum_occurrences. apply Rdiv_diag.
  apply not_0_IZR. destruct l; [done|]. cbn [length]. lia.
Qed.

(** The entropy of a non-empty list of bytes lies between 0 and 8 bits. *)
Lemma shannon_bounds l : l <> [] -> (0 <= shannon l <= 8)%R.
Proof.
  intros Hl. unfold shannon. pose proof ln_2_pos as H2.
  assert (Hterm : forall i,
    (- ((8 - 1 / ln 2) * frequency i l + 1 / (256 * ln 2))
     <= (if decide (0 < occurrences i l)%Z
         then plogp (frequency i l) else 0) <= 0)%R).
  { intros i. pose proof (frequency_bounds i l Hl) as [Hf0 Hf1].
    case_decide as Hocc.
    - assert (Hpos : (0 < frequency i l)%R).
      { unfold frequency. apply Rdiv_lt_0_compat; apply (IZR_lt 0); [done|].
        destruct l; [done|]. cbn [length]. lia. }
      pose proof (plogp_bounds (frequency i l) (conj Hpos Hf1)) as [Hlo Hhi].
      split; [|done].
      replace ((8 - 1 / ln 2) * frequency i l + 1 / (256 * ln 2))%R
        with (8 * frequency i l + (1 / 256 - frequency i l) / ln 2)%R
        by (field; lra).
      done.
    - assert (frequency i l = 0%R) as ->.
      { unfold frequency. pose proof (occurrences_nonneg i l).
        replace (occurrences i l) with 0%Z by lia. unfold Rdiv.
        by rewrite Rmult_0_l. }
      split; [|lra]. rewrite Rmult_0_r, Rplus_0_l.
      assert (0 < 1 / (256 * ln 2))%R by (apply Rdiv_lt_0_compat; lra). lra. }
  split.
  - assert (Rsum (map (fun i => if decide (0 < occurrences i l)%Z
                                then plogp (frequency i l) else 0%R)
                      (range 256)) <= Rsum (map (fun _ => 0%R) (range 256)))%R
      as Hle by (apply Rsum_le; intros i _; apply Hterm).
    rewrite Rsum_zero in Hle. lra.
  - assert (Rsum (map (fun i => - ((8 - 1 / ln 2) * frequency i l
                                   + 1 / (256 * ln 2)))%R (range 256))
            <= Rsum (map (fun i => if decide (0 < occurrences i l)%Z
                                   then plogp (frequency i l) else 0%R)
                         (range 256)))%R
      as Hle by (apply Rsum_le; intros i _; apply Hterm).
    rewrite (Rsum_ext _ (fun i => (- (8 - 1 / ln 2)) * frequency i l
                                  + - (1 / (256 * ln 2)))%R) in Hle
      by (intros; lra).
    rewrite (Rsum_affine (fun i => frequency i l)) in Hle.
    rewrite frequency_sum in Hle by done.
    unfold range in *. rewrite length_seqZ in Hle.
    replace (INR (Z.to_nat 256)) with 256%R in Hle
      by (rewrite INR_IZR_INZ; f_equal).
    replace (- (8 - 1 / ln 2) * 1 + 256 * - (1 / (256 * ln 2)))%R
      with (-8)%R in Hle by (field; lra).
    lra.
Qed.

Lemma f_bytes_nonempty f : f_size f <> 0%N -> f_bytes f <> [].
Proof.
  intros H0 Hnil. pose proof (f_bytes_length f) as Hlen.
  rewrite Hnil in Hlen. simpl in Hlen. lia.
Qed.

(** X8. Whatever the file, the universal pass returns a size that is not
    negative, an entropy between 0 and 8 bits, and byte frequencies between
    0 and 1. *)
Theorem universal_features_ranges p st :
  exists fs ent bd st',
    get_universal_features p st = (Ok (fs, ent, bd), st') /\
    (0 <= fs)%Z /\
    (0 <= ent <= 8)%R /\
    (forall i v, bd !! i = Some v -> (0 <= v <= 1)%R).
Proof.
  assert (Hzeros : forall i v, zeros !! i = Some v -> (0 <= v <= 1)%R).
  { intros i v. unfold zeros. rewrite (foldl_insert_lookup (fun _ => 0%R)).
    case_decide; [intros [= <-]; lra|by rewrite lookup_empty]. }
  destruct (st_fs st !! p) as [f|] eqn:Hf.
  - destruct (decide (f_size f = 0%N)) as [H0|H0].
    + rewrite (get_universal_features_empty p st f) by done.
      eexists _, _, _, _. split; [done|]. split; [done|]. split; [lra|done].
    + destruct (f_readable f) eqn:Hr.
      * rewrite (get_universal_features_readable p st f) by done.
        eexists _, _, _, _. split; [done|]. split; [lia|].
        split; [by apply shannon_bounds, f_bytes_nonempty|].
        intros i v. rewrite histogram_lookup. case_decide; [|done].
        intros [= <-]. by apply frequency_bounds, f_bytes_nonempty.
      * rewrite (get_universal_features_unreadable p st f) by done.
        eexists _, _, _, _. split; [done|]. split; [done|]. split; [lra|done].
  - rewrite get_universal_features_missing by done.
    eexists _, _, _, _. split; [done|]. split; [done|]. split; [lra|done].
Qed.

Lemma zeros_sum : Rsum (map (fun i => dict_get zeros i 0%R) (range 256)) = 0%R.
Proof.
  rewrite (Rsum_ext _ (fun _ => 0%R)); [apply Rsum_zero|].
  intros i Hi. unfold dict_get. rewrite zeros_lookup; [done|].
  by apply elem_of_range.
Qed.

Lemma nth_byte_feature (stats : list R) (bd : gmap Z R) i :
  length stats = 12%nat -> (0 <= i < 256)%Z ->
  nth (12 + Z.to_nat i)
      (stats ++ map (fun i => dict_get bd i 0%R) (range 256)) 0%R
  = dict_get bd i 0%R.
Proof.
  intros Hlen Hi. rewrite app_nth2 by lia.
  replace (12 + Z.to_nat i - length stats)%nat with (Z.to_nat i) by lia.
  rewrite (nth_indep _ 0%R (dict_get bd 0%Z 0%R))
    by (rewrite length_map; unfold range; rewrite length_seqZ; lia).
  rewrite (map_nth (fun i => dict_get bd i 0%R) (range 256) 0%Z (Z.to_nat i)).
  f_equal. unfold range.
  apply (nth_lookup_Some _ _ 0%Z). rewrite lookup_seqZ. split; lia.
Qed.

(** X9. In the vector of [compile_feature_vector] for a readable file that
    is not empty, the first entry is the file size, and each of the 256
    entries after the 12 statistics lies between 0 and 1 and is positive
    exactly when its byte value occurs in the file. When the file is
    missing, unreadable or empty, the first two entries and those 256
    entries are all 0. *)
Theorem feature_vector_histogram w p st :
  exists vec ins st',
    compile_feature_vector w p st = (Ok (vec, ins), st') /\
    (forall f, readable_file st p = Some f -> f_size f <> 0%N ->
       nth 0 vec 0%R = IZR (Z.of_N (f_size f)) /\
       forall i, (0 <= i < 256)%Z ->
         (0 <= nth (12 + Z.to_nat i) vec 0 <= 1)%R /\
         ((0 < nth (12 + Z.to_nat i) vec 0)%R <->
          (0 < occurrences i (f_bytes f))%Z)) /\
    (readable_file st p = None \/
     (exists f, st_fs st !! p = Some f /\ f_size f = 0%N) ->
       nth 0 vec 0%R = 0%R /\ nth 1 vec 0%R = 0%R /\
       Forall (fun v => v = 0%R) (drop 12 vec)).
Proof.
  destruct (get_universal_features_total p st) as (fs & ent & bd & st1 & Hu).
  destruct (type_features_total w (bare_ext p) p st1) as (t & st2 & Ht).
  destruct (compile_feature_vector_run w p st _ _ _ _ _ _ Hu Ht) as [ins Hc].
  eexists _, ins, st2. split; [exact Hc|].
  assert (Hdrop : forall l : list R, drop 12 (stat_features fs ent t ++ l) = l)
    by done.
  assert (Hzero : (fs, ent, bd) = (0%Z, 0%R, zeros) ->
    IZR fs = 0%R /\ ent = 0%R /\
    Forall (fun v => v = 0%R) (map (fun i => dict_get bd i 0%R) (range 256))).
  { intros [= -> -> ->]. split; [done|]. split; [done|].
    apply Forall_forall. intros v Hv.
    apply list_elem_of_In, in_map_iff in Hv as (i & <- & Hi).
    unfold dict_get. rewrite zeros_lookup; [done|].
    by apply elem_of_range, list_elem_of_In. }
  unfold readable_file. split.
  - intros f Hrf H0. destruct (st_fs st !! p) as [f'|] eqn:Hf; [|done].
    destruct (f_readable f') eqn:Hr; [|done]. injection Hrf as ->.
    rewrite (get_universal_features_readable p st f) in Hu by done.
    injection Hu as <- <- <- <-. split; [done|].
    intros i Hi. rewrite nth_byte_feature by done.
    unfold dict_get. rewrite histogram_lookup.
    rewrite decide_True by (by apply elem_of_range). cbn [default].
    pose proof (f_bytes_nonempty f H0) as Hne.
    split; [by apply frequency_bounds|].
    unfold frequency.
    assert (Hlen : (0 < IZR (Z.of_nat (length (f_bytes f))))%R).
    { apply IZR_lt. destruct (f_bytes f); [done|]. cbn [length]. lia. }
    split.
    + intros Hpos. apply lt_IZR.
      destruct (Rle_lt_dec (IZR (occurrences i (f_bytes f))) 0) as [Hle|]; [|done].
      exfalso. apply (Rlt_irrefl 0). eapply Rlt_le_trans; [exact Hpos|].
      unfold Rdiv.
      replace 0%R with (0 * / IZR (Z.of_nat (length (f_bytes f))))%R by lra.
      apply Rmult_le_compat_r; [left; by apply Rinv_0_lt_compat|done].
    + intros Hpos. apply Rdiv_lt_0_compat; [by apply IZR_lt|done].
  - intros Hfail. rewrite Hdrop. cbn [nth stat_features app]. apply Hzero.
    destruct (st_fs st !! p) as [f|] eqn:Hf.
    + destruct (decide (f_size f = 0%N)) as [H0|H0].
      * rewrite (get_universal_features_empty p st f) in Hu by done.
        by injection Hu as <- <- <- <-.
      * destruct Hfail as [Hfail|(f' & [= <-] & ?)]; [|done].
        destruct (f_readable f) eqn:Hr; [done|].
        rewrite (get_universal_features_unreadable p st f) in Hu by done.
        by injection Hu as <- <- <- <-.
    + rewrite get_universal_features_missing in Hu by done.
      by injection Hu as <- <- <- <-.
Qed.

Lemma feature_vector_histogram_witness :
  exists vec ins st',
    compile_feature_vector bare_world "a.bin" (st_with "a.bin" file_aab)
      = (Ok (vec, ins), st') /\
    nth 0 vec 0%R = 3%R /\
    (0 <= nth (12 + Z.to_nat 97) vec 0 <= 1)%R.
Proof.
  destruct (feature_vector_histogram bare_world "a.bin"
              (st_with "a.bin" file_aab)) as (vec & ins & st' & Hc & Hok & _).
  exists vec, ins, st'. split; [exact Hc|].
  destruct (Hok file_aab) as [Hsize Hbytes].
  - unfold readable_file. by rewrite lookup_st_with.
  - discriminate.
  - split; [exact Hsize|]. apply (Hbytes 97%Z). lia.
Defined.

Section Insights.

Variable w : world.

(** X10. The insights of [compile_feature_vector] always start with the
    file type, the size in KB and the entropy, in this order, computed from
    the upper-cased extension and the first two entries of the vector. At
    most one more entry follows, and it is the one of the class of the
    extension: the duration for [wav] when it is positive, the dimensions
    for an image when the width is positive, the page count for [pdf] when
    it is positive; a text file or a file of another type has none. *)
Theorem insights_shape p st :
  exists vec ins extra st',
    compile_feature_vector w p st = (Ok (vec, ins), st') /\
    ins = [("File Type", IText (PyStr.upper (bare_ext p)));
           ("File Size (KB)", IFixed 2 (nth 0 vec 0 / 1024)%R);
           ("Shannon Entropy", IFixed 4 (nth 1 vec 0%R))] ++ extra /\
    match class_of_ext (bare_ext p) with
    | AudioExt =>
        extra = if Rlt_dec 0 (nth 8 vec 0%R)
                then [("Duration (s)", IFixed 2 (nth 8 vec 0%R))] else []
    | ImageExt =>
        exists width height,
          nth 4 vec 0%R = IZR width /\ nth 5 vec 0%R = IZR height /\
          extra = if (0 <? width)%Z
                  then [("Dimensions", IDims width height)] else []
    | PdfExt =>
        exists page_count,
          nth 3 vec 0%R = IZR page_count /\
          extra = if (0 <? page_count)%Z
                  then [("Page Count", ICount page_count)] else []
    | TextExt | OtherExt => extra = []
    end.
Proof.
  destruct (get_universal_features_total p st) as (fs & ent & bd & st1 & Hu).
  destruct (type_features_total w (bare_ext p) p st1) as (t & st2 & Ht).
  pose proof (type_features_class w _ _ _ _ _ Ht) as Hclass.
  unfold compile_feature_vector. fold (bare_ext p).
  rewrite bind_run, Hu. cbn iota beta. rewrite bind_run, Ht.
  cbv zeta. rewrite ret_run.
  assert (H00 : forall A (x y : A), (if Rlt_dec 0 0 then x else y) = y).
  { intros A x y. destruct (Rlt_dec 0 0); [lra|done]. }
  destruct (class_of_ext (bare_ext p));
    [destruct Hclass as [_ ->]..|destruct Hclass as [-> _]];
    cbn [ts_ds ts_w ts_h ts_pc no_stats Z.ltb Z.compare];
    rewrite ?H00.
  - eexists _, _, [], _. split; [reflexivity|]. split; reflexivity.
  - eexists _, _, _, _. split; [reflexivity|].
    cbn [nth stat_features app ts_pc].
    split; [|eexists; split; reflexivity].
    by destruct (0 <? ts_pc t)%Z.
  - eexists _, _, _, _. split; [reflexivity|].
    cbn [nth stat_features app ts_w ts_h].
    split; [|eexists _, _; split; [|split]; reflexivity].
    by destruct (0 <? ts_w t)%Z.
  - eexists _, _, _, _. split; [reflexivity|].
    cbn [nth stat_features app ts_ds].
    split; [|reflexivity]. by destruct (Rlt_dec 0 (ts_ds t)).
  - eexists _, _, [], _. split; [reflexivity|]. split; reflexivity.
Qed.

(** X11. A model name that is not a key of the cache is detected late: for
    an existing file with an allowed extension and a size within the limit,
    and with a scaler in the cache, [get_prediction] extracts the features
    and scales them, and only then raises [KeyError] for the name. The state
    it leaves is that of the feature extraction followed by the one call of
    the scaler. *)
Theorem unknown_model_raises p m st f transform :
  st_fs st !! p = Some f ->
  PyStr.lower (PyStr.splitext p).2 ∈ allowed_extensions ->
  (Z.of_N (f_size f) <= MAX_SIZE)%Z ->
  INFERENCE_CACHE w !! "SCALER" = Some (Scaler transform) ->
  INFERENCE_CACHE w !! m = None ->
  exists vec ins st1,
    compile_feature_vector w p (st_sized p st) = (Ok (vec, ins), st1) /\
    get_prediction w p m st = (Raise (KeyError m), st_emit EvTransform st1).
Proof.
  intros Hf Hext Hsz Hscaler Hm.
  destruct (get_universal_features_total p (st_sized p st))
    as (fs & ent & bd & st1 & Hu).
  destruct (type_features_total w (bare_ext p) p st1) as (t & st2 & Ht).
  destruct (compile_feature_vector_run w p _ _ _ _ _ _ _ Hu Ht) as [ins Hc].
  eexists _, ins, st2. split; [exact Hc|].
  rewrite get_prediction_run, Hf. cbv zeta.
  apply str_in_spec in Hext. rewrite Hext. cbn [negb].
  rewrite (proj2 (Z.ltb_ge MAX_SIZE _)) by done.
  rewrite bind_run, Hc. unfold predict_from_features.
  rewrite bind_run. unfold cache_get at 1. rewrite Hscaler, ret_run.
  rewrite !bind_run. unfold emit. rewrite ret_run.
  rewrite bind_run. unfold cache_get at 1. by rewrite Hm.
Qed.

End Insights.

Lemma unknown_model_raises_witness :
  exists vec ins st1,
    compile_feature_vector scaler_world "x.txt"
      (st_sized "x.txt" (st_with "x.txt" file_aab)) = (Ok (vec, ins), st1) /\
    get_prediction scaler_world "x.txt" "No Such Model"
      (st_with "x.txt" file_aab)
    = (Raise (KeyError "No Such Model"), st_emit EvTransform st1).
Proof.
  apply (unknown_model_raises scaler_world "x.txt" "No Such Model"
           (st_with "x.txt" file_aab) file_aab (fun x => x)).
  - apply lookup_st_with.
  - apply str_in_spec. reflexivity.
  - vm_compute. discriminate.
  - reflexivity.
  - reflexivity.
Defined.

(* ===================================================================== *)
(** ** Durations *)
(* ===================================================================== *)

Lemma ticks_le_preorder : PreOrder ticks_le.
Proof.
  split; [intros st; unfold ticks_le; lia|].
  intros x y z. unfold ticks_le. lia.
Qed.

#[export] Existing Instance ticks_le_preorder.

Lemma ticks_le_emit e st : ticks_le st (st_emit e st).
Proof. unfold ticks_le. cbn. lia. Qed.

Lemma ticks_le_tick st : ticks_le st (st_tick st).
Proof. unfold ticks_le. cbn. lia. Qed.

Lemma ticks_le_put path f st : ticks_le st (st_put path f st).
Proof. unfold ticks_le. cbn. lia. Qed.

Lemma ticks_le_emit_all es st : ticks_le st (st_emit_all es st).
Proof. unfold ticks_le. cbn. lia. Qed.

Ltac ticks_side :=
  try done; try apply ticks_le_emit; try apply ticks_le_emit_all;
  try apply ticks_le_tick; try apply ticks_le_put.

Lemma bind_ok_inv {A B} (m : M A) (k : A -> M B) st b st' :
  (m ≫= k) st = (Ok b, st') ->
  exists a st1, m st = (Ok a, st1) /\ k a st1 = (Ok b, st').
Proof.
  rewrite bind_run. destruct (m st) as [[a|e] st1]; [|discriminate].
  intros H. by exists a, st1.
Qed.

Section Durations.

Variable w : world.

Lemma compile_feature_vector_ticks p :
  keeps ticks_le (compile_feature_vector w p).
Proof.
  unfold compile_feature_vector, get_universal_features, type_features,
    get_text_features, get_pdf_features, get_image_features,
    get_audio_features, getsize, open_file.
  keeps_tac; ticks_side.
Qed.

Lemma compression_attempt_ticks tool p sz start exe td :
  keeps ticks_le (compression_attempt w tool p sz start exe td).
Proof.
  unfold compression_attempt, run_tool, copy_in, copy_out, getsize_tmp,
    subprocess_run.
  keeps_tac; ticks_side.
Qed.

Lemma run_single_compression_ticks tool p :
  keeps ticks_le (run_single_compression w tool p).
Proof.
  unfold run_single_compression, which, mkdtemp, cleanup, getsize.
  keeps_tac; ticks_side; apply compression_attempt_ticks.
Qed.

Lemma sweep_ticks p sz tools res : keeps ticks_le (sweep w p sz tools res).
Proof.
  revert res. induction tools as [|tool tools IH]; intros res; cbn [sweep].
  { keeps_tac. }
  apply keeps_bind; [typeclasses eauto| |intros [ratio size]; apply IH].
  destruct (_ && _).
  - keeps_tac.
  - apply keeps_bind; [typeclasses eauto| |intros [[ratio t] o]; keeps_tac].
    apply run_single_compression_ticks.
Qed.

(** The duration [run_single_compression] returns is the literal [0.0] or
    a later reading of the clock minus the first one. *)
Lemma run_single_compression_time tool p st r t o st' :
  run_single_compression w tool p st = (Ok (r, t, o), st') ->
  t = 0%R \/
  exists k, (st_ticks st <= k)%nat /\
            t = (w_clock w k - w_clock w (st_ticks st))%R.
Proof.
  unfold run_single_compression.
  rewrite bind_run. unfold time_time at 1. rewrite bind_run, getsize_run.
  cbn [st_fs st_tick]. fold (st_sized p st).
  destruct (st_fs st !! p) as [f|]; [|discriminate].
  destruct (_ =? 0)%Z; [intros [= _ <- _ _]; by left|].
  rewrite bind_run, which_run.
  destruct (COMPRESSOR_PATHS !! tool) as [c|] eqn:Hc; [|discriminate].
  destruct (w_which w c) as [[|a exe]|]; try (intros [= _ <- _ _]; by left).
  rewrite bind_run, mkdtemp_run.
  destruct (w_mkdtemp_ok w _); [|discriminate].
  rewrite bind_run. unfold try_except.
  destruct (compression_attempt _ _ _ _ _ _ _ _) as [res1 st1] eqn:Hatt.
  pose proof (compression_attempt_ticks _ _ _ _ _ _ _ _ _ Hatt) as Hle.
  unfold ticks_le in Hle. cbn [st_ticks st_emit st_sized st_tick] in Hle.
  destruct res1 as [[[r1 t1] o1]|e].
  - rewrite bind_run, cleanup_run.
    destruct (w_cleanup_ok w _); [|discriminate].
    rewrite ret_run. intros [= -> -> -> _].
    apply compression_attempt_cases in Hatt;
      [|by apply (compressor_paths_dom tool c)].
    destruct Hatt as [(e & [=] & _)|(f' & g & r' & _ & _ & _ & [= _ -> _] & _)].
    right. eexists. split; [|reflexivity].
    cbn [st_ticks st_emit st_sized st_tick]. lia.
  - rewrite bind_run. unfold time_time. rewrite ret_run.
    rewrite bind_run, cleanup_run.
    destruct (w_cleanup_ok w _); [|discriminate].
    rewrite ret_run. intros [= _ <- _ _].
    right. exists (st_ticks st1). split; [lia|done].
Qed.

Ltac ticks_bind H Hle :=
  let a := fresh "a" in
  let s := fresh "s" in
  let Hm := fresh "Hm" in
  apply bind_ok_inv in H as (a & s & Hm & H);
  match type of Hm with
  | ?m ?st0 = _ =>
      assert (Hle : ticks_le st0 s)
        by (apply (fun K : keeps ticks_le m => K _ _ _ Hm);
            unfold cache_get, keras_predict; keeps_tac; ticks_side)
  end;
  clear Hm.

Lemma predict_from_features_time m start features st tool ins t st' :
  predict_from_features w m start features st = (Ok (tool, ins, t), st') ->
  exists k, (st_ticks st <= k)%nat /\ t = (w_clock w k - start)%R.
Proof.
  unfold predict_from_features. destruct features as [raw ki].
  intros H.
  ticks_bind H H1. ticks_bind H H2. ticks_bind H H3. ticks_bind H H4.
  ticks_bind H H5. ticks_bind H H6.
  rewrite bind_run in H. unfold time_time in H. rewrite ret_run in H.
  injection H as _ _ <- _.
  eexists. split; [|reflexivity]. unfold ticks_le in *. lia.
Qed.

Lemma get_prediction_time p m st tool ins t st' :
  get_prediction w p m st = (Ok (tool, ins, t), st') ->
  exists k, (st_ticks st <= k)%nat /\
            t = (w_clock w k - w_clock w (st_ticks st))%R.
Proof.
  rewrite get_prediction_run.
  destruct (st_fs st !! p) as [f|]; [|discriminate].
  cbv zeta. destruct (negb _); [discriminate|].
  destruct (_ <? _)%Z; [discriminate|].
  intros H. apply bind_ok_inv in H as (features & st1 & Hc & H).
  apply compile_feature_vector_ticks in Hc.
  apply predict_from_features_time in H as (k & Hk & ->).
  exists k. split; [|done]. unfold ticks_le in Hc.
  cbn [st_ticks st_sized st_emit st_tick] in Hc. lia.
Qed.

Lemma run_full_benchmark_time p rt st b t st' :
  run_full_benchmark w p rt st = (Ok (b, t), st') ->
  exists n k, (n <= k)%nat /\ t = (w_clock w k - w_clock w n)%R.
Proof.
  unfold run_full_benchmark. intros H.
  apply bind_ok_inv in H as (sz & st1 & _ & H).
  apply bind_ok_inv in H as (start & st2 & Hstart & H).
  apply bind_ok_inv in H as (b' & st3 & Hsweep & H).
  apply sweep_ticks in Hsweep.
  rewrite bind_run in H. unfold time_time in H, Hstart.
  rewrite ret_run in H. injection H as _ <-. injection Hstart as <- <-.
  eexists _, _. split; [|reflexivity].
  unfold ticks_le in Hsweep. cbn [st_ticks st_tick] in Hsweep. lia.
Qed.

(** X12. With a clock that never runs backwards, no duration the three
    entry points return is negative: the elapsed time of
    [run_single_compression], the prediction time of [get_prediction] and
    the benchmark time of [run_full_benchmark]. *)
Theorem durations_nonnegative :
  monotone_clock w ->
  (forall tool p st r t o st',
     run_single_compression w tool p st = (Ok (r, t, o), st') -> (0 <= t)%R) /\
  (forall p m st tool ins t st',
     get_prediction w p m st = (Ok (tool, ins, t), st') -> (0 <= t)%R) /\
  (forall p rt st b t st',
     run_full_benchmark w p rt st = (Ok (b, t), st') -> (0 <= t)%R).
Proof.
  intros Hmono. split; [|split].
  - intros tool p st r t o st' H.
    apply run_single_compression_time in H as [->|(k & Hk & ->)]; [lra|].
    specialize (Hmono _ _ Hk). lra.
  - intros p m st tool ins t st' H.
    apply get_prediction_time in H as (k & Hk & ->).
    specialize (Hmono _ _ Hk). lra.
  - intros p rt st b t st' H.
    apply run_full_benchmark_time in H as (n & k & Hk & ->).
    specialize (Hmono _ _ Hk). lra.
Qed.

End Durations.

Lemma growing_world_clock : monotone_clock growing_world.
Proof. intros n m. apply le_INR. Qed.

Lemma durations_nonnegative_witness :
  exists r t o st',
    run_single_compression growing_world "gzip" "a.bin"
      (st_with "a.bin" file_aab) = (Ok (r, t, o), st') /\
    (0 <= t)%R.
Proof.
  destruct growing_world_run as (t & st' & Hrun).
  exists (3 / 21)%R, t, (Some "compressed_output.gzip"), st'.
  split; [exact Hrun|].
  exact (proj1 (durations_nonnegative growing_world growing_world_clock)
           _ _ _ _ _ _ _ Hrun).
Defined.

(* ===================================================================== *)
(** ** The files a benchmark touches *)
(* ===================================================================== *)

Lemma same_fs_outside_preorder paths :
  PreOrder (same_fs_outside paths).
Proof.
  split; [done|]. intros x y z Hxy Hyz q Hq. by rewrite Hyz, Hxy.
Qed.

#[export] Existing Instance same_fs_outside_preorder.

Lemma same_fs_outside_but path paths st st' :
  path ∈ paths -> same_fs_but path st st' -> same_fs_outside paths st st'.
Proof. intros Hin H q Hq. apply H. by intros ->. Qed.

Section Touched.

Variable w : world.

Lemma sweep_frame p sz tools res paths :
  (forall tool, tool ∈ tools -> tool <> "flac" -> final_path tool ∈ paths) ->
  keeps (same_fs_outside paths) (sweep w p sz tools res).
Proof.
  revert res. induction tools as [|tool tools IH]; intros res Hin; cbn [sweep].
  { keeps_tac. }
  apply keeps_bind; [typeclasses eauto| |].
  2:{ intros [ratio size]. apply IH. intros t Ht. apply Hin. by right. }
  destruct (String.eqb tool "flac") eqn:Hflac.
  - assert (String.eqb (PyStr.strip ["."%char]
                          (PyStr.lower (PyStr.splitext p).2)) ".wav" = false)
      as -> by (apply String.eqb_neq, stripped_ext_not_dot_wav).
    cbn [andb negb]. keeps_tac.
  - apply String.eqb_neq in Hflac. cbn [andb].
    apply keeps_bind; [typeclasses eauto| |intros [[ratio t] o]; keeps_tac].
    intros st r st' Hrun.
    apply (same_fs_outside_but (final_path tool)); [apply Hin; [left|done]|].
    by eapply run_single_compression_frame.
Qed.

End Touched.



(* ===================================================================== *)
(** ** The two readings of the extension *)
(* ===================================================================== *)

Lemma rfind_from_spec c s : forall i best,
  (best < i)%Z ->
  (PyStr.rfind_from c s i best = best /\ has_char c s = false) \/
  (i <= PyStr.rfind_from c s i best)%Z /\
  exists t, PyStr.drop (Z.to_nat (PyStr.rfind_from c s i best - i)) s
            = String c t /\ has_char c t = false.
Proof.
  induction s as [|d s IH]; intros i best Hlt; cbn [PyStr.rfind_from has_char].
  { by left. }
  destruct (Ascii.eqb d c) eqn:Hd.
  - apply Ascii.eqb_eq in Hd as ->. right.
    destruct (IH (i + 1)%Z i ltac:(lia)) as [[-> Hno]|[Hle (t & Ht & Hno)]].
    + split; [lia|]. exists s. by rewrite Z.sub_diag.
    + split; [lia|]. exists t. split; [|done].
      replace (Z.to_nat (PyStr.rfind_from c s (i + 1) i - i))
        with (S (Z.to_nat (PyStr.rfind_from c s (i + 1) i - (i + 1))))
        by lia.
      exact Ht.
  - destruct (IH (i + 1)%Z best ltac:(lia)) as [[-> Hno]|[Hle (t & Ht & Hno)]].
    + by left.
    + right. split; [lia|]. exists t. split; [|done].
      replace (Z.to_nat (PyStr.rfind_from c s (i + 1) best - i))
        with (S (Z.to_nat (PyStr.rfind_from c s (i + 1) best - (i + 1))))
        by lia.
      exact Ht.
Qed.

Lemma rfind_spec c s :
  (PyStr.rfind c s = -1)%Z \/
  (0 <= PyStr.rfind c s)%Z /\
  exists t, PyStr.drop (Z.to_nat (PyStr.rfind c s)) s = String c t /\
            has_char c t = false.
Proof.
  unfold PyStr.rfind.
  destruct (rfind_from_spec c s 0 (-1) ltac:(lia)) as [[-> _]|[Hle (t & Ht & Hno)]].
  - by left.
  - right. split; [done|]. exists t. by rewrite Z.sub_0_r in Ht.
Qed.

Lemma skip_leading_dots_snd p dotIndex filenameIndex todo :
  (PyStr.skip_leading_dots p dotIndex filenameIndex todo).2 = EmptyString \/
  (PyStr.skip_leading_dots p dotIndex filenameIndex todo).2
  = PyStr.drop (Z.to_nat dotIndex) p.
Proof.
  revert filenameIndex.
  induction todo as [|k IH]; intros filenameIndex;
    cbn [PyStr.skip_leading_dots]; [by left|].
  destruct (negb _); [by right|apply IH].
Qed.

(** What [splitext] returns as the extension is empty, or a dot followed
    by characters none of which is a dot. *)
Lemma splitext_ext p :
  (PyStr.splitext p).2 = EmptyString \/
  exists t, (PyStr.splitext p).2 = String "." t /\ has_char "." t = false.
Proof.
  unfold PyStr.splitext. cbv zeta.
  destruct (_ <? _)%Z eqn:Hlt; [|by left].
  apply Z.ltb_lt in Hlt.
  destruct (skip_leading_dots_snd p (PyStr.rfind PyStr.dot p)
              (PyStr.rfind PyStr.slash p + 1)
              (Z.to_nat (PyStr.rfind PyStr.dot p
                         - (PyStr.rfind PyStr.slash p + 1))))
    as [->| ->]; [by left|].
  destruct (rfind_spec PyStr.dot p) as [Hd|[_ (t & Ht & Hno)]].
  - destruct (rfind_spec PyStr.slash p) as [Hs|[Hs _]]; lia.
  - right. by exists t.
Qed.

Lemma lower_ascii_dot c :
  Ascii.eqb (PyStr.lower_ascii c) "." = Ascii.eqb c ".".
Proof. by destruct c as [[] [] [] [] [] [] [] []]. Qed.

Lemma has_dot_lower s : has_char "." (PyStr.lower s) = has_char "." s.
Proof.
  induction s as [|c s IH]; [done|].
  cbn [PyStr.lower PyStr.map_str has_char].
  fold (PyStr.lower s). by rewrite IH, lower_ascii_dot.
Qed.

Lemma lstrip_dotfree s :
  has_char "." s = false -> PyStr.lstrip ["."%char] s = s.
Proof.
  destruct s as [|c s]; [done|]. cbn [has_char PyStr.lstrip].
  intros H. apply orb_false_elim in H as [Hc _].
  unfold PyStr.mem. cbn [existsb]. by rewrite Hc.
Qed.

Lemma rstrip_dotfree s :
  has_char "." s = false -> PyStr.rstrip ["."%char] s = s.
Proof.
  induction s as [|c s IH]; [done|]. cbn [has_char PyStr.rstrip].
  intros H. apply orb_false_elim in H as [Hc Hs]. rewrite (IH Hs).
  destruct s; [|done]. unfold PyStr.mem. cbn [existsb]. by rewrite Hc.
Qed.

(** The extension [compile_feature_vector] dispatches on is the one
    [get_prediction] validates without its leading dot. *)
Lemma validated_ext_bare p :
  PyStr.lower (PyStr.splitext p).2 = EmptyString /\ bare_ext p = EmptyString \/
  PyStr.lower (PyStr.splitext p).2 = String "." (bare_ext p).
Proof.
  unfold bare_ext.
  destruct (splitext_ext p) as [->|(t & -> & Hno)]; [by left|right].
  change (PyStr.lower (String "." t)) with (String "."%char (PyStr.lower t)).
  f_equal. unfold PyStr.strip.
  rewrite <- has_dot_lower in Hno.
  change (PyStr.lstrip ["."%char] (String "." (PyStr.lower t)))
    with (PyStr.lstrip ["."%char] (PyStr.lower t)).
  by rewrite lstrip_dotfree, rstrip_dotfree.
Qed.

(** X14. The allow-list of [get_prediction] and the type branches of
    [compile_feature_vector] agree on every path: the extension is
    accepted exactly when it has a branch of its own, so that every
    accepted file gets the features of its type and no type with features
    of its own is rejected. *)
Theorem allowed_iff_typed p :
  PyStr.lower (PyStr.splitext p).2 ∈ allowed_extensions <->
  class_of_ext (bare_ext p) <> OtherExt.
Proof.
  rewrite <- str_in_spec.
  destruct (validated_ext_bare p) as [[-> ->]| ->]; [done|].
  generalize (bare_ext p). intros e.
  unfold class_of_ext, str_in, allowed_extensions. cbn [existsb].
  change (String.eqb (String "." e) ?s)
    with (String.eqb e (PyStr.drop 1 s)).
  cbn [PyStr.drop].
  destruct (e =? "txt")%string, (e =? "csv")%string, (e =? "json")%string,
    (e =? "pdf")%string, (e =? "png")%string, (e =? "jpg")%string,
    (e =? "jpeg")%string, (e =? "wav")%string; cbn; split; done.
Qed.

(* ===================================================================== *)
(** ** The efficiency report *)
(* ===================================================================== *)

Lemma efficiency_gain_le prediction_time benchmark_time :
  (0 <= prediction_time)%R ->
  (efficiency_gain (efficiency_report prediction_time benchmark_time)
   <= 600 / 7)%R.
Proof.
  intros Hp. unfold efficiency_report, efficiency_report_rounded.
  cbn [efficiency_gain].
  destruct (Rlt_dec 0 (benchmark_time * 7)) as [Hpos|Hneg]; [|lra].
  assert (Hgain : ((benchmark_time * 7 - (prediction_time + benchmark_time))
                   / (benchmark_time * 7) * 100
                   = 600 / 7 - prediction_time * (100 / (7 * benchmark_time)))%R)
    by (field; lra).
  rewrite Hgain.
  assert (0 < 100 / (7 * benchmark_time))%R
    by (apply Rdiv_lt_0_compat; lra).
  assert (0 <= prediction_time * (100 / (7 * benchmark_time)))%R
    by (apply Rmult_le_pos; lra).
  lra.
Qed.

Section Rounding.

Variable rnd : R -> R.
Variable u : R.
Hypothesis rnd_rounding : rounding rnd u.
Hypothesis u_small : (u <= 1 / 1000)%R.

Lemma rounding_unit_nonneg : (0 <= u)%R.
Proof.
  destruct rnd_rounding as (_ & _ & E). specialize (E 1%R).
  rewrite Rabs_R1, Rmult_1_r in E.
  pose proof (Rabs_pos (rnd 1 - 1)). lra.
Qed.

Lemma rounding_nonneg x : (0 <= x)%R -> (0 <= rnd x)%R.
Proof.
  destruct rnd_rounding as (M & Z & _).
  intros H. rewrite <- Z. by apply M.
Qed.

Lemma rounding_nonpos x : (x <= 0)%R -> (rnd x <= 0)%R.
Proof.
  destruct rnd_rounding as (M & Z & _).
  intros H. rewrite <- Z. by apply M.
Qed.

Lemma rounding_upper x : (0 <= x)%R -> (rnd x <= x * (1 + u))%R.
Proof.
  destruct rnd_rounding as (_ & _ & E).
  intros H. specialize (E x). rewrite (Rabs_pos_eq x) in E by done.
  pose proof (Rle_abs (rnd x - x)). lra.
Qed.

Lemma quotient_nonneg s b : (0 <= s)%R -> (0 < b)%R -> (0 <= s / b)%R.
Proof.
  intros Hs Hb. unfold Rdiv. apply Rmult_le_pos; [done|].
  by apply Rlt_le, Rinv_0_lt_compat.
Qed.

Lemma quotient_nonpos s b : (s <= 0)%R -> (0 < b)%R -> (s / b <= 0)%R.
Proof.
  intros Hs Hb. unfold Rdiv. replace 0%R with (0 * / b)%R by ring.
  apply Rmult_le_compat_r; [|done]. by apply Rlt_le, Rinv_0_lt_compat.
Qed.

(** The gain computed with rounded operations from a benchmark time that
    is itself a rounded value. The exact quotient is at most 6/7, the three
    roundings after the subtraction add at most a factor [(1 + u)] each. *)
Lemma rounded_gain_cases prediction_time benchmark_time :
  rnd benchmark_time = benchmark_time ->
  (0 <= prediction_time)%R ->
  let r := efficiency_report_rounded rnd prediction_time benchmark_time in
  (efficiency_gain r < 86)%R /\
  ((prediction_time <= 6 * benchmark_time)%R -> (0 <= efficiency_gain r)%R) /\
  ((6 * benchmark_time <= prediction_time)%R -> (efficiency_gain r <= 0)%R) /\
  ((benchmark_time <= 0)%R -> efficiency_gain r = 0%R).
Proof.
  intros Hb Hp r. subst r. unfold efficiency_report_rounded.
  cbn [efficiency_gain].
  set (B := rnd (benchmark_time * 7)).
  set (T := rnd (prediction_time + benchmark_time)).
  set (S := rnd (B - T)).
  pose proof rounding_unit_nonneg as Hu.
  pose proof rnd_rounding as (Hmono & _ & _).
  destruct (Rlt_dec 0 B) as [HB|HB];
    [|split; [lra|]; split; [lra|]; split; [lra|done]].
  assert (Hbt : (0 < benchmark_time)%R).
  { destruct (Rle_lt_dec benchmark_time 0) as [H|H]; [|done].
    assert (B <= 0)%R by (apply rounding_nonpos; lra). lra. }
  assert (HT : (benchmark_time <= T)%R).
  { rewrite <- Hb. apply Hmono. lra. }
  assert (HBu : (B <= benchmark_time * 7 * (1 + u))%R)
    by (apply rounding_upper; lra).
  split; [|split; [|split]].
  - destruct (Rle_lt_dec (B - T) 0) as [Hd|Hd].
    + assert (S <= 0)%R by by apply rounding_nonpos.
      assert (S / B <= 0)%R by by apply quotient_nonpos.
      assert (rnd (S / B) <= 0)%R by by apply rounding_nonpos.
      assert (rnd (rnd (S / B) * 100) <= 0)%R
        by (apply rounding_nonpos; lra).
      lra.
    + assert (HS : (S <= (B - T) * (1 + u))%R)
        by (apply rounding_upper; lra).
      assert (HS0 : (0 <= S)%R) by (apply rounding_nonneg; lra).
      assert (HQ : (S / B <= 6 / 7 + u)%R).
      { apply (Rmult_le_reg_r B); [done|].
        unfold Rdiv at 1. rewrite Rmult_assoc, Rinv_l, Rmult_1_r by lra.
        nra. }
      assert (HQ0 : (0 <= S / B)%R) by by apply quotient_nonneg.
      assert (HR : (rnd (S / B) <= (6 / 7 + u) * (1 + u))%R).
      { etransitivity; [by apply rounding_upper|]. nra. }
      assert (HR0 : (0 <= rnd (S / B))%R) by by apply rounding_nonneg.
      assert (HG : (rnd (rnd (S / B) * 100)
                    <= (6 / 7 + u) * (1 + u) * 100 * (1 + u))%R).
      { etransitivity; [apply rounding_upper; lra|]. nra. }
      nra.
  - intros Hsix.
    assert (T <= B)%R by (apply Hmono; lra).
    assert (0 <= S)%R by (apply rounding_nonneg; lra).
    assert (0 <= S / B)%R by by apply quotient_nonneg.
    assert (0 <= rnd (S / B))%R by by apply rounding_nonneg.
    apply rounding_nonneg. lra.
  - intros Hsix.
    assert (B <= T)%R by (apply Hmono; lra).
    assert (S <= 0)%R by (apply rounding_nonpos; lra).
    assert (S / B <= 0)%R by by apply quotient_nonpos.
    assert (rnd (S / B) <= 0)%R by by apply rounding_nonpos.
    apply rounding_nonpos. lra.
  - intros ?. lra.
Qed.

End Rounding.

(** No rounding at all is a rounding, with no error. *)
Lemma exact_rounding : rounding (fun x => x) 0.
Proof.
  split; [done|]. split; [done|]. intros x.
  replace (x - x)%R with 0%R by ring. rewrite Rabs_R0. lra.
Qed.

(** X15. The efficiency gain that [main] reports, computed as the program
    computes it, with the result of every operation rounded: for every
    rounding that keeps the order, is exact at 0 and has a relative error
    of at most [u <= 1/1000] (for doubles [u = 2^-53]), a benchmark time
    that is itself a rounded value and a prediction time that is not
    negative, the gain stays below 86 percent; it is not negative when the
    prediction took at most six benchmark times and not positive when it
    took at least six; and it is 0 when the benchmark time is not
    positive. Exact arithmetic is the case of no rounding. *)
Theorem efficiency_report_bounds rnd u prediction_time benchmark_time :
  rounding rnd u -> (u <= 1 / 1000)%R ->
  rnd benchmark_time = benchmark_time ->
  (0 <= prediction_time)%R ->
  let r := efficiency_report_rounded rnd prediction_time benchmark_time in
  (efficiency_gain r < 86)%R /\
  ((prediction_time <= 6 * benchmark_time)%R -> (0 <= efficiency_gain r)%R) /\
  ((6 * benchmark_time <= prediction_time)%R -> (efficiency_gain r <= 0)%R) /\
  ((benchmark_time <= 0)%R -> efficiency_gain r = 0%R).
Proof. intros Hr Hu Hb Hp. by apply (rounded_gain_cases rnd u). Qed.

Lemma efficiency_report_bounds_witness :
  let r := efficiency_report 1 2 in
  (efficiency_gain r < 86)%R /\
  ((1 <= 6 * 2)%R -> (0 <= efficiency_gain r)%R) /\
  ((6 * 2 <= 1)%R -> (efficiency_gain r <= 0)%R) /\
  ((2 <= 0)%R -> efficiency_gain r = 0%R).
Proof.
  apply (efficiency_report_bounds (fun x => x) 0 1 2 exact_rounding);
    [lra|reflexivity|lra].
Defined.

(* ===================================================================== *)
(** ** The analysis of [main] *)
(* ===================================================================== *)

Section Analysis.

Variable w : world.

Lemma run_full_benchmark_frame p recommended_tool :
  keeps (same_fs_outside output_paths)
        (run_full_benchmark w p recommended_tool).
Proof.
  unfold run_full_benchmark, getsize. keeps_tac; try done.
  apply sweep_frame. intros tool Htool _.
  apply list_elem_of_In, in_map, list_elem_of_In, Htool.
Qed.

(** With a scaler, a plain model that returns at least one probability and
    a label encoder that knows every index, [get_prediction] returns for an
    accepted file. *)
Lemma get_prediction_returns p m st f transform predict penultimate inverse :
  st_fs st !! p = Some f ->
  PyStr.lower (PyStr.splitext p).2 ∈ allowed_extensions ->
  (Z.of_N (f_size f) <= MAX_SIZE)%Z ->
  INFERENCE_CACHE w !! "SCALER" = Some (Scaler transform) ->
  m <> "DL-ML Hybrid" ->
  INFERENCE_CACHE w !! m = Some (KerasModel predict penultimate) ->
  (forall x, predict x <> []) ->
  INFERENCE_CACHE w !! "LABEL_ENCODER" = Some (LabelEncoder inverse) ->
  (forall i, exists tool, inverse i = Ok tool) ->
  exists i tool ins t st',
    inverse i = Ok tool /\
    get_prediction w p m st = (Ok (tool, ins, t), st').
Proof.
  intros Hf Hext Hsz Hscaler Hm Hmodel Hne Henc Hinv.
  destruct (get_universal_features_total p (st_sized p st))
    as (fs & ent & bd & st1 & Hu).
  destruct (type_features_total w (bare_ext p) p st1) as (t & st2 & Ht).
  destruct (compile_feature_vector_run w p _ _ _ _ _ _ _ Hu Ht) as [ins Hc].
  rewrite get_prediction_run, Hf. cbv zeta.
  apply str_in_spec in Hext. rewrite Hext. cbn [negb].
  rewrite (proj2 (Z.ltb_ge MAX_SIZE _)) by done.
  rewrite bind_run, Hc. unfold predict_from_features.
  rewrite bind_run. unfold cache_get at 1. rewrite Hscaler, ret_run.
  rewrite !bind_run. unfold emit. rewrite ret_run.
  rewrite bind_run. unfold cache_get at 1. rewrite Hmodel, ret_run.
  apply String.eqb_neq in Hm. rewrite Hm.
  rewrite !bind_run. cbv beta iota.
  assert (Hprobs : forall inputs st0,
    exists x probs, keras_predict (KerasModel predict penultimate) inputs st0
                    = (Ok (x :: probs), st0)).
  { intros inputs st0. unfold keras_predict. rewrite ret_run.
    destruct (predict inputs) as [|x probs] eqn:Hp; [by apply Hne in Hp|].
    by exists x, probs. }
  assert (Hrest : forall pred_enc st0, exists tool t' st',
    inverse pred_enc = Ok tool /\
    (encoder ← cache_get w "LABEL_ENCODER";
     recommended_tool ←
       match encoder with
       | LabelEncoder inverse_transform =>
           emit EvInverseTransform;; lift (inverse_transform pred_enc)
       | _ => raise AttributeError
       end;
     now ← time_time w;
     mret (recommended_tool, ins, (now - w_clock w (st_ticks st))%R)) st0
    = (Ok (tool, ins, t'), st')).
  { intros pred_enc st0. rewrite bind_run. unfold cache_get.
    rewrite Henc, ret_run. rewrite !bind_run. unfold emit, lift.
    cbv beta iota. destruct (Hinv pred_enc) as [tool ->].
    unfold time_time. cbv beta iota. eexists _, _, _.
    split; reflexivity. }
  destruct (String.eqb m "Wide & Deep").
  - destruct (Hprobs [transform (stat_features fs ent t ++
                        map (fun i => dict_get bd i 0%R) (range 256));
                      take 12 (transform (stat_features fs ent t ++
                        map (fun i => dict_get bd i 0%R) (range 256)))]
                (st_emit (EvPredict m) (st_emit EvTransform st2)))
      as (x & probs & ->).
    unfold lift, np_argmax.
    destruct (Hrest (argmax_from probs 1 0 x)
                (st_emit (EvPredict m) (st_emit EvTransform st2)))
      as (tool & t' & st' & Hi & Hr).
    by exists (argmax_from probs 1 0 x), tool, ins, t', st'.
  - destruct (Hprobs [transform (stat_features fs ent t ++
                        map (fun i => dict_get bd i 0%R) (range 256))]
                (st_emit (EvPredict m) (st_emit EvTransform st2)))
      as (x & probs & ->).
    unfold lift, np_argmax.
    destruct (Hrest (argmax_from probs 1 0 x)
                (st_emit (EvPredict m) (st_emit EvTransform st2)))
      as (tool & t' & st' & Hi & Hr).
    by exists (argmax_from probs 1 0 x), tool, ins, t', st'.
Qed.

Lemma run_single_compression_outputs tool p st x st' :
  run_single_compression w tool p st = (Ok x, st') ->
  same_fs_outside output_paths st st'.
Proof.
  intros Hrun.
  pose proof (run_single_compression_frame w tool p _ _ _ Hrun) as Hframe.
  apply run_single_compression_inv in Hrun.
  destruct (st_fs st !! p) as [f|]; [|by destruct Hrun].
  destruct (f_size f =? 0)%N; [by destruct Hrun as [_ ->]|].
  destruct (COMPRESSOR_PATHS !! tool) as [c|] eqn:Hc; [|by destruct Hrun].
  apply (same_fs_outside_but (final_path tool)); [|done].
  apply list_elem_of_In, in_map, list_elem_of_In.
  by apply (compressor_paths_dom tool c).
Qed.

Lemma analysis_inv p m st a st' :
  analysis w p m st = (Ok a, st') ->
  exists tool ins pt st1 b bt st2 r t o,
    get_prediction w p m st = (Ok (tool, ins, pt), st1) /\
    run_full_benchmark w p tool st1 = (Ok (b, bt), st2) /\
    run_single_compression w tool p st2 = (Ok (r, t, o), st') /\
    a = AnalysisResult tool ins b pt bt (efficiency_report pt bt) o.
Proof.
  unfold analysis. intros H.
  apply bind_ok_inv in H as ([[tool ins] pt] & st1 & H1 & H).
  apply bind_ok_inv in H as ([b bt] & st2 & H2 & H).
  apply bind_ok_inv in H as ([[r t] o] & st3 & H3 & H).
  rewrite ret_run in H. injection H as <- <-.
  by exists tool, ins, pt, st1, b, bt, st2, r, t, o.
Qed.

Lemma run_full_benchmark_flac p recommended_tool st b t st' :
  run_full_benchmark w p recommended_tool st = (Ok (b, t), st') ->
  ratios b !! "flac" = Some 0%R.
Proof.
  unfold run_full_benchmark. intros H.
  apply bind_ok_inv in H as (sz & st1 & _ & H).
  apply bind_ok_inv in H as (start & st2 & _ & H).
  apply bind_ok_inv in H as (b' & st3 & Hsweep & H).
  rewrite bind_run in H. unfold time_time in H. rewrite ret_run in H.
  injection H as <- _ _.
  by apply (sweep_flac_skipped w p _ ["7zip"; "zip"; "winrar"; "gzip"; "bzip2"]
              _ _ _ _ Hsweep).
Qed.

(** X16. When the analysis of [main] comes to its end: a download is
    offered only for the file [compressed_output.<tool>] of the
    recommended tool, which then exists; every path that is not a name of
    one of the six possible outputs has the content it had, so the
    uploaded file is as it was; the chart data give ratio 0 for [flac],
    also when [flac] is the recommendation; and, with a clock that never
    runs backwards, both durations are not negative and the reported gain
    is below 86 percent, in exact arithmetic and when the report is
    computed from the two durations with every operation rounded. *)
Theorem analysis_outcome p m st a st' :
  analysis w p m st = (Ok a, st') ->
  (forall path, an_compressed_file_path a = Some path ->
     path = "compressed_output." +:+ an_recommended_tool a /\
     is_Some (st_fs st' !! path)) /\
  (forall q, (forall out, out ∈ output_paths -> ~ names_same_file w q out) ->
     st_fs st' !! q = st_fs st !! q) /\
  ratios (an_benchmark a) !! "flac" = Some 0%R /\
  (monotone_clock w ->
     (0 <= an_prediction_time a)%R /\ (0 <= an_benchmark_time a)%R /\
     (efficiency_gain (an_efficiency_report a) < 86)%R /\
     (forall rnd u,
        rounding rnd u -> (u <= 1 / 1000)%R ->
        rnd (an_benchmark_time a) = an_benchmark_time a ->
        (efficiency_gain
           (efficiency_report_rounded rnd (an_prediction_time a)
                                      (an_benchmark_time a)) < 86)%R)).
Proof.
  intros H.
  apply analysis_inv in H
    as (tool & ins & pt & st1 & b & bt & st2 & r & t & o & H1 & H2 & H3 & ->).
  cbn [an_compressed_file_path an_recommended_tool an_benchmark
       an_prediction_time an_benchmark_time an_efficiency_report].
  split; [|split; [|split]].
  - intros path ->.
    destruct (run_single_compression_ok _ _ _ _ _ _ _ _ H3)
      as (f & Hf & [(_ & [=] & _)
                   |(c & exe & g & _ & _ & _ & _ & _ & _ & [= Hp] & Hfs)]).
    subst path. split; [reflexivity|].
    rewrite Hfs, lookup_insert_eq. by eexists.
  - intros q Hq.
    assert (Hout : q ∉ output_paths)
      by (intros Hin; apply (Hq q Hin); by left).
    rewrite (run_single_compression_outputs _ _ _ _ _ H3 q Hout).
    rewrite (run_full_benchmark_frame _ _ _ _ _ H2 q Hout).
    by rewrite (get_prediction_same_fs w _ _ _ _ _ H1).
  - by apply (run_full_benchmark_flac _ _ _ _ _ _ H2).
  - intros Hmono.
    apply get_prediction_time in H1 as (k & Hk & ->).
    apply run_full_benchmark_time in H2 as (n & k' & Hk' & ->).
    pose proof (Hmono _ _ Hk). pose proof (Hmono _ _ Hk').
    split; [lra|]. split; [lra|]. split.
    + pose proof (efficiency_gain_le
                    (w_clock w k - w_clock w (st_ticks st))
                    (w_clock w k' - w_clock w n) ltac:(lra)).
      lra.
    + intros rnd u Hr Hu Hb.
      apply (rounded_gain_cases rnd u Hr Hu _ _ Hb). lra.
Qed.

End Analysis.

Lemma demo_world_clock : monotone_clock demo_world.
Proof. intros n m. apply le_INR. Qed.

Lemma demo_world_tempdir : usable_tempdir demo_world.
Proof. done. Qed.

Lemma demo_world_analysis :
  exists a st',
    analysis demo_world "a.txt" "Baseline MLP" (st_with "a.txt" file_aab)
    = (Ok a, st').
Proof.
  destruct (get_prediction_returns demo_world "a.txt" "Baseline MLP"
              (st_with "a.txt" file_aab) file_aab (fun x => x)
              (fun _ => [0%R; 1%R]) (fun x => x) (fun _ => Ok "gzip"))
    as (i & tool & ins & pt & st1 & [= <-] & H1).
  { apply lookup_st_with. }
  { apply str_in_spec. reflexivity. }
  { vm_compute. discriminate. }
  { reflexivity. }
  { discriminate. }
  { reflexivity. }
  { discriminate. }
  { reflexivity. }
  { intros _. by exists "gzip". }
  assert (Hf1 : st_fs st1 !! "a.txt" = Some file_aab).
  { rewrite (get_prediction_same_fs demo_world _ _ _ _ _ H1).
    apply lookup_st_with. }
  destruct (run_full_benchmark_total demo_world "a.txt" "gzip" st1 file_aab
              Hf1 demo_world_tempdir) as (b & bt & st2 & H2).
  assert (Hf2 : st_fs st2 !! "a.txt" = Some file_aab).
  { rewrite (run_full_benchmark_frame demo_world _ _ _ _ _ H2); [done|].
    apply str_in_false. reflexivity. }
  destruct (run_single_compression_total demo_world "gzip" "a.txt" st2 file_aab
              gzip_in_all_tools Hf2 demo_world_tempdir)
    as (r & t & o & st3 & H3 & _).
  unfold analysis. rewrite bind_run, H1. cbv beta iota.
  rewrite bind_run, H2. cbv beta iota.
  rewrite bind_run, H3. cbv beta iota. rewrite ret_run. by eexists _, _.
Qed.

Lemma analysis_outcome_witness :
  exists a st',
    analysis demo_world "a.txt" "Baseline MLP" (st_with "a.txt" file_aab)
    = (Ok a, st') /\
    st_fs st' !! "a.txt" = st_fs (st_with "a.txt" file_aab) !! "a.txt" /\
    ratios (an_benchmark a) !! "flac" = Some 0%R /\
    (efficiency_gain (an_efficiency_report a) < 86)%R.
Proof.
  destruct demo_world_analysis as (a & st' & Hrun).
  destruct (analysis_outcome demo_world _ _ _ _ _ Hrun)
    as (_ & Hframe & Hflac & Htime).
  exists a, st'. split; [exact Hrun|]. split; [|split].
  - apply Hframe. intros out Hin [H|H]; [|discriminate H].
    subst out. apply str_in_spec in Hin. discriminate Hin.
  - exact Hflac.
  - by destruct (Htime demo_world_clock) as (_ & _ & Hgain & _).
Defined.

(* ===================================================================== *)
(** ** The average line length *)
(* ===================================================================== *)

Lemma lstrip_length chars s :
  (String.length (PyStr.lstrip chars s) <= String.length s)%nat.
Proof.
  induction s as [|c s IH]; [done|]. cbn [PyStr.lstrip].
  destruct (PyStr.mem c chars); cbn [String.length]; lia.
Qed.

Lemma rstrip_length chars s :
  (String.length (PyStr.rstrip chars s) <= String.length s)%nat.
Proof.
  induction s as [|c s IH]; [done|]. cbn [PyStr.rstrip].
  destruct (PyStr.rstrip chars s) eqn:Hr.
  - destruct (PyStr.mem c chars); cbn [String.length]; lia.
  - cbn [String.length] in *. lia.
Qed.

Lemma strip_length chars s :
  (String.length (PyStr.strip chars s) <= String.length s)%nat.
Proof.
  unfold PyStr.strip.
  pose proof (rstrip_length chars (PyStr.lstrip chars s)).
  pose proof (lstrip_length chars s). lia.
Qed.

Lemma foldl_add_bounds (g : string -> Z) (n : Z) lines acc :
  (forall l, l ∈ lines -> 0 <= g l <= n)%Z ->
  (acc <= foldl Z.add acc (map g lines)
       <= acc + n * Z.of_nat (length lines))%Z.
Proof.
  revert acc. induction lines as [|l lines IH]; intros acc Hall.
  { cbn. lia. }
  cbn [map foldl length].
  pose proof (Hall l ltac:(left)) as Hl.
  pose proof (IH (acc + g l)%Z ltac:(intros l' Hl'; apply Hall; by right)).
  lia.
Qed.

(** X17. The text feature is an average of line lengths after stripping:
    it is never negative, it is at most the length of the longest line as
    read, and it is 0 when the file cannot be read or has no line. *)
Theorem text_feature_bounds w p st :
  exists a st',
    get_text_features w p st = (Ok a, st') /\
    (0 <= a)%R /\
    (forall f n, readable_file st p = Some f ->
       (forall l, l ∈ w_readlines w f -> (String.length l <= n)%nat) ->
       (a <= INR n)%R) /\
    (readable_file st p = None \/
     (exists f, readable_file st p = Some f /\ w_readlines w f = []) ->
     a = 0%R).
Proof.
  unfold get_text_features, try_except.
  rewrite bind_run, open_file_readable.
  destruct (readable_file st p) as [f|]; cbn beta iota.
  2:{ eexists _, _. split; [reflexivity|]. split; [lra|].
      split; [done|done]. }
  destruct (w_readlines w f) as [|l lines] eqn:Hlines.
  { rewrite ret_run. eexists _, _. split; [reflexivity|]. split; [lra|].
    split; [|done]. intros f' n _ _. apply pos_INR. }
  unfold lift. rewrite truediv_ok by (cbn [length]; lia).
  eexists _, _. split; [reflexivity|].
  set (g := fun l : string =>
         Z.of_nat (String.length (PyStr.strip PyStr.whitespace l))).
  assert (Hlen : (0 < IZR (Z.of_nat (length (l :: lines))))%R)
    by (apply IZR_lt; cbn [length]; lia).
  split; [|split].
  - apply Rmult_le_pos; [|by left; apply Rinv_0_lt_compat].
    apply IZR_le.
    assert (Hpos : (forall x, 0 <= g x)%Z) by (intros x; unfold g; lia).
    assert (Hge : forall ls acc, (acc <= foldl Z.add acc (map g ls))%Z).
    { induction ls as [|x ls IH]; intros acc; cbn [map foldl]; [lia|].
      specialize (IH (acc + g x)%Z). specialize (Hpos x). lia. }
    apply Hge.
  - intros f' n [= <-] Hall. rewrite Hlines in Hall.
    apply (Rmult_le_reg_r (IZR (Z.of_nat (length (l :: lines))))); [done|].
    replace (IZR (foldl Z.add 0%Z (map g (l :: lines)))
             / IZR (Z.of_nat (length (l :: lines)))
             * IZR (Z.of_nat (length (l :: lines))))%R
      with (IZR (foldl Z.add 0%Z (map g (l :: lines)))) by (field; lra).
    rewrite INR_IZR_INZ, <- mult_IZR. apply IZR_le.
    pose proof (foldl_add_bounds g (Z.of_nat n) (l :: lines) 0) as H.
    apply H. intros x Hx. unfold g.
    pose proof (strip_length PyStr.whitespace x). specialize (Hall x Hx). lia.
  - intros [[=]|(f' & [= <-] & Hnil)]. by rewrite Hlines in Hnil.
Qed.
